(** * gotcc: a Try-Confirm/Cancel transaction coordinator

    Shallow embedding of the transaction manager ([txmanager]), of the
    participant contract ([component]) and of the sample participant
    ([example.MockComponent]), followed by the properties of the
    coordinator that the specification states.

    Conventions of the embedding.
    - Go strings are [string]; the three status types of the source are
      string types and stay strings here, with the source's constants.
    - [time.Duration] is an [int64] count of nanoseconds: a [Z] with the
      wrap-around of the machine operations written out ([wrap64]).
    - [time.Time] is an instant on a line of nanoseconds ([Z]); the zero
      [time.Time] is the origin of that line.
    - A Go result pair [(T, error)] is a [result]: either the value or the
      error (a nil error comes with a usable value).  An [error] is
      identified with its message.
    - Pointers to records are the records themselves.
    - Interface values ([TCCComponent], [TXStore]) are records of state
      transformers over a type [World] that stands for everything outside
      the coordinator (participants' resources, the persistent log).
    - [context.Context] arguments are not represented: what a callee
      observes of its context belongs to the [World].
    - A call to a participant or to the store is one atomic transformation
      of the [World]; concurrent goroutines interleave call by call.
    - The recovery loop ([run], [batchAdvanceProgress]) is not embedded;
      its tick update [backOffTick] is. *)

From stdpp Require Import base strings gmap list.
From Stdlib Require Import ZArith Lia.

Local Open Scope string_scope.
Local Open Scope list_scope.
Local Open Scope Z_scope.

(** ** Go base types *)

Module Go.

Definition error := string.

Inductive result (A : Type) : Type :=
| Ok (a : A)
| Err (e : error).
Arguments Ok {A} a.
Arguments Err {A} e.

(** [int64] arithmetic: the value of a mathematical integer once it is
    stored in 64 bits (two's complement). *)
Definition minInt64 : Z := - 2 ^ 63.
Definition maxInt64 : Z := 2 ^ 63 - 1.
Definition wrap64 (z : Z) : Z := (z + 2 ^ 63) mod 2 ^ 64 - 2 ^ 63.
Definition inInt64 (z : Z) : Prop := minInt64 <= z <= maxInt64.

(** [x << n] on an [int64]. *)
Definition shl64 (x n : Z) : Z := wrap64 (Z.shiftl x n).
(** [-x] on an [int64]. *)
Definition neg64 (x : Z) : Z := wrap64 (- x).

(** Code that threads a state [S]: a function from the state to its result
    and the new state. *)
Definition stateM (S A : Type) : Type := S -> A * S.

Definition ret {S A} (a : A) : stateM S A := fun s => (a, s).
Definition bind {S A B} (m : stateM S A) (k : A -> stateM S B) : stateM S B :=
  fun s => let '(a, s') := m s in k a s'.

(** [time.Duration] and its unit. *)
Definition Duration := Z.
Definition Second : Duration := 1000000000.

(** [time.Time], [Time.Before], [Time.Add]. *)
Definition Time := Z.
Definition zeroTime : Time := 0.
Definition Before (t u : Time) : bool := t <? u.
Definition Add (t : Time) (d : Duration) : Time := t + d.

End Go.
Export Go.

Notation "'let!' x ':=' m 'in' k" := (bind m (fun x => k))
  (at level 10, x pattern, m at level 100, k at level 200).

(** ** Package component: the participant contract *)

Module component.

(** [map[string]interface{}]: the payload of a request, each value
    represented by its rendering as a string. *)
Abbreviation Payload := (gmap string string).

Record TCCReq := {
  req_ComponentID : string;
  req_TXID : string;
  Data : Payload
}.

Record TCCResp := {
  ComponentID : string;
  ACK : bool;
  TXID : string
}.

Section Interface.
Context {World : Type}.

(** The [TCCComponent] interface. *)
Record TCCComponent := {
  ID : string;
  Try : TCCReq -> World -> result TCCResp * World;
  Confirm : string -> World -> result TCCResp * World;
  Cancel : string -> World -> result TCCResp * World
}.

End Interface.
Arguments TCCComponent World : clear implicits.

End component.

(** ** Package txmanager *)

Module txmanager.
Import component.

(** *** option.go: options *)

Record Options := {
  Timeout : Duration;
  MonitorTick : Duration
}.

Definition Option := Options -> Options.

Definition WithTimeout (timeout : Duration) : Option :=
  let timeout := if timeout <=? 0 then wrap64 (5 * Second) else timeout in
  fun o => {| Timeout := timeout; MonitorTick := MonitorTick o |}.

Definition WithMonitorTick (tick : Duration) : Option :=
  let tick := if tick <=? 0 then wrap64 (10 * Second) else tick in
  fun o => {| Timeout := Timeout o; MonitorTick := tick |}.

Definition repair (o : Options) : Options :=
  let o := if MonitorTick o <=? 0
           then {| Timeout := Timeout o; MonitorTick := wrap64 (10 * Second) |}
           else o in
  if Timeout o <=? 0
  then {| Timeout := wrap64 (5 * Second); MonitorTick := MonitorTick o |}
  else o.

(** *** The transaction model *)

Definition TXStatus := string.
Definition TXHanging : TXStatus := "hanging".
Definition TXSuccessful : TXStatus := "successful".
Definition TXFailure : TXStatus := "failure".

Definition ComponentTryStatus := string.
Definition TryHanging : ComponentTryStatus := "hanging".
Definition TrySucceesful : ComponentTryStatus := "successful".
Definition TryFailure : ComponentTryStatus := "failure".

Record ComponentTryEntity := {
  cte_ComponentID : string;
  TryStatus : ComponentTryStatus
}.

Record Transaction := {
  tx_TXID : string;
  Components : list ComponentTryEntity;
  Status : TXStatus;
  CreatedAt : Time
}.

(** The loop of [getStatus]: [None] when it returns [TXFailure] from inside
    the loop, otherwise the final value of [hangingExist]. *)
Fixpoint getStatus_loop (cs : list ComponentTryEntity) (hangingExist : bool)
  : option bool :=
  match cs with
  | [] => Some hangingExist
  | c :: cs' =>
      if bool_decide (TryStatus c = TryFailure) then None
      else getStatus_loop cs'
             (hangingExist || negb (bool_decide (TryStatus c = TrySucceesful)))
  end.

Definition getStatus (t : Transaction) (createdBefore : Time) : TXStatus :=
  if Before (CreatedAt t) createdBefore then TXFailure
  else match getStatus_loop (Components t) false with
       | None => TXFailure
       | Some true => TXHanging
       | Some false => TXSuccessful
       end.

(** The derivation of the status as the specification words it, over the
    same record: failure on timeout unless the transaction is already
    successful, else failure if some try status is FAILURE, else hanging if
    some try status is HANGING, else successful. *)
Definition getStatus_spec (t : Transaction) (createdBefore : Time) : TXStatus :=
  if Before (CreatedAt t) createdBefore
     && negb (bool_decide (Status t = TXSuccessful))
  then TXFailure
  else if existsb (fun c => bool_decide (TryStatus c = TryFailure)) (Components t)
  then TXFailure
  else if existsb (fun c => bool_decide (TryStatus c = TryHanging)) (Components t)
  then TXHanging
  else TXSuccessful.


Record RequestEntity := {
  re_ComponentID : string;
  Request : Payload
}.

(** *** Effects

    Calls that leave the coordinator (to a participant or to the store)
    transform the [World]; the model also keeps the list of these calls, in
    the order in which they were made, each with what it returned. *)

Inductive Event :=
| CallTry (id : string) (req : TCCReq) (r : result TCCResp)
| CallConfirm (id txID : string) (r : result TCCResp)
| CallCancel (id txID : string) (r : result TCCResp)
| CallCreateTX (ids : list string) (r : result string)
| CallTXUpdate (txID componentID : string) (accept : bool) (r : option error)
| CallTXSubmit (txID : string) (success : bool) (r : option error)
| CallGetTX (txID : string) (r : result Transaction)
| GoAdvanceProgressByTXID (txID : string).

(** What a Go function does when it does not return normally. *)
Inductive outcome (A : Type) : Type :=
| Ret (a : A)
| Panic.
Arguments Ret {A} a.
Arguments Panic {A}.

Section Manager.
Context {World : Type}.

Record State := {
  world : World;
  trace : list Event
}.

Definition M (A : Type) : Type := stateM State A.

Definition log (e : Event) : M unit :=
  fun s => (tt, {| world := world s; trace := trace s ++ [e] |}).
(** A call to the outside: run it on the world and record it. *)
Definition call {A} (f : World -> A * World) (ev : A -> Event) : M A :=
  fun s => let '(a, w) := f (world s) in
           (a, {| world := w; trace := trace s ++ [ev a] |}).

Abbreviation TCCComponent := (component.TCCComponent World).

(** *** registry center *)

Record registryCenter := {
  components : gmap string TCCComponent
}.

Definition newRegistryCenter : registryCenter := {| components := ∅ |}.

Definition registryCenter_register (r : registryCenter) (c : TCCComponent)
  : option error * registryCenter :=
  match components r !! ID c with
  | Some _ => (Some "repeat component id", r)
  | None => (None, {| components := <[ID c := c]> (components r) |})
  end.

Fixpoint registryCenter_getComponents_loop (r : registryCenter)
    (componentIDs : list string) (acc : list TCCComponent)
  : result (list TCCComponent) :=
  match componentIDs with
  | [] => Ok acc
  | componentID :: rest =>
      match components r !! componentID with
      | None => Err ("component id: " +:+ componentID +:+ " not existed")
      | Some c => registryCenter_getComponents_loop r rest (acc ++ [c])
      end
  end.

Definition registryCenter_getComponents (r : registryCenter)
    (componentIDs : list string) : result (list TCCComponent) :=
  registryCenter_getComponents_loop r componentIDs [].

(** Every participant is registered under its own identity: what
    [registryCenter_register] keeps true of a registry. *)
Definition registry_wf (r : registryCenter) : Prop :=
  forall k c, components r !! k = Some c -> ID c = k.

(** *** entities *)

Record ComponentEntity := {
  ce_Request : Payload;
  Component : TCCComponent
}.

Abbreviation ComponentEntities := (list ComponentEntity).

Definition ToComponents (c : ComponentEntities) : list TCCComponent :=
  fold_left (fun acc entity => acc ++ [Component entity]) c [].

Definition NewTransaction (txID : string) (componentEntities : ComponentEntities)
  : Transaction :=
  let entities :=
    fold_left
      (fun acc componentEntity =>
         acc ++ [ {| cte_ComponentID := ID (Component componentEntity);
                     TryStatus := "" |} ])
      componentEntities [] in
  {| tx_TXID := txID;
     Components := entities;
     Status := "";
     CreatedAt := zeroTime |}.

(** *** txstore.go: the [TXStore] interface *)

Record TXStore := {
  CreateTX : list TCCComponent -> World -> result string * World;
  TXUpdate : string -> string -> bool -> World -> option error * World;
  TXSubmit : string -> bool -> World -> option error * World;
  GetHangingTXs : World -> result (list Transaction) * World;
  GetTX : string -> World -> result Transaction * World;
  Lock : Duration -> World -> option error * World;
  Unlock : World -> option error * World
}.

(** *** The coordinator *)

Record TXManager := {
  opts : Options;
  txStore : TXStore;
  registry : registryCenter
}.

(** [NewTXManager]; the recovery loop it starts is a background task and is
    not part of the value. *)
Definition NewTXManager (store : TXStore) (os : list Option) : TXManager :=
  {| opts := repair (fold_left (fun o opt => opt o) os
                       {| Timeout := 0; MonitorTick := 0 |});
     txStore := store;
     registry := newRegistryCenter |}.

Definition Register (t : TXManager) (c : TCCComponent) : option error * TXManager :=
  let '(err, r) := registryCenter_register (registry t) c in
  (err, {| opts := opts t; txStore := txStore t; registry := r |}).

Definition backOffTick (t : TXManager) (tick : Duration) : Duration :=
  let tick := shl64 tick 1 in
  let threshold := shl64 (MonitorTick (opts t)) 3 in
  if tick >? threshold then threshold else tick.

(** *** Calls to participants and to the store, recorded in the trace.
    [id] is the identity under which the coordinator addresses the
    participant at the call site. *)

Definition call_Try (id : string) (c : TCCComponent) (req : TCCReq)
  : M (result TCCResp) :=
  call (Try c req) (CallTry id req).
Definition call_Confirm (id : string) (c : TCCComponent) (txID : string)
  : M (result TCCResp) :=
  call (Confirm c txID) (CallConfirm id txID).
Definition call_Cancel (id : string) (c : TCCComponent) (txID : string)
  : M (result TCCResp) :=
  call (Cancel c txID) (CallCancel id txID).
Definition call_CreateTX (t : TXManager) (cs : list TCCComponent)
  : M (result string) :=
  call (CreateTX (txStore t) cs) (CallCreateTX (map ID cs)).
Definition call_TXUpdate (t : TXManager) (txID componentID : string)
    (accept : bool) : M (option error) :=
  call (TXUpdate (txStore t) txID componentID accept)
       (CallTXUpdate txID componentID accept).
Definition call_TXSubmit (t : TXManager) (txID : string) (success : bool)
  : M (option error) :=
  call (TXSubmit (txStore t) txID success) (CallTXSubmit txID success).
Definition call_GetTX (t : TXManager) (txID : string) : M (result Transaction) :=
  call (GetTX (txStore t) txID) (CallGetTX txID).

(** *** getComponents: validation of the request set *)

(** The deduplication loop: fills [idToReq] and [componentIDs]. *)
Fixpoint getComponents_dedup (reqs : list RequestEntity)
    (idToReq : gmap string RequestEntity) (componentIDs : list string)
  : result (gmap string RequestEntity * list string) :=
  match reqs with
  | [] => Ok (idToReq, componentIDs)
  | req :: reqs' =>
      match idToReq !! re_ComponentID req with
      | Some _ => Err ("repeat component: " +:+ re_ComponentID req)
      | None =>
          getComponents_dedup reqs'
            (<[re_ComponentID req := req]> idToReq)
            (componentIDs ++ [re_ComponentID req])
      end
  end.

(** The loop that builds the entities.  [idToReq[component.ID()]] is a nil
    pointer when the identity is absent from the map, and reading its
    [Request] field panics. *)
Fixpoint getComponents_entities (idToReq : gmap string RequestEntity)
    (cs : list TCCComponent) (entities : ComponentEntities)
  : outcome ComponentEntities :=
  match cs with
  | [] => Ret entities
  | c :: cs' =>
      match idToReq !! ID c with
      | None => Panic
      | Some req =>
          getComponents_entities idToReq cs'
            (entities ++ [ {| ce_Request := Request req; Component := c |} ])
      end
  end.

Definition getComponents (t : TXManager) (reqs : list RequestEntity)
  : outcome (result ComponentEntities) :=
  if bool_decide (length reqs = 0%nat) then Ret (Err "emtpy task")
  else
    match getComponents_dedup reqs ∅ [] with
    | Err err => Ret (Err err)
    | Ok (idToReq, componentIDs) =>
        match registryCenter_getComponents (registry t) componentIDs with
        | Err err => Ret (Err err)
        | Ok cs =>
            if bool_decide (length componentIDs ≠ length cs)
            then Ret (Err "invalid componentIDs ")
            else
              match getComponents_entities idToReq cs [] with
              | Panic => Panic
              | Ret entities => Ret (Ok entities)
              end
        end
    end.

(** *** twoPhaseCommit: phase 1

    One goroutine per entity runs Try, then TXUpdate, then either ends or
    sends an error on the unbuffered channel [errCh]; the parent receives
    once.  A goroutine is a [worker]: its entity and the point it has
    reached.  The model follows the goroutines up to the moment the parent
    has received: what goroutines still running do after [twoPhaseCommit]
    has returned (among them, what they observe of [cancel()]) is not part
    of the call. *)

Inductive point :=
| AtTry                      (* about to call Try *)
| AtTXUpdate (accept : bool) (* Try returned; about to call TXUpdate *)
| AtSend (err : error)       (* blocked in [errCh <- err] *)
| Finished.                  (* returned: [wg.Done()] *)

Record worker := {
  entity : ComponentEntity;
  at_point : point
}.

Definition move (w : worker) (p : point) : worker :=
  {| entity := entity w; at_point := p |}.

(** One step of a goroutine. *)
Definition worker_step (t : TXManager) (txID : string) (w : worker) : M worker :=
  let c := Component (entity w) in
  match at_point w with
  | AtTry =>
      let! r := call_Try (ID c) c
                  {| req_ComponentID := ID c;
                     req_TXID := txID;
                     Data := ce_Request (entity w) |} in
      match r with
      | Err _ => ret (move w (AtTXUpdate false))
      | Ok resp =>
          if negb (ACK resp) then ret (move w (AtTXUpdate false))
          else ret (move w (AtTXUpdate true))
      end
  | AtTXUpdate false =>
      let! _err := call_TXUpdate t txID (ID c) false in
      ret (move w (AtSend ("component: " +:+ ID c +:+ " try failed")))
  | AtTXUpdate true =>
      let! err := call_TXUpdate t txID (ID c) true in
      match err with
      | Some e => ret (move w (AtSend e))
      | None => ret (move w Finished)
      end
  | AtSend _ | Finished => ret w
  end.

(** A goroutine run on its own until it blocks on [errCh] or returns. *)
Definition worker_run (t : TXManager) (txID : string) (w : worker) : M worker :=
  let! w1 := worker_step t txID w in
  worker_step t txID w1.

Definition finished (w : worker) : bool :=
  match at_point w with Finished => true | _ => false end.

(** Goroutines run to their end one after the other, in the order of the
    list, until one of them sends. *)
Fixpoint phase1_drain (t : TXManager) (txID : string) (ws : list worker)
  : M (option error) :=
  match ws with
  | [] => ret None
  | w :: ws' =>
      let! w' := worker_run t txID w in
      match at_point w' with
      | AtSend e => ret (Some e)
      | _ => phase1_drain t txID ws'
      end
  end.

(** What the parent receives from [errCh].  The interleaving of the
    goroutines is given by [sched]: each entry names the goroutine that
    takes the next step.  When every goroutine has returned, [errCh] is
    closed and the parent receives nil; when the goroutine chosen is
    blocked in a send, the parent receives its error.  Once [sched] is used
    up the remaining goroutines run as in [phase1_drain]. *)
Fixpoint phase1 (t : TXManager) (txID : string) (sched : list nat)
    (ws : list worker) : M (option error) :=
  if forallb finished ws then ret None
  else
    match sched with
    | [] => phase1_drain t txID ws
    | i :: sched' =>
        match ws !! i with
        | None => phase1 t txID sched' ws
        | Some w =>
            match at_point w with
            | AtSend e => ret (Some e)
            | Finished => phase1 t txID sched' ws
            | _ =>
                let! w' := worker_step t txID w in
                phase1 t txID sched' (<[i := w']> ws)
            end
        end
    end.

Definition twoPhaseCommit (t : TXManager) (sched : list nat) (txID : string)
    (componentEntities : ComponentEntities) : M (bool * option error) :=
  let! err := phase1 t txID sched
                (map (fun e => {| entity := e; at_point := AtTry |})
                     componentEntities) in
  let successful := match err with Some _ => false | None => true end in
  let! _ := log (GoAdvanceProgressByTXID txID) in
  ret (successful, None).

(** *** Transaction: the entry point *)

Definition TXManager_Transaction (t : TXManager) (sched : list nat)
    (reqs : list RequestEntity) : M (outcome (bool * option error)) :=
  match getComponents t reqs with
  | Panic => ret Panic
  | Ret (Err err) => ret (Ret (false, Some err))
  | Ret (Ok componentEntities) =>
      let! r := call_CreateTX t (ToComponents componentEntities) in
      match r with
      | Err err => ret (Ret (false, Some err))
      | Ok txID =>
          let! res := twoPhaseCommit t sched txID componentEntities in
          ret (Ret res)
      end
  end.

(** *** advanceProgress: phase 2 *)

Definition confirmOrCancel (success : bool) (txID : string) (id : string)
    (c : TCCComponent) : M (result TCCResp) :=
  if success then call_Confirm id c txID else call_Cancel id c txID.

(** The loop over the participants of the transaction: the error with which
    [advanceProgress] returns from inside the loop, or [None] when the loop
    runs to its end. *)
Fixpoint advanceProgress_loop (t : TXManager) (success : bool) (txID : string)
    (cs : list ComponentTryEntity) : M (option error) :=
  match cs with
  | [] => ret None
  | component :: cs' =>
      match registryCenter_getComponents (registry t)
              [cte_ComponentID component] with
      | Err _ | Ok [] => ret (Some "get tcc component failed")
      | Ok (c0 :: _) =>
          let! r := confirmOrCancel success txID (cte_ComponentID component) c0 in
          match r with
          | Err err => ret (Some err)
          | Ok resp =>
              if negb (ACK resp)
              then ret (Some ("component: " +:+ cte_ComponentID component
                              +:+ " ack failed"))
              else advanceProgress_loop t success txID cs'
          end
      end
  end.

(** [now] is the value of [time.Now()] read by the call. *)
Definition advanceProgress (t : TXManager) (now : Time) (tx : Transaction)
  : M (option error) :=
  let txStatus := getStatus tx (Add now (neg64 (Timeout (opts t)))) in
  if bool_decide (txStatus = TXHanging) then ret None
  else
    let success := bool_decide (txStatus = TXSuccessful) in
    let! err := advanceProgress_loop t success (tx_TXID tx) (Components tx) in
    match err with
    | Some e => ret (Some e)
    | None => call_TXSubmit t (tx_TXID tx) success
    end.

Definition advanceProgressByTXID (t : TXManager) (now : Time) (txID : string)
  : M (option error) :=
  let! r := call_GetTX t txID in
  match r with
  | Err err => ret (Some err)
  | Ok tx => advanceProgress t now tx
  end.

End Manager.

Arguments State World : clear implicits.
Arguments M World A : clear implicits.
Arguments registryCenter World : clear implicits.
Arguments ComponentEntity World : clear implicits.
Arguments TXStore World : clear implicits.
Arguments TXManager World : clear implicits.
Arguments worker World : clear implicits.

End txmanager.

(** ** The Redis client used by the sample participant

    The client is the library [redis_lock], outside this repository.  The
    model keeps what the participant's code relies on: a key-value table,
    the set of lock keys currently held, and a script of transport faults.
    An operation is one round trip; a round trip takes the next entry of
    the script and fails with it when it is an error.  [Set] and [SetNX]
    refuse an empty key or an empty value before any round trip.  A nil
    reply of the server is the error [ErrNil]: [Get] on an absent key,
    [SetNX] on a key that is present, and [Lock], which is a SET NX on the
    lock key, on a lock that is held. *)

Module redis_lock.

Definition ErrNil : error := "redigo: nil returned".

Record Client := {
  kv : gmap string string;
  held : gset string;
  faults : list (option error)
}.

Definition roundtrip : stateM Client (option error) :=
  fun c =>
    match faults c with
    | [] => (None, c)
    | f :: fs => (f, {| kv := kv c; held := held c; faults := fs |})
    end.

(** [Get] returns its Go pair as it is: the participant reads the string
    next to an error. *)
Definition Get (key : string) : stateM Client (string * option error) :=
  let! f := roundtrip in
  match f with
  | Some e => ret ("", Some e)
  | None =>
      fun c => match kv c !! key with
               | Some v => ((v, None), c)
               | None => (("", Some ErrNil), c)
               end
  end.

Definition Set_ (key value : string) : stateM Client (option error) :=
  if bool_decide (key = "") || bool_decide (value = "")
  then ret (Some "redis SET key or value can't be empty")
  else
    let! f := roundtrip in
    match f with
    | Some e => ret (Some e)
    | None =>
        fun c => (None, {| kv := <[key := value]> (kv c);
                           held := held c; faults := faults c |})
    end.

(** The reply of [SET key value NX] is OK, which the client turns into 1,
    or nil, which it turns into [ErrNil]. *)
Definition SetNX (key value : string) : stateM Client (result Z) :=
  if bool_decide (key = "") || bool_decide (value = "")
  then ret (Err "redis SET key NX or value can't be empty")
  else
    let! f := roundtrip in
    match f with
    | Some e => ret (Err e)
    | None =>
        fun c => match kv c !! key with
                 | Some _ => (Err ErrNil, c)
                 | None => (Ok 1, {| kv := <[key := value]> (kv c);
                                     held := held c; faults := faults c |})
                 end
    end.

Definition Del (key : string) : stateM Client (option error) :=
  let! f := roundtrip in
  match f with
  | Some e => ret (Some e)
  | None =>
      fun c => (None, {| kv := delete key (kv c);
                         held := held c; faults := faults c |})
  end.

(** A lock on [key] ([NewRedisLock(key, client)]), non-blocking. *)
Definition Lock (key : string) : stateM Client (option error) :=
  let! f := roundtrip in
  match f with
  | Some e => ret (Some e)
  | None =>
      fun c => if bool_decide (key ∈ held c)
               then (Some ErrNil, c)
               else (None, {| kv := kv c; held := {[key]} ∪ held c;
                              faults := faults c |})
  end.

Definition Unlock (key : string) : stateM Client (option error) :=
  let! f := roundtrip in
  match f with
  | Some e => ret (Some e)
  | None =>
      fun c => (None, {| kv := kv c; held := held c ∖ {[key]};
                         faults := faults c |})
  end.

End redis_lock.

(** ** Package example/pkg: the keys *)

Module pkg.

Definition BuildTXKey (componentID txID : string) : string :=
  "txKey:" +:+ componentID +:+ ":" +:+ txID.

Definition BuildTXDetailKey (componentID txID : string) : string :=
  "txDetailKey:" +:+ componentID +:+ ":" +:+ txID.

Definition BuildDataKey (componentID txID bizID : string) : string :=
  "txKey:" +:+ componentID +:+ ":" +:+ txID +:+ ":" +:+ bizID.

Definition BuildTXLockKey (componentID txID : string) : string :=
  "txLockKey:" +:+ componentID +:+ ":" +:+ txID.

Definition BuildTXRecordLockKey : string := "gotcc:txRecord:lock".

End pkg.

(** ** Package example: the sample participant *)

Module example.
Import component redis_lock pkg.

Definition TXStatus := string.
Definition TXTried : TXStatus := "tried".
Definition TXConfirmed : TXStatus := "confirmed".
Definition TXCanceled : TXStatus := "canceled".

Definition DataStatus := string.
Definition DataFrozen : DataStatus := "frozen".
Definition DataSuccessful : DataStatus := "successful".

(** The component holds its identity; its Redis client is the state the
    operations run on. *)
Record MockComponent := {
  id : string
}.

Definition NewMockComponent (id : string) : MockComponent := {| id := id |}.

Definition MockComponent_ID (m : MockComponent) : string := id m.

(** [errors.Is(err, redis_lock.ErrNil)] *)
Definition is_ErrNil (e : error) : bool := bool_decide (e = ErrNil).

(** The frame shared by the three operations: take the lock on the
    transaction, return the error if that fails, otherwise run the body and
    release the lock on the way out (the deferred [Unlock], whose error is
    dropped). *)
Definition locked {A} (key : string) (body : stateM Client (result A))
  : stateM Client (result A) :=
  let! err := Lock key in
  match err with
  | Some e => ret (Err e)
  | None =>
      let! r := body in
      let! _ := Unlock key in
      ret r
  end.

(** [gocast.ToString(req.Data["biz_id"])]: the empty string when the key is
    absent. *)
Definition biz_id_of (req : TCCReq) : string :=
  default "" (Data req !! "biz_id").

(** [if err != nil { return nil, err }] *)
Definition check {A} (err : option error) (k : stateM Client (result A))
  : stateM Client (result A) :=
  match err with
  | Some e => ret (Err e)
  | None => k
  end.

(** [if err != nil && !errors.Is(err, redis_lock.ErrNil) { return nil, err }] *)
Definition check_unless_ErrNil {A} (err : option error)
    (k : stateM Client (result A)) : stateM Client (result A) :=
  match err with
  | Some e => if negb (is_ErrNil e) then ret (Err e) else k
  | None => k
  end.

(** [if err != nil && errors.Is(err, redis_lock.ErrNil) { return nil, err }] *)
Definition check_if_ErrNil {A} (err : option error)
    (k : stateM Client (result A)) : stateM Client (result A) :=
  match err with
  | Some e => if is_ErrNil e then ret (Err e) else k
  | None => k
  end.

Definition response (m : MockComponent) (txID : string) (ack : bool) : TCCResp :=
  {| ComponentID := id m; ACK := ack; TXID := txID |}.

Definition MockComponent_Try (m : MockComponent) (req : TCCReq)
  : stateM Client (result TCCResp) :=
  let txID := req_TXID req in
  locked (BuildTXLockKey (id m) txID)
    (let! (txStatus, err) := Get (BuildTXKey (id m) txID) in
     check_unless_ErrNil err
       (if bool_decide (txStatus = TXTried)
           || bool_decide (txStatus = TXConfirmed)
        then ret (Ok (response m txID true))
        else if bool_decide (txStatus = TXCanceled)
        then ret (Ok (response m txID false))
        else
          let bizID := biz_id_of req in
          let! err := Set_ (BuildTXDetailKey (id m) txID) bizID in
          check err
            (let! r := SetNX (BuildDataKey (id m) txID bizID) DataFrozen in
             match r with
             | Err e => ret (Err e)
             | Ok reply =>
                 if negb (reply =? 1) then ret (Ok (response m txID false))
                 else
                   let! err := Set_ (BuildTXKey (id m) txID) TXTried in
                   check err (ret (Ok (response m txID true)))
             end))).

Definition MockComponent_Confirm (m : MockComponent) (txID : string)
  : stateM Client (result TCCResp) :=
  locked (BuildTXLockKey (id m) txID)
    (let! (txStatus, err) := Get (BuildTXKey (id m) txID) in
     check err
       (if bool_decide (txStatus = TXConfirmed)
        then ret (Ok (response m txID true))
        else if negb (bool_decide (txStatus = TXTried))
        then ret (Ok (response m txID false))
        else
          let! (bizID, err) := Get (BuildTXDetailKey (id m) txID) in
          check err
            (let! (dataStatus, err) := Get (BuildDataKey (id m) txID bizID) in
             check err
               (if negb (bool_decide (dataStatus = DataFrozen))
                then ret (Ok (response m txID false))
                else
                  let! err := Set_ (BuildDataKey (id m) txID bizID)
                                DataSuccessful in
                  check err
                    (let! _ := Set_ (BuildTXKey (id m) txID) TXConfirmed in
                     ret (Ok (response m txID true))))))).

Definition MockComponent_Cancel (m : MockComponent) (txID : string)
  : stateM Client (result TCCResp) :=
  locked (BuildTXLockKey (id m) txID)
    (let! (txStatus, err) := Get (BuildTXKey (id m) txID) in
     check_unless_ErrNil err
       (if bool_decide (txStatus = TXConfirmed)
        then ret (Err ("invalid tx status: " +:+ txStatus
                       +:+ ", txid: " +:+ txID))
        else
          let! (bizID, err) := Get (BuildTXDetailKey (id m) txID) in
          check_if_ErrNil err
            (let! err :=
               (if negb (bool_decide (bizID = ""))
                then Del (BuildDataKey (id m) txID bizID)
                else ret None) in
             check err
               (let! err := Set_ (BuildTXKey (id m) txID) TXCanceled in
                check err (ret (Ok (response m txID true))))))).

(** [MockComponent] implements [TCCComponent], its world being the client. *)
Definition MockComponent_TCCComponent (m : MockComponent) : TCCComponent Client :=
  {| ID := MockComponent_ID m;
     Try := MockComponent_Try m;
     Confirm := MockComponent_Confirm m;
     Cancel := MockComponent_Cancel m |}.

(** The transaction status that the participant has on record. *)
Definition recorded (m : MockComponent) (txID : string) (c : Client)
  : option string :=
  kv c !! BuildTXKey (id m) txID.

End example.

(** ** Scenarios

    Small participants and a small store over a world that is the number of
    calls served so far; they instantiate the interfaces in the examples
    that follow. *)

Module scenario.
Import component txmanager.

(** A participant whose Try acknowledges or not as [try_ack] says, and whose
    Confirm and Cancel acknowledge. *)
Definition participant (id : string) (try_ack : bool) : TCCComponent nat :=
  {| ID := id;
     Try := fun req n =>
              (Ok {| ComponentID := id; ACK := try_ack; TXID := req_TXID req |},
               S n);
     Confirm := fun txID n =>
              (Ok {| ComponentID := id; ACK := true; TXID := txID |}, S n);
     Cancel := fun txID n =>
              (Ok {| ComponentID := id; ACK := true; TXID := txID |}, S n) |}.

(** A store that names every transaction ["tx-1"] and accepts every write. *)
Definition store : TXStore nat :=
  {| CreateTX := fun _ n => (Ok "tx-1", S n);
     TXUpdate := fun _ _ _ n => (None, S n);
     TXSubmit := fun _ _ n => (None, S n);
     GetHangingTXs := fun n => (Ok [], S n);
     GetTX := fun _ n => (Err "tx not found", S n);
     Lock := fun _ n => (None, S n);
     Unlock := fun n => (None, S n) |}.

(** A coordinator with the default options and participants A and B, B
    refusing its Try. *)
Definition A : TCCComponent nat := participant "A" true.
Definition B : TCCComponent nat := participant "B" false.

Definition manager : TXManager nat :=
  snd (Register (snd (Register (NewTXManager store []) A)) B).

Definition start : State nat := {| world := 0%nat; trace := [] |}.

(** A store whose list of hanging transactions cannot be read, and the
    coordinator over it. *)
Definition unreadable_store : TXStore nat :=
  {| CreateTX := CreateTX store;
     TXUpdate := TXUpdate store;
     TXSubmit := TXSubmit store;
     GetHangingTXs := fun n => (Err "store unreachable", S n);
     GetTX := GetTX store;
     Lock := Lock store;
     Unlock := Unlock store |}.

Definition unreadable_manager : TXManager nat :=
  NewTXManager unreadable_store [].

(** The same coordinator over a Redis client, with the sample participant
    registered as A; the store leaves the client alone. *)
Definition redis_store : TXStore redis_lock.Client :=
  {| CreateTX := fun _ c => (Ok "tx-1", c);
     TXUpdate := fun _ _ _ c => (None, c);
     TXSubmit := fun _ _ c => (None, c);
     GetHangingTXs := fun c => (Ok [], c);
     GetTX := fun _ c => (Err "tx not found", c);
     Lock := fun _ c => (None, c);
     Unlock := fun c => (None, c) |}.

Definition redis_manager : TXManager redis_lock.Client :=
  snd (Register (NewTXManager redis_store [])
         (example.MockComponent_TCCComponent (example.NewMockComponent "A"))).

(** A record in which B refused its Try, and a request to the sample
    participant. *)
Definition failed_tx : Transaction :=
  {| tx_TXID := "tx-1";
     Components := [ {| cte_ComponentID := "A"; TryStatus := TrySucceesful |};
                     {| cte_ComponentID := "B"; TryStatus := TryFailure |} ];
     Status := TXHanging;
     CreatedAt := 0 |}.

Definition order7 : TCCReq :=
  {| req_ComponentID := "A"; req_TXID := "tx-1";
     Data := {[ "biz_id" := "order-7" ]} |}.

End scenario.

(** * Notions used to state the properties *)

Module Notions.
Import component txmanager.

(** ** The transaction model *)

(** A try status that is FAILURE; a try status that is not SUCCESSFUL. *)
Definition try_failed (c : ComponentTryEntity) : bool :=
  bool_decide (TryStatus c = TryFailure).
Definition try_pending (c : ComponentTryEntity) : bool :=
  negb (bool_decide (TryStatus c = TrySucceesful)).

(** ** The calls of the coordinator *)

(** The call that phase 2 makes on a participant of the record. *)
Definition phase2_call (success : bool) (txID : string)
    (c : ComponentTryEntity) (r : result TCCResp) : Event :=
  if success then CallConfirm (cte_ComponentID c) txID r
  else CallCancel (cte_ComponentID c) txID r.

(** A participant's answer that is a response with ack = true. *)
Definition acked (r : result TCCResp) : bool :=
  match r with
  | Ok resp => ACK resp
  | Err _ => false
  end.

(** A call of phase 1 that fails: a Try that answers an error or
    ack = false, or a TXUpdate that answers an error. *)
Definition phase1_failure (e : Event) : bool :=
  match e with
  | CallTry _ _ r => negb (acked r)
  | CallTXUpdate _ _ _ (Some _) => true
  | _ => false
  end.

Definition is_CreateTX (e : Event) : bool :=
  match e with
  | CallCreateTX _ _ => true
  | _ => false
  end.

(** ** The goroutines of phase 1 *)

Section Phase1.
Context {World : Type}.
Implicit Types (t : TXManager World) (s : State World) (w : worker World)
  (ws : list (worker World)) (evs : list Event).

(** A goroutine that will send an error. *)
Definition failed w : bool :=
  match at_point w with
  | AtTXUpdate false | AtSend _ => true
  | _ => false
  end.

(** The Try of the goroutine's participant was made for [txID] and
    acknowledged. *)
Definition tried txID evs w : Prop :=
  exists req resp,
    req_TXID req = txID /\ ACK resp = true /\
    CallTry (ID (Component (entity w))) req (Ok resp) ∈ evs.

(** The acceptance was written to the log. *)
Definition logged txID evs w : Prop :=
  CallTXUpdate txID (ID (Component (entity w))) true None ∈ evs.

(** What the list of calls holds for a goroutine, given the point it has
    reached. *)
Definition accounted txID evs w : Prop :=
  match at_point w with
  | AtTXUpdate true => tried txID evs w
  | Finished => tried txID evs w /\ logged txID evs w
  | _ => True
  end.

(** The point a goroutine reaches in one step. *)
Definition advances (p p' : point) : Prop :=
  match p with
  | AtTry => exists accept, p' = AtTXUpdate accept
  | AtTXUpdate _ => p' = Finished \/ exists e, p' = AtSend e
  | AtSend e => p' = AtSend e
  | Finished => p' = Finished
  end.

(** The invariant of phase 1, over the calls [evs] made since it began:
    as long as no goroutine is about to send an error, no call has failed;
    and every goroutine is accounted for. *)
Record phase1_inv (txID : string) evs ws : Prop := {
  inv_failure :
    Forall (fun w => failed w = false) ws ->
    Forall (fun e => phase1_failure e = false) evs;
  inv_accounted : Forall (accounted txID evs) ws
}.

(** The end of phase 1: the state of the goroutines when the parent has
    received, with the calls made. *)
Definition phase1_end txID base (ws : list (worker World))
    (r : option error * State World) : Prop :=
  exists ws' evs',
    trace (snd r) = base ++ evs' /\
    phase1_inv txID evs' ws' /\
    map entity ws' = map entity ws /\
    (fst r = None -> Forall (fun w => at_point w = Finished) ws').

End Phase1.

(** ** Phase 2 *)

(** The error with which an advance stops at the answer [r] of the
    participant [c]: the participant's error, or the refusal of its
    ack = false. *)
Definition phase2_error (c : ComponentTryEntity) (r : result TCCResp) : error :=
  match r with
  | Err e => e
  | Ok _ => "component: " +:+ cte_ComponentID c +:+ " ack failed"
  end.

Section Phase2.
Context {World : Type}.

(** The recorded call [e] is the call it says: made in the world [w] on the
    participant registered under its ID, or on the store, with the recorded
    answer, and leaving the world [w']. *)
Definition performs (t : TXManager World) (w : World) (e : Event) (w' : World)
  : Prop :=
  match e with
  | CallConfirm id txID r =>
      exists p, components (registry t) !! id = Some p /\ Confirm p txID w = (r, w')
  | CallCancel id txID r =>
      exists p, components (registry t) !! id = Some p /\ Cancel p txID w = (r, w')
  | CallTXSubmit txID success r => TXSubmit (txStore t) txID success w = (r, w')
  | _ => False
  end.

(** The recorded calls [evs] were made one after the other, from the world
    [w] to the world [w']. *)
Fixpoint genuine (t : TXManager World) (w : World) (evs : list Event)
    (w' : World) : Prop :=
  match evs with
  | [] => w' = w
  | e :: evs' => exists w1, performs t w e w1 /\ genuine t w1 evs' w'
  end.

End Phase2.

End Notions.

Module MockNotions.
Import component redis_lock pkg example.

(** A client on which the operation at hand is not disturbed: no transport
    fault is pending and nobody holds the lock of the transaction. *)
Definition undisturbed (m : MockComponent) (txID : string) (c : Client) : Prop :=
  faults c = [] /\ BuildTXLockKey (id m) txID ∉ held c.

(** A participant that has seen nothing yet. *)
Definition fresh_client : Client := {| kv := ∅; held := ∅; faults := [] |}.

(** A client that holds nothing of the transaction of a request: no
    status on record and no business data under the request's biz_id. *)
Definition unseen (m : MockComponent) (req : TCCReq) (c : Client) : Prop :=
  recorded m (req_TXID req) c = None /\
  kv c !! BuildDataKey (id m) (req_TXID req) (biz_id_of req) = None.

(** The business data of the transaction of a request. *)
Definition data_of (m : MockComponent) (req : TCCReq) (c : Client)
  : option string :=
  kv c !! BuildDataKey (id m) (req_TXID req) (biz_id_of req).

(** The table after a Try that went through. *)
Definition tried_kv (m : MockComponent) (req : TCCReq)
    (k : gmap string string) : gmap string string :=
  <[BuildTXKey (id m) (req_TXID req) := TXTried]>
    (<[BuildDataKey (id m) (req_TXID req) (biz_id_of req) := DataFrozen]>
       (<[BuildTXDetailKey (id m) (req_TXID req) := biz_id_of req]> k)).

(** The table after a Confirm that went through. *)
Definition confirmed_kv (m : MockComponent) (txID bizID : string)
    (k : gmap string string) : gmap string string :=
  <[BuildTXKey (id m) txID := TXConfirmed]>
    (<[BuildDataKey (id m) txID bizID := DataSuccessful]> k).

(** The table after a Cancel that went through. *)
Definition canceled_kv (m : MockComponent) (txID bizID : string)
    (k : gmap string string) : gmap string string :=
  <[BuildTXKey (id m) txID := TXCanceled]>
    (if bool_decide (bizID = "") then k
     else delete (BuildDataKey (id m) txID bizID) k).

End MockNotions.

(** ** Package txmanager, continued: the recovery loop

    [batchAdvanceProgress] starts one goroutine per transaction, each
    running [advanceProgress] and sending its error, if any, on the
    unbuffered channel [errCh]; the parent receives until the channel is
    closed and keeps the first error.  As in phase 1 the goroutines
    interleave call by call, in an order given by a schedule.  A goroutine
    is an [advancer]: its transaction, the [time.Now()] it reads, and the
    point it has reached in [advanceProgress]. *)

Module recovery.
Import component txmanager.

Inductive apoint :=
| AtStart                     (* about to derive the status *)
| AtCall (success : bool) (rest : list ComponentTryEntity)
                              (* in the loop, [rest] still to call;
                                 with [rest = []], about to call TXSubmit *)
| AtReport (err : error)      (* blocked in [errCh <- err] *)
| Done.                       (* returned: [wg.Done()] *)

Record advancer := {
  adv_tx : Transaction;
  adv_now : Time;
  adv_at : apoint
}.

Definition reach (a : advancer) (p : apoint) : advancer :=
  {| adv_tx := adv_tx a; adv_now := adv_now a; adv_at := p |}.

Definition done (a : advancer) : bool :=
  match adv_at a with Done => true | _ => false end.

(** The parent's [if firstErr != nil { continue }; firstErr = err]. *)
Definition keep_first (firstErr : option error) (err : error) : option error :=
  match firstErr with
  | Some e => Some e
  | None => Some err
  end.

(** The calls of the recovery loop to the store, and the waits of its
    [select], next to the calls of the advances. *)
Inductive REvent :=
| Wait (tick : Duration)
| StoreLock (expire : Duration) (r : option error)
| StoreGetHangingTXs (r : result (list Transaction))
| StoreUnlock (r : option error)
| Advance (e : Event).

(** The variables [tick] and [err] of [run]. *)
Record loop_state := {
  tick : Duration;
  err : option error
}.

(** What wakes the [select] of [run]: the end of the coordinator's
    context, or the timer; with the timer come the interleaving of the
    goroutines of the batch and the time each of them reads. *)
Inductive wake :=
| Stopped
| Ticked (sched : list nat) (clock : nat -> Time).

Section Recovery.
Context {World : Type}.

(** One step of a goroutine of the batch. *)
Definition advancer_step (t : TXManager World) (a : advancer)
  : M World advancer :=
  let tx := adv_tx a in
  match adv_at a with
  | AtStart =>
      let txStatus := getStatus tx (Add (adv_now a) (neg64 (Timeout (opts t)))) in
      if bool_decide (txStatus = TXHanging) then ret (reach a Done)
      else ret (reach a (AtCall (bool_decide (txStatus = TXSuccessful))
                           (Components tx)))
  | AtCall success [] =>
      let! err := call_TXSubmit t (tx_TXID tx) success in
      match err with
      | Some e => ret (reach a (AtReport e))
      | None => ret (reach a Done)
      end
  | AtCall success (component :: rest) =>
      match registryCenter_getComponents (registry t)
              [cte_ComponentID component] with
      | Err _ | Ok [] => ret (reach a (AtReport "get tcc component failed"))
      | Ok (c0 :: _) =>
          let! r := confirmOrCancel success (tx_TXID tx)
                      (cte_ComponentID component) c0 in
          match r with
          | Err err => ret (reach a (AtReport err))
          | Ok resp =>
              if negb (ACK resp)
              then ret (reach a (AtReport
                          ("component: " +:+ cte_ComponentID component
                           +:+ " ack failed")))
              else ret (reach a (AtCall success rest))
          end
      end
  | AtReport _ | Done => ret a
  end.

(** A goroutine run on its own from the point it has reached to its end:
    the rest of [advanceProgress], and the error it sends, if any. *)
Definition advancer_finish (t : TXManager World) (a : advancer)
  : M World (option error) :=
  match adv_at a with
  | AtStart => advanceProgress t (adv_now a) (adv_tx a)
  | AtCall success rest =>
      let! err := advanceProgress_loop t success (tx_TXID (adv_tx a)) rest in
      match err with
      | Some e => ret (Some e)
      | None => call_TXSubmit t (tx_TXID (adv_tx a)) success
      end
  | AtReport e => ret (Some e)
  | Done => ret None
  end.

Fixpoint batch_drain (t : TXManager World) (ws : list advancer)
    (firstErr : option error) : M World (option error) :=
  match ws with
  | [] => ret firstErr
  | a :: ws' =>
      let! r := advancer_finish t a in
      batch_drain t ws'
        (match r with Some e => keep_first firstErr e | None => firstErr end)
  end.

(** The parent's loop over [errCh].  Each entry of [sched] names the
    goroutine that takes the next step; a goroutine blocked in its send
    hands its error to the parent and returns; when all have returned the
    channel is closed and the loop ends.  Once [sched] is used up the
    remaining goroutines run to their end one after the other. *)
Fixpoint batch (t : TXManager World) (sched : list nat) (ws : list advancer)
    (firstErr : option error) : M World (option error) :=
  if forallb done ws then ret firstErr
  else
    match sched with
    | [] => batch_drain t ws firstErr
    | i :: sched' =>
        match ws !! i with
        | None => batch t sched' ws firstErr
        | Some a =>
            match adv_at a with
            | AtReport e =>
                batch t sched' (<[i := reach a Done]> ws) (keep_first firstErr e)
            | Done => batch t sched' ws firstErr
            | _ =>
                let! a' := advancer_step t a in
                batch t sched' (<[i := a']> ws) firstErr
            end
        end
    end.

(** [clock i] is the [time.Now()] that the goroutine of the [i]-th
    transaction reads. *)
Definition batchAdvanceProgress (t : TXManager World) (sched : list nat)
    (clock : nat -> Time) (txs : list Transaction) : M World (option error) :=
  batch t sched
    (imap (fun i tx => {| adv_tx := tx; adv_now := clock i; adv_at := AtStart |})
          txs)
    None.

(** *** run *)

Record RState := {
  rworld : World;
  rtrace : list REvent
}.

Definition RM (A : Type) : Type := stateM RState A.

Definition rlog (e : REvent) : RM unit :=
  fun rs => (tt, {| rworld := rworld rs; rtrace := rtrace rs ++ [e] |}).

Definition rcall {A} (f : World -> A * World) (ev : A -> REvent) : RM A :=
  fun rs => let '(a, w) := f (rworld rs) in
            (a, {| rworld := w; rtrace := rtrace rs ++ [ev a] |}).

(** The calls of the coordinator proper, made within the loop. *)
Definition lift {A} (m : M World A) : RM A :=
  fun rs => let '(a, s) := m {| world := rworld rs; trace := [] |} in
            (a, {| rworld := world s;
                   rtrace := rtrace rs ++ map Advance (trace s) |}).

(** The head of the loop: the new value of [tick]. *)
Definition run_tick (t : TXManager World) (st : loop_state) : Duration :=
  match err st with
  | None => MonitorTick (opts t)
  | Some _ => backOffTick t (tick st)
  end.

(** The branch [case <-time.After(tick)]: the new value of [err]. *)
Definition run_body (t : TXManager World) (sched : list nat)
    (clock : nat -> Time) : RM (option error) :=
  let! err := rcall (Lock (txStore t) (MonitorTick (opts t)))
                (StoreLock (MonitorTick (opts t))) in
  match err with
  | Some _ => ret None
  | None =>
      let! r := rcall (GetHangingTXs (txStore t)) StoreGetHangingTXs in
      match r with
      | Err e =>
          let! _ := rcall (Unlock (txStore t)) StoreUnlock in
          ret (Some e)
      | Ok txs =>
          let! err := lift (batchAdvanceProgress t sched clock txs) in
          let! _ := rcall (Unlock (txStore t)) StoreUnlock in
          ret err
      end
  end.

(** The loop, for as long as [wakes] says: [true] when [run] has returned,
    [false] when it is waiting in its [select]. *)
Fixpoint run_from (t : TXManager World) (wakes : list wake) (st : loop_state)
  : RM (bool * loop_state) :=
  match wakes with
  | [] => ret (false, st)
  | w :: wakes' =>
      let tick := run_tick t st in
      let! _ := rlog (Wait tick) in
      match w with
      | Stopped => ret (true, {| tick := tick; err := err st |})
      | Ticked sched clock =>
          let! err := run_body t sched clock in
          run_from t wakes' {| tick := tick; err := err |}
      end
  end.

Definition run (t : TXManager World) (wakes : list wake)
  : RM (bool * loop_state) :=
  run_from t wakes {| tick := 0; err := None |}.

End Recovery.

Arguments RState World : clear implicits.
Arguments RM World A : clear implicits.

End recovery.

(** * Further notions *)

Module MoreNotions.
Import component txmanager Notions.

(** A call that commits a transaction: a Confirm on a participant, or a
    TXSubmit with success = true. *)
Definition commits (e : Event) : bool :=
  match e with
  | CallConfirm _ _ _ => true
  | CallTXSubmit _ true _ => true
  | _ => false
  end.

Definition is_TXSubmit (e : Event) : bool :=
  match e with
  | CallTXSubmit _ _ _ => true
  | _ => false
  end.

Section Coordinator.
Context {World : Type}.

(** A participant whose Try acknowledges, whatever the request and the
    world. *)
Definition accepts (c : TCCComponent World) : Prop :=
  forall req w, exists resp, fst (Try c req w) = Ok resp /\ ACK resp = true.

(** A store whose TXUpdate succeeds, whatever the world. *)
Definition records (store : TXStore World) : Prop :=
  forall txID id accept w, fst (TXUpdate store txID id accept w) = None.

(** A goroutine of phase 1 that has met no refusal and no error. *)
Definition on_course (w : worker World) : bool :=
  match at_point w with
  | AtTry | AtTXUpdate true | Finished => true
  | _ => false
  end.

(** A goroutine on course whose participant accepts. *)
Definition cooperative (w : worker World) : Prop :=
  on_course w = true /\ accepts (Component (entity w)).

(** A participant whose Confirm and Cancel acknowledge, whatever the
    world. *)
Definition settles (c : TCCComponent World) : Prop :=
  forall txID w,
    (exists resp, fst (Confirm c txID w) = Ok resp /\ ACK resp = true) /\
    (exists resp, fst (Cancel c txID w) = Ok resp /\ ACK resp = true).

(** A store whose CreateTX succeeds, whatever the world. *)
Definition creates (store : TXStore World) : Prop :=
  forall cs w, exists txID, fst (CreateTX store cs w) = Ok txID.

(** The entity that [getComponents] builds for a request. *)
Definition entity_of (r : registryCenter World) (req : RequestEntity)
    (e : ComponentEntity World) : Prop :=
  ce_Request e = Request req /\
  components r !! re_ComponentID req = Some (Component e).

End Coordinator.

(** ** The recovery loop *)

(** The transaction that a call commits: the one of a Confirm, or of a
    TXSubmit with success = true. *)
Definition committed_tx (e : Event) : option string :=
  match e with
  | CallConfirm _ txID _ => Some txID
  | CallTXSubmit txID true _ => Some txID
  | _ => None
  end.

(** A call of a goroutine that carries [success] for [txID]: if it
    commits a transaction, it is that one and [success] is true. *)
Definition own (txID : string) (success : bool) (e : Event) : Prop :=
  forall x, committed_tx e = Some x -> x = txID /\ success = true.

Section Recovery.
Context {World : Type}.
Import recovery.

(** [txID] names a transaction of the batch that its goroutine derives
    SUCCESSFUL at the time it reads. *)
Definition successful_in (t : TXManager World) (clock : nat -> Time)
    (txs : list Transaction) (txID : string) : Prop :=
  exists i tx,
    txs !! i = Some tx /\ tx_TXID tx = txID /\
    getStatus tx (Add (clock i) (neg64 (Timeout (opts t)))) = TXSuccessful.

(** A call that, if it commits a transaction, commits one that is derived
    SUCCESSFUL. *)
Definition warranted (t : TXManager World) (clock : nat -> Time)
    (txs : list Transaction) (e : Event) : Prop :=
  forall txID, committed_tx e = Some txID -> successful_in t clock txs txID.

(** A goroutine of the batch that runs a transaction of the batch and, in
    the loop, carries the operation chosen from the derived status. *)
Definition sound (t : TXManager World) (clock : nat -> Time)
    (txs : list Transaction) (a : advancer) : Prop :=
  (exists i, txs !! i = Some (adv_tx a) /\ adv_now a = clock i) /\
  match adv_at a with
  | AtCall success _ =>
      success = bool_decide
                  (getStatus (adv_tx a)
                     (Add (adv_now a) (neg64 (Timeout (opts t)))) = TXSuccessful)
  | _ => True
  end.

(** The loop keeps to the lock: it takes the lock only when it does not
    hold it, reads the store and advances transactions only while it holds
    it, and waits only when it does not; [held] says whether it holds the
    lock before [evs], and it does not after. *)
Fixpoint disciplined (held : bool) (evs : list REvent) : bool :=
  match evs with
  | [] => negb held
  | Wait _ :: evs' => negb held && disciplined false evs'
  | StoreLock _ None :: evs' => negb held && disciplined true evs'
  | StoreLock _ (Some _) :: evs' => negb held && disciplined false evs'
  | StoreGetHangingTXs _ :: evs' => held && disciplined true evs'
  | Advance _ :: evs' => held && disciplined true evs'
  | StoreUnlock _ :: evs' => held && disciplined false evs'
  end.

(** The waits of the loop, in order. *)
Definition waits (evs : list REvent) : list Duration :=
  flat_map (fun e => match e with Wait d => [d] | _ => [] end) evs.

(** The wait after [k] rounds that ended in an error: doubled each time,
    up to eight times the tick. *)
Definition backed_off (tick0 : Duration) (k : nat) : Duration :=
  tick0 * 2 ^ Z.of_nat (Nat.min k 3).

Definition ticked (w : wake) : bool :=
  match w with Ticked _ _ => true | Stopped => false end.

(** A store that grants its lock and fails to list the hanging
    transactions, whatever the world. *)
Definition unreadable (store : TXStore World) (expire : Duration) : Prop :=
  (forall w, fst (Lock store expire w) = None) /\
  (forall w, exists e, fst (GetHangingTXs store w) = Err e).

End Recovery.

End MoreNotions.

(** * Properties of the transaction model *)

Module TxModel.
Import component txmanager Notions.

(** ** int64 arithmetic *)

Lemma wrap64_small z : inInt64 z -> wrap64 z = z.
Proof.
  unfold inInt64, minInt64, maxInt64, wrap64. intros Hz.
  rewrite Z.mod_small; lia.
Qed.

Lemma shl64_small x n :
  0 <= n -> inInt64 (x * 2 ^ n) -> shl64 x n = x * 2 ^ n.
Proof.
  intros Hn Hx. unfold shl64.
  rewrite Z.shiftl_mul_pow2 by exact Hn. now apply wrap64_small.
Qed.

(** ** backOffTick *)

(** C9, as the code has it: when neither doubling the tick nor taking eight
    times MonitorTick leaves the range of int64, backOffTick of a positive
    tick is twice the tick if that is at most eight times MonitorTick, and
    eight times MonitorTick otherwise. *)
Theorem backOffTick_doubles_capped {World} (t : TXManager World) (tick : Duration) :
  0 < tick ->
  2 * tick <= maxInt64 ->
  inInt64 (8 * MonitorTick (opts t)) ->
  backOffTick t tick =
    if 2 * tick <=? 8 * MonitorTick (opts t)
    then 2 * tick
    else 8 * MonitorTick (opts t).
Proof.
  intros Hpos Hdouble Hcap. unfold backOffTick.
  assert (Htick : shl64 tick 1 = 2 * tick).
  { rewrite shl64_small; change (2 ^ 1) with 2;
      unfold inInt64, minInt64, maxInt64 in *; lia. }
  assert (Hcap' : shl64 (MonitorTick (opts t)) 3 = 8 * MonitorTick (opts t)).
  { rewrite shl64_small; change (2 ^ 3) with 8;
      [lia | lia | now rewrite Z.mul_comm]. }
  rewrite Htick, Hcap'.
  destruct (Z.gtb_spec (2 * tick) (8 * MonitorTick (opts t)));
    destruct (Z.leb_spec (2 * tick) (8 * MonitorTick (opts t))); lia.
Qed.

Lemma backOffTick_doubles_capped_witness :
  backOffTick scenario.manager (40 * Second) = 80 * Second.
Proof.
  apply (backOffTick_doubles_capped scenario.manager (40 * Second)).
  - reflexivity.
  - vm_compute. discriminate.
  - vm_compute. split; discriminate.
Defined.

(** C9 as stated fails: a tick of 2^62 nanoseconds is a positive duration,
    twice it exceeds eight times MonitorTick (80 s), and backOffTick returns
    the wrapped double, the least int64, not the cap. *)
Lemma backOffTick_wraps :
  0 < 2 ^ 62 /\ inInt64 (2 ^ 62) /\
  MonitorTick (opts scenario.manager) = 10 * Second /\
  (2 * 2 ^ 62 <=? 8 * MonitorTick (opts scenario.manager)) = false /\
  backOffTick scenario.manager (2 ^ 62) = minInt64 /\
  backOffTick scenario.manager (2 ^ 62) <> 8 * MonitorTick (opts scenario.manager).
Proof.
  split; [reflexivity |].
  split; [vm_compute; split; discriminate |].
  split; [reflexivity |].
  split; [reflexivity |].
  split; [reflexivity |].
  vm_compute. discriminate.
Qed.

(** ** getStatus *)

Lemma getStatus_loop_eq cs hangingExist :
  getStatus_loop cs hangingExist =
    if existsb try_failed cs then None
    else Some (hangingExist || existsb try_pending cs).
Proof.
  revert hangingExist. induction cs as [| c cs IH]; intros h; simpl.
  - now rewrite orb_false_r.
  - unfold try_failed at 1. destruct (bool_decide (TryStatus c = TryFailure)).
    + reflexivity.
    + simpl. rewrite IH. destruct (existsb try_failed cs).
      * reflexivity.
      * unfold try_pending at 2. now rewrite orb_assoc.
Qed.

(** The derivation that [getStatus] computes, rule by rule. *)
Lemma getStatus_eq t cutoff :
  getStatus t cutoff =
    if Before (CreatedAt t) cutoff then TXFailure
    else if existsb try_failed (Components t) then TXFailure
    else if existsb try_pending (Components t) then TXHanging
    else TXSuccessful.
Proof.
  unfold getStatus. rewrite getStatus_loop_eq.
  destruct (Before (CreatedAt t) cutoff); [reflexivity |].
  destruct (existsb try_failed (Components t)); [reflexivity |].
  now destruct (existsb try_pending (Components t)).
Qed.

Lemma getStatus_cases t cutoff :
  getStatus t cutoff = TXFailure \/ getStatus t cutoff = TXHanging
  \/ getStatus t cutoff = TXSuccessful.
Proof.
  rewrite getStatus_eq.
  destruct (Before (CreatedAt t) cutoff); [now left |].
  destruct (existsb try_failed (Components t)); [now left |].
  destruct (existsb try_pending (Components t)); [right; now left | right; now right].
Qed.

Lemma getStatus_successful t cutoff :
  getStatus t cutoff = TXSuccessful ->
  Before (CreatedAt t) cutoff = false /\
  Forall (fun c => TryStatus c = TrySucceesful) (Components t).
Proof.
  rewrite getStatus_eq.
  destruct (Before (CreatedAt t) cutoff); [discriminate |].
  destruct (existsb try_failed (Components t)); [discriminate |].
  destruct (existsb try_pending (Components t)) eqn:Hp; [discriminate |].
  intros _. split; [reflexivity |].
  apply Forall_forall. intros c Hc.
  destruct (decide (TryStatus c = TrySucceesful)) as [Heq | Hne]; [exact Heq |].
  assert (existsb try_pending (Components t) = true) as Hex.
  { apply existsb_exists. exists c. split; [now apply list_elem_of_In |].
    unfold try_pending. now rewrite bool_decide_eq_false_2. }
  congruence.
Qed.

(** C3, as the code has it: for a transaction that is not already
    SUCCESSFUL, getStatus is FAILURE when the transaction was created before
    the cutoff; else FAILURE when some try status is FAILURE; else HANGING
    when some try status is anything but SUCCESSFUL (HANGING, or the empty
    status of a new record); else SUCCESSFUL. *)
Theorem getStatus_derivation (t : Transaction) (cutoff : Time) :
  Status t <> TXSuccessful ->
  getStatus t cutoff =
    if Before (CreatedAt t) cutoff then TXFailure
    else if existsb (fun c => bool_decide (TryStatus c = TryFailure))
                    (Components t) then TXFailure
    else if existsb (fun c => negb (bool_decide (TryStatus c = TrySucceesful)))
                    (Components t) then TXHanging
    else TXSuccessful.
Proof.
  intros _. unfold getStatus. rewrite getStatus_loop_eq.
  fold try_failed. fold try_pending.
  destruct (Before (CreatedAt t) cutoff); [reflexivity |].
  destruct (existsb try_failed (Components t)); [reflexivity |].
  now destruct (existsb try_pending (Components t)).
Qed.

Lemma getStatus_derivation_witness :
  getStatus {| tx_TXID := "tx-1";
               Components := [ {| cte_ComponentID := "A"; TryStatus := TrySucceesful |};
                               {| cte_ComponentID := "B"; TryStatus := TryHanging |} ];
               Status := TXHanging;
               CreatedAt := 10 |} 5 = TXHanging.
Proof.
  apply (getStatus_derivation
           {| tx_TXID := "tx-1";
              Components := [ {| cte_ComponentID := "A"; TryStatus := TrySucceesful |};
                              {| cte_ComponentID := "B"; TryStatus := TryHanging |} ];
              Status := TXHanging;
              CreatedAt := 10 |} 5).
  vm_compute. discriminate.
Defined.

(** C3 as stated fails on the record that NewTransaction builds: its try
    status is empty, which is neither FAILURE nor HANGING, so the stated
    derivation gives SUCCESSFUL where getStatus gives HANGING. *)
Lemma getStatus_new_record_hanging :
  let t := NewTransaction "tx-1" [ {| ce_Request := ∅; Component := scenario.A |} ] in
  Before (CreatedAt t) zeroTime = false /\
  getStatus t zeroTime = TXHanging /\
  getStatus_spec t zeroTime = TXSuccessful /\
  getStatus t zeroTime <> getStatus_spec t zeroTime.
Proof.
  split; [reflexivity |]. split; [reflexivity |]. split; [reflexivity |].
  vm_compute. discriminate.
Qed.

(** C10: a transaction without participants that was not created before
    the cutoff is derived SUCCESSFUL, and advanceProgress then makes no
    participant call and submits it with success = true. *)
Theorem getStatus_no_participants {World} (t : TXManager World) (tx : Transaction) :
  Components tx = [] ->
  (forall cutoff, ~ CreatedAt tx < cutoff -> getStatus tx cutoff = TXSuccessful) /\
  (forall now s,
      ~ CreatedAt tx < Add now (neg64 (Timeout (opts t))) ->
      advanceProgress t now tx s =
        call_TXSubmit t (tx_TXID tx) true s).
Proof.
  intros Hnone.
  assert (Hstatus : forall cutoff, ~ CreatedAt tx < cutoff ->
                                   getStatus tx cutoff = TXSuccessful).
  { intros cutoff Hnot. rewrite getStatus_eq, Hnone. simpl.
    unfold Before. destruct (Z.ltb_spec (CreatedAt tx) cutoff); [lia | reflexivity]. }
  split; [exact Hstatus |].
  intros now s Hnot. unfold advanceProgress.
  rewrite (Hstatus _ Hnot), Hnone. reflexivity.
Qed.

Lemma getStatus_no_participants_witness :
  getStatus {| tx_TXID := "tx-1"; Components := []; Status := TXHanging;
               CreatedAt := 10 |} 10 = TXSuccessful /\
  trace (snd (advanceProgress scenario.manager (10 + 5 * Second)
                {| tx_TXID := "tx-1"; Components := []; Status := TXHanging;
                   CreatedAt := 10 |} scenario.start))
  = [CallTXSubmit "tx-1" true None].
Proof.
  destruct (getStatus_no_participants scenario.manager
              {| tx_TXID := "tx-1"; Components := []; Status := TXHanging;
                 CreatedAt := 10 |} eq_refl) as [Hstatus Hadvance].
  split.
  - apply Hstatus. vm_compute. discriminate.
  - rewrite Hadvance; [reflexivity |]. vm_compute. discriminate.
Defined.

(** ** NewTransaction *)

Lemma fold_left_snoc {A B} (f : A -> B) (l : list A) (acc : list B) :
  fold_left (fun acc x => acc ++ [f x]) l acc = acc ++ map f l.
Proof.
  revert acc. induction l as [| x l IH]; intros acc; simpl.
  - now rewrite app_nil_r.
  - rewrite IH. now rewrite <- app_assoc.
Qed.

Lemma NewTransaction_Components {World} txID (entities : list (ComponentEntity World)) :
  Components (NewTransaction txID entities) =
    map (fun e => {| cte_ComponentID := ID (Component e); TryStatus := "" |})
        entities.
Proof.
  unfold NewTransaction. simpl.
  now rewrite (fold_left_snoc
                 (fun e : ComponentEntity World =>
                    {| cte_ComponentID := ID (Component e); TryStatus := "" |})).
Qed.

(** C6, as the code has it: the record that NewTransaction builds lists the
    participants of the given entities in their order, each with the empty
    try status (the zero value of the type), which is none of HANGING,
    SUCCESSFUL and FAILURE, and its CreatedAt is the zero time.  getStatus
    counts the empty status as not successful: for a cutoff that is not
    after the zero time the new record is derived HANGING when it has a
    participant and SUCCESSFUL when it has none; for every later cutoff it
    is derived FAILURE. *)
Theorem NewTransaction_try_status_empty {World} (txID : string)
    (entities : list (ComponentEntity World)) :
  map cte_ComponentID (Components (NewTransaction txID entities))
    = map (fun e => ID (Component e)) entities /\
  Forall (fun c => TryStatus c = ""
                   /\ TryStatus c <> TryHanging
                   /\ TryStatus c <> TrySucceesful
                   /\ TryStatus c <> TryFailure)
         (Components (NewTransaction txID entities)) /\
  CreatedAt (NewTransaction txID entities) = zeroTime /\
  forall cutoff,
    getStatus (NewTransaction txID entities) cutoff
    = if Before zeroTime cutoff then TXFailure
      else match entities with
           | [] => TXSuccessful
           | _ :: _ => TXHanging
           end.
Proof.
  split; [| split; [| split]].
  - rewrite NewTransaction_Components, map_map. reflexivity.
  - rewrite NewTransaction_Components.
    apply Forall_forall. intros c Hc.
    apply list_elem_of_In, in_map_iff in Hc. destruct Hc as [e [<- _]].
    simpl. split; [reflexivity |]. split; [discriminate |].
    split; discriminate.
  - reflexivity.
  - intros cutoff. rewrite getStatus_eq, NewTransaction_Components.
    change (CreatedAt (NewTransaction txID entities)) with zeroTime.
    destruct (Before zeroTime cutoff); [reflexivity |].
    assert (Hfailed : existsb try_failed
              (map (fun e : ComponentEntity World =>
                      {| cte_ComponentID := ID (Component e); TryStatus := "" |})
                   entities) = false).
    { clear. induction entities as [| e entities IH]; [reflexivity | exact IH]. }
    rewrite Hfailed. destruct entities as [| e entities]; reflexivity.
Qed.

(** X4. A new record with at least one participant is derived HANGING as
    long as it is not timed out. *)
Lemma getStatus_NewTransaction {World} txID (entities : list (ComponentEntity World))
    cutoff :
  entities <> [] -> Before zeroTime cutoff = false ->
  getStatus (NewTransaction txID entities) cutoff = TXHanging.
Proof.
  intros Hne Hnot. rewrite getStatus_eq, NewTransaction_Components.
  change (CreatedAt (NewTransaction txID entities)) with zeroTime. rewrite Hnot.
  assert (Hfailed : existsb try_failed
            (map (fun e : ComponentEntity World =>
                    {| cte_ComponentID := ID (Component e); TryStatus := "" |})
                 entities) = false).
  { clear. induction entities as [| e entities IH]; [reflexivity | exact IH]. }
  rewrite Hfailed.
  destruct entities as [| e entities]; [congruence |]. reflexivity.
Qed.

Lemma getStatus_NewTransaction_witness :
  getStatus (NewTransaction "tx-1"
               [ {| ce_Request := ∅; Component := scenario.A |};
                 {| ce_Request := ∅; Component := scenario.B |} ]) zeroTime
  = TXHanging.
Proof.
  apply (getStatus_NewTransaction "tx-1"
           [ {| ce_Request := ∅; Component := scenario.A |};
             {| ce_Request := ∅; Component := scenario.B |} ] zeroTime).
  - discriminate.
  - reflexivity.
Defined.

(** C6 as stated fails: the try status of the entity that NewTransaction
    builds for participant A is empty, not TryHanging. *)
Lemma NewTransaction_not_TryHanging :
  map TryStatus
      (Components (NewTransaction "tx-1"
                     [ {| ce_Request := ∅; Component := scenario.A |} ]))
    = [""] /\
  TryHanging = "hanging" /\
  Exists (fun c => TryStatus c <> TryHanging)
         (Components (NewTransaction "tx-1"
                        [ {| ce_Request := ∅; Component := scenario.A |} ])).
Proof.
  split; [reflexivity |]. split; [reflexivity |].
  apply Exists_cons_hd. simpl. discriminate.
Qed.

End TxModel.

(** * Properties of the sample participant *)

Module MockProps.
Import component redis_lock pkg example MockNotions.

Lemma client_eq (c : Client) kv' held' :
  kv' = kv c -> held' = held c ->
  {| kv := kv'; held := held'; faults := faults c |} = c.
Proof. intros Hkv Hheld. rewrite Hkv, Hheld. destruct c. reflexivity. Qed.

Lemma release_acquire (key : string) (h : gset string) :
  key ∉ h -> ({[key]} ∪ h) ∖ {[key]} = h.
Proof.
  intros Hfree. apply set_eq. intros x.
  rewrite elem_of_difference, elem_of_union, elem_of_singleton.
  split; [intros [[-> | Hx] Hne]; [congruence | exact Hx] |].
  intros Hx. split; [now right |]. intros ->. contradiction.
Qed.

(** Under [locked], an undisturbed client whose body leaves the lock and
    the fault script alone ends with the lock released again. *)
Lemma locked_undisturbed {A} (key : string) (body : stateM Client (result A))
    (c : Client) (r : result A) (kv' : gmap string string) :
  faults c = [] -> key ∉ held c ->
  (forall h, body {| kv := kv c; held := h; faults := [] |}
             = (r, {| kv := kv'; held := h; faults := [] |})) ->
  locked key body c = (r, {| kv := kv'; held := held c; faults := [] |}).
Proof.
  intros Hfaults Hfree Hbody. destruct c as [k h f]. simpl in *. subst f.
  cbv [locked bind Lock Unlock roundtrip ret]; cbn [faults held kv].
  rewrite bool_decide_eq_false_2 by exact Hfree.
  rewrite Hbody. cbn [faults held kv]. now rewrite release_acquire.
Qed.

Lemma is_ErrNil_ErrNil : is_ErrNil ErrNil = true.
Proof. reflexivity. Qed.

Lemma not_TXConfirmed_empty : bool_decide ("" = TXConfirmed) = false.
Proof. reflexivity. Qed.

Ltac run_client :=
  cbv [bind ret Get Set_ SetNX Del roundtrip check check_unless_ErrNil
       check_if_ErrNil]; cbn [faults held kv].

(** ** Confirm *)

(** C5, as the code has it: when the participant has the transaction on
    record as canceled and the call is not disturbed, Confirm returns a
    response without error, with ack = false, and changes nothing. *)
Theorem Confirm_of_canceled_nacks (m : MockComponent) (txID : string) (c : Client) :
  recorded m txID c = Some TXCanceled ->
  undisturbed m txID c ->
  MockComponent_Confirm m txID c = (Ok (response m txID false), c).
Proof.
  intros Hrec [Hfaults Hfree]. unfold recorded in Hrec.
  unfold MockComponent_Confirm.
  rewrite (locked_undisturbed _ _ c (Ok (response m txID false)) (kv c) Hfaults Hfree).
  - rewrite <- Hfaults. f_equal. now apply client_eq.
  - intros h. run_client. rewrite Hrec. reflexivity.
Qed.

Lemma Confirm_of_canceled_nacks_witness :
  MockComponent_Confirm (NewMockComponent "A") "tx-1"
    {| kv := {[ BuildTXKey "A" "tx-1" := TXCanceled ]}; held := ∅; faults := [] |}
  = (Ok {| ComponentID := "A"; ACK := false; TXID := "tx-1" |},
     {| kv := {[ BuildTXKey "A" "tx-1" := TXCanceled ]}; held := ∅; faults := [] |}).
Proof.
  apply (Confirm_of_canceled_nacks (NewMockComponent "A") "tx-1"
           {| kv := {[ BuildTXKey "A" "tx-1" := TXCanceled ]};
              held := ∅; faults := [] |}).
  - vm_compute. reflexivity.
  - split; [reflexivity |]. apply not_elem_of_empty.
Defined.

(** C5 as stated fails: with the transaction on record as canceled, Confirm
    returns a response (ack = false) and no error. *)
Lemma Confirm_of_canceled_no_error :
  let m := NewMockComponent "A" in
  let c := {| kv := {[ BuildTXKey "A" "tx-1" := TXCanceled ]};
              held := ∅; faults := [] |} in
  recorded m "tx-1" c = Some TXCanceled /\
  fst (MockComponent_Confirm m "tx-1" c)
    = Ok {| ComponentID := "A"; ACK := false; TXID := "tx-1" |} /\
  (forall e, fst (MockComponent_Confirm m "tx-1" c) <> Err e).
Proof.
  split; [vm_compute; reflexivity |].
  split; [vm_compute; reflexivity |].
  intros e. vm_compute. discriminate.
Qed.

(** ** Cancel *)

(** Cancel of a transaction on record as confirmed is an error. *)
Lemma Cancel_of_confirmed_errors (m : MockComponent) (txID : string) (c : Client) :
  recorded m txID c = Some TXConfirmed ->
  undisturbed m txID c ->
  MockComponent_Cancel m txID c
  = (Err ("invalid tx status: confirmed, txid: " +:+ txID), c).
Proof.
  intros Hrec [Hfaults Hfree]. unfold recorded in Hrec.
  unfold MockComponent_Cancel.
  rewrite (locked_undisturbed _ _ c
             (Err ("invalid tx status: confirmed, txid: " +:+ txID))
             (kv c) Hfaults Hfree).
  - rewrite <- Hfaults. f_equal. now apply client_eq.
  - intros h. run_client. rewrite Hrec. reflexivity.
Qed.

(** Cancel of a transaction that is not confirmed and whose detail key is
    absent returns the error of the read of that key, and records nothing. *)
Lemma Cancel_without_detail_errors (m : MockComponent) (txID : string) (c : Client) :
  recorded m txID c <> Some TXConfirmed ->
  kv c !! BuildTXDetailKey (id m) txID = None ->
  undisturbed m txID c ->
  MockComponent_Cancel m txID c = (Err ErrNil, c).
Proof.
  intros Hrec Hdetail [Hfaults Hfree]. unfold recorded in Hrec.
  unfold MockComponent_Cancel.
  rewrite (locked_undisturbed _ _ c (Err ErrNil) (kv c) Hfaults Hfree).
  - rewrite <- Hfaults. f_equal. now apply client_eq.
  - intros h. run_client.
    destruct (kv c !! BuildTXKey (id m) txID) as [v |] eqn:Hv.
    + cbn [faults held kv].
      rewrite (bool_decide_eq_false_2 (v = TXConfirmed))
      by (intros Heq; apply Hrec; rewrite Heq; reflexivity).
      cbn [faults held kv]. rewrite Hdetail. reflexivity.
    + rewrite is_ErrNil_ErrNil. cbn [negb]. rewrite not_TXConfirmed_empty.
      cbn [faults held kv]. rewrite Hdetail. reflexivity.
Qed.

(** Cancel of a transaction that is not confirmed and whose detail key is
    present acknowledges and records the transaction as canceled. *)
Lemma Cancel_with_detail_acks (m : MockComponent) (txID bizID : string)
    (c : Client) :
  recorded m txID c <> Some TXConfirmed ->
  kv c !! BuildTXDetailKey (id m) txID = Some bizID ->
  undisturbed m txID c ->
  MockComponent_Cancel m txID c
  = (Ok (response m txID true),
     {| kv := canceled_kv m txID bizID (kv c); held := held c; faults := [] |}).
Proof.
  intros Hrec Hdetail [Hfaults Hfree]. unfold recorded in Hrec.
  unfold MockComponent_Cancel.
  apply (locked_undisturbed _ _ c (Ok (response m txID true))
           (canceled_kv m txID bizID (kv c)) Hfaults Hfree).
  intros h. run_client. unfold canceled_kv.
  destruct (kv c !! BuildTXKey (id m) txID) as [v |] eqn:Hv.
  - cbn [faults held kv].
    rewrite (bool_decide_eq_false_2 (v = TXConfirmed))
      by (intros Heq; apply Hrec; rewrite Heq; reflexivity).
    cbn [faults held kv]. rewrite Hdetail.
    destruct (bool_decide (bizID = "")); reflexivity.
  - rewrite is_ErrNil_ErrNil. cbn [negb]. rewrite not_TXConfirmed_empty.
    cbn [faults held kv]. rewrite Hdetail.
    destruct (bool_decide (bizID = "")); reflexivity.
Qed.

Lemma recorded_canceled_kv (m : MockComponent) (txID bizID : string)
    (k : gmap string string) (h : gset string) (f : list (option error)) :
  recorded m txID {| kv := canceled_kv m txID bizID k; held := h; faults := f |}
  = Some TXCanceled.
Proof. unfold recorded, canceled_kv. cbn [kv]. apply lookup_insert_eq. Qed.

(** X2. The transitions of Cancel that the code gets right: an error from
    CONFIRMED, and ack = true with the cancellation recorded from any other
    state in which the detail key is present. *)
Lemma Cancel_legal_transitions (m : MockComponent) (txID : string) (c : Client) :
  undisturbed m txID c ->
  (recorded m txID c = Some TXConfirmed ->
   exists e, fst (MockComponent_Cancel m txID c) = Err e) /\
  (recorded m txID c <> Some TXConfirmed ->
   is_Some (kv c !! BuildTXDetailKey (id m) txID) ->
   fst (MockComponent_Cancel m txID c) = Ok (response m txID true) /\
   recorded m txID (snd (MockComponent_Cancel m txID c)) = Some TXCanceled).
Proof.
  intros Hclean. split.
  - intros Hrec. rewrite (Cancel_of_confirmed_errors m txID c Hrec Hclean).
    eexists. reflexivity.
  - intros Hrec [bizID Hdetail].
    rewrite (Cancel_with_detail_acks m txID bizID c Hrec Hdetail Hclean).
    split; [reflexivity |]. apply recorded_canceled_kv.
Qed.

(** C7, at the input on which the code departs from it: a participant that
    has seen nothing of the transaction has no status on record (so not
    CONFIRMED); Cancel returns an error, the one of the read of the absent
    detail key, instead of ack = true, and records no cancellation. *)
Theorem Cancel_before_Try_errors :
  let m := NewMockComponent "A" in
  recorded m "tx-1" fresh_client = None /\
  fst (MockComponent_Cancel m "tx-1" fresh_client) = Err ErrNil /\
  recorded m "tx-1" (snd (MockComponent_Cancel m "tx-1" fresh_client)) = None.
Proof.
  split; [vm_compute; reflexivity |].
  rewrite (Cancel_without_detail_errors (NewMockComponent "A") "tx-1" fresh_client).
  - split; reflexivity.
  - vm_compute. discriminate.
  - vm_compute. reflexivity.
  - split; [reflexivity |]. apply not_elem_of_empty.
Qed.

(** ** Try after Cancel *)

(** Try of a transaction on record as canceled is refused. *)
Lemma Try_of_canceled_nacks (m : MockComponent) (req : TCCReq) (c : Client) :
  recorded m (req_TXID req) c = Some TXCanceled ->
  undisturbed m (req_TXID req) c ->
  MockComponent_Try m req c = (Ok (response m (req_TXID req) false), c).
Proof.
  intros Hrec [Hfaults Hfree]. unfold recorded in Hrec.
  unfold MockComponent_Try.
  rewrite (locked_undisturbed _ _ c (Ok (response m (req_TXID req) false))
             (kv c) Hfaults Hfree).
  - rewrite <- Hfaults. f_equal. now apply client_eq.
  - intros h. run_client. rewrite Hrec. reflexivity.
Qed.

(** X1. The tombstone: when Cancel acknowledges, a later Try of the same
    transaction is refused. *)
Lemma Try_after_acked_Cancel_nacks (m : MockComponent) (req : TCCReq)
    (c : Client) (resp : TCCResp) :
  undisturbed m (req_TXID req) c ->
  fst (MockComponent_Cancel m (req_TXID req) c) = Ok resp ->
  fst (MockComponent_Try m req (snd (MockComponent_Cancel m (req_TXID req) c)))
  = Ok (response m (req_TXID req) false).
Proof.
  intros Hclean Hack.
  destruct (decide (recorded m (req_TXID req) c = Some TXConfirmed)) as [Hc | Hc].
  { rewrite (Cancel_of_confirmed_errors m _ c Hc Hclean) in Hack. discriminate. }
  destruct (kv c !! BuildTXDetailKey (id m) (req_TXID req)) as [bizID |] eqn:Hd.
  - rewrite (Cancel_with_detail_acks m _ bizID c Hc Hd Hclean). cbn [snd].
    rewrite Try_of_canceled_nacks; [reflexivity | apply recorded_canceled_kv |].
    destruct Hclean as [_ Hfree]. split; [reflexivity | exact Hfree].
  - rewrite (Cancel_without_detail_errors m _ c Hc Hd Hclean) in Hack.
    discriminate.
Qed.

(** A participant that has served the Try of tx-1. *)
Lemma Try_on_fresh_client :
  MockComponent_Try (NewMockComponent "A")
    {| req_ComponentID := "A"; req_TXID := "tx-1";
       Data := {[ "biz_id" := "order-7" ]} |} fresh_client
  = (Ok {| ComponentID := "A"; ACK := true; TXID := "tx-1" |},
     {| kv := {[ BuildTXDetailKey "A" "tx-1" := "order-7";
                 BuildDataKey "A" "tx-1" "order-7" := DataFrozen;
                 BuildTXKey "A" "tx-1" := TXTried ]};
        held := ∅; faults := [] |}).
Proof. vm_compute. reflexivity. Qed.

Lemma Try_after_acked_Cancel_nacks_witness :
  let m := NewMockComponent "A" in
  let req := {| req_ComponentID := "A"; req_TXID := "tx-1";
                Data := {[ "biz_id" := "order-7" ]} |} in
  let c := snd (MockComponent_Try m req fresh_client) in
  fst (MockComponent_Try m req (snd (MockComponent_Cancel m "tx-1" c)))
  = Ok {| ComponentID := "A"; ACK := false; TXID := "tx-1" |}.
Proof.
  cbv zeta.
  apply (Try_after_acked_Cancel_nacks (NewMockComponent "A")
           {| req_ComponentID := "A"; req_TXID := "tx-1";
              Data := {[ "biz_id" := "order-7" ]} |}
           (snd (MockComponent_Try (NewMockComponent "A")
                   {| req_ComponentID := "A"; req_TXID := "tx-1";
                      Data := {[ "biz_id" := "order-7" ]} |} fresh_client))
           {| ComponentID := "A"; ACK := true; TXID := "tx-1" |}).
  - split; [vm_compute; reflexivity |]. vm_compute. discriminate.
  - vm_compute. reflexivity.
Defined.

Lemma Cancel_legal_transitions_witness :
  let m := NewMockComponent "A" in
  let confirmed := {| kv := {[ BuildTXKey "A" "tx-1" := TXConfirmed ]};
                      held := ∅; faults := [] |} in
  let tried := {| kv := {[ BuildTXDetailKey "A" "tx-1" := "order-7";
                           BuildDataKey "A" "tx-1" "order-7" := DataFrozen;
                           BuildTXKey "A" "tx-1" := TXTried ]};
                  held := ∅; faults := [] |} in
  (exists e, fst (MockComponent_Cancel m "tx-1" confirmed) = Err e) /\
  fst (MockComponent_Cancel m "tx-1" tried) = Ok (response m "tx-1" true) /\
  recorded m "tx-1" (snd (MockComponent_Cancel m "tx-1" tried)) = Some TXCanceled.
Proof.
  cbv zeta. split.
  - apply (Cancel_legal_transitions (NewMockComponent "A") "tx-1"
             {| kv := {[ BuildTXKey "A" "tx-1" := TXConfirmed ]};
                held := ∅; faults := [] |}).
    + split; [reflexivity |]. vm_compute. discriminate.
    + vm_compute. reflexivity.
  - apply (Cancel_legal_transitions (NewMockComponent "A") "tx-1"
             {| kv := {[ BuildTXDetailKey "A" "tx-1" := "order-7";
                         BuildDataKey "A" "tx-1" "order-7" := DataFrozen;
                         BuildTXKey "A" "tx-1" := TXTried ]};
                held := ∅; faults := [] |}).
    + split; [reflexivity |]. vm_compute. discriminate.
    + vm_compute. discriminate.
    + exists "order-7". vm_compute. reflexivity.
Defined.

(** C8, at the input on which the code departs from it: on a participant
    that has seen nothing of the transaction, Cancel fails without leaving
    a tombstone, and the Try that follows is accepted with ack = true. *)
Theorem Try_after_Cancel_before_Try_acks :
  let m := NewMockComponent "A" in
  let req := {| req_ComponentID := "A"; req_TXID := "tx-1";
                Data := {[ "biz_id" := "order-7" ]} |} in
  let c := snd (MockComponent_Cancel m "tx-1" fresh_client) in
  c = fresh_client /\
  fst (MockComponent_Try m req c)
  = Ok {| ComponentID := "A"; ACK := true; TXID := "tx-1" |}.
Proof.
  split; vm_compute; reflexivity.
Qed.

(** What the defect of Cancel does to recovery: a transaction whose Try
    never reached participant A times out; advanceProgress chooses Cancel,
    the participant answers the error, and the advance stops without
    TXSubmit, leaving the participant as it was, so every later tick meets
    the same error. *)
Example advanceProgress_Cancel_before_Try :
  txmanager.advanceProgress scenario.redis_manager (60 * Second)
    {| txmanager.tx_TXID := "tx-1";
       txmanager.Components :=
         [ {| txmanager.cte_ComponentID := "A";
              txmanager.TryStatus := txmanager.TryHanging |} ];
       txmanager.Status := txmanager.TXHanging;
       txmanager.CreatedAt := 0 |}
    {| txmanager.world := fresh_client; txmanager.trace := [] |}
  = (Some ErrNil,
     {| txmanager.world := fresh_client;
        txmanager.trace := [ txmanager.CallCancel "A" "tx-1" (Err ErrNil) ] |}).
Proof. vm_compute. reflexivity. Qed.

End MockProps.

(** * Properties of the coordinator *)

Module Coordinator.
Import component txmanager Notions.

Lemma elem_of_map {A B} (f : A -> B) (l : list A) (y : B) :
  y ∈ map f l <-> exists x, y = f x /\ x ∈ l.
Proof.
  rewrite list_elem_of_In, in_map_iff. split.
  - intros [x [Hx Hin]]. exists x. split; [now symmetry | now apply list_elem_of_In].
  - intros [x [Hx Hin]]. exists x. split; [now symmetry | now apply list_elem_of_In].
Qed.

(** ** Validation of the request set *)

Section Validation.
Context {World : Type}.
Implicit Types (t : TXManager World) (r : registryCenter World)
  (reqs : list RequestEntity) (idToReq : gmap string RequestEntity)
  (ids : list string).

Lemma getComponents_dedup_Err reqs idToReq ids e :
  getComponents_dedup reqs idToReq ids = Err e ->
  exists id, id ∈ map re_ComponentID reqs /\ e = "repeat component: " +:+ id.
Proof.
  revert idToReq ids. induction reqs as [| req reqs IH]; intros m ids H; simpl in H.
  - discriminate.
  - destruct (m !! re_ComponentID req) eqn:Hm.
    + injection H as <-. exists (re_ComponentID req). split; [| reflexivity].
      simpl. apply list_elem_of_here.
    + destruct (IH _ _ H) as [id' [Hin ->]]. exists id'. split; [| reflexivity].
      simpl. now apply list_elem_of_further.
Qed.

Lemma getComponents_dedup_Ok reqs idToReq ids idToReq' ids' :
  getComponents_dedup reqs idToReq ids = Ok (idToReq', ids') ->
  NoDup (map re_ComponentID reqs) /\
  (forall req, req ∈ reqs -> idToReq !! re_ComponentID req = None) /\
  ids' = ids ++ map re_ComponentID reqs /\
  (forall req, req ∈ reqs -> idToReq' !! re_ComponentID req = Some req) /\
  (forall k, k ∉ map re_ComponentID reqs -> idToReq' !! k = idToReq !! k).
Proof.
  revert idToReq ids. induction reqs as [| req reqs IH]; intros m ids H; simpl in H.
  - injection H as <- <-. repeat split.
    + constructor.
    + intros req Hin. inversion Hin.
    + now rewrite app_nil_r.
    + intros req Hin. inversion Hin.
  - destruct (m !! re_ComponentID req) eqn:Hm; [discriminate |].
    destruct (IH _ _ H) as (Hnodup & Hfree & -> & Hfound & Hother).
    assert (Hfresh : re_ComponentID req ∉ map re_ComponentID reqs).
    { intros Hin. apply elem_of_map in Hin. destruct Hin as [req' [Heq Hin]].
      specialize (Hfree req' Hin). rewrite <- Heq in Hfree.
      rewrite lookup_insert_eq in Hfree. discriminate. }
    repeat split.
    + simpl. constructor; assumption.
    + intros req' Hin. apply elem_of_cons in Hin. destruct Hin as [-> | Hin].
      * exact Hm.
      * specialize (Hfree req' Hin).
        destruct (decide (re_ComponentID req = re_ComponentID req')) as [Heq | Hne].
        -- rewrite Heq, lookup_insert_eq in Hfree. discriminate.
        -- now rewrite lookup_insert_ne in Hfree.
    + simpl. now rewrite <- app_assoc.
    + intros req' Hin. apply elem_of_cons in Hin. destruct Hin as [-> | Hin].
      * rewrite Hother by exact Hfresh. apply lookup_insert_eq.
      * now apply Hfound.
    + intros k Hk. simpl in Hk. apply not_elem_of_cons in Hk. destruct Hk as [Hne Hk].
      rewrite Hother by exact Hk. now apply lookup_insert_ne.
Qed.

Lemma getComponents_dedup_NoDup reqs idToReq ids :
  NoDup (map re_ComponentID reqs) ->
  (forall req, req ∈ reqs -> idToReq !! re_ComponentID req = None) ->
  exists idToReq',
    getComponents_dedup reqs idToReq ids
    = Ok (idToReq', ids ++ map re_ComponentID reqs).
Proof.
  revert idToReq ids. induction reqs as [| req reqs IH]; intros m ids Hnodup Hfree.
  - exists m. simpl. now rewrite app_nil_r.
  - simpl in *. apply NoDup_cons in Hnodup. destruct Hnodup as [Hfresh Hnodup].
    rewrite (Hfree req) by apply list_elem_of_here.
    destruct (IH (<[re_ComponentID req := req]> m) (ids ++ [re_ComponentID req])
                Hnodup) as [m' Hm'].
    + intros req' Hin. rewrite lookup_insert_ne.
      * apply Hfree. now apply list_elem_of_further.
      * intros Heq. apply Hfresh. rewrite Heq.
        apply elem_of_map. now exists req'.
    + exists m'. rewrite Hm'. now rewrite <- app_assoc.
Qed.

Lemma registryCenter_getComponents_loop_Err r ids acc e :
  registryCenter_getComponents_loop r ids acc = Err e ->
  exists id, id ∈ ids /\ components r !! id = None
             /\ e = "component id: " +:+ id +:+ " not existed".
Proof.
  revert acc. induction ids as [| id ids IH]; intros acc H; simpl in H.
  - discriminate.
  - destruct (components r !! id) as [c |] eqn:Hc.
    + destruct (IH _ H) as [id' (Hin & Hnone & ->)].
      exists id'. repeat split; [now apply list_elem_of_further | exact Hnone].
    + injection H as <-. exists id. repeat split; [apply list_elem_of_here | exact Hc].
Qed.

Lemma registryCenter_getComponents_loop_Ok r ids acc cs :
  registryCenter_getComponents_loop r ids acc = Ok cs ->
  exists cs', cs = acc ++ cs' /\
              Forall2 (fun id c => components r !! id = Some c) ids cs'.
Proof.
  revert acc. induction ids as [| id ids IH]; intros acc H; simpl in H.
  - injection H as <-. exists []. split; [now rewrite app_nil_r | constructor].
  - destruct (components r !! id) as [c |] eqn:Hc; [| discriminate].
    destruct (IH _ H) as [cs' [-> Hall]]. exists (c :: cs'). split.
    + now rewrite <- app_assoc.
    + now constructor.
Qed.

Lemma registryCenter_getComponents_Ok r ids cs :
  registryCenter_getComponents r ids = Ok cs ->
  Forall2 (fun id c => components r !! id = Some c) ids cs.
Proof.
  intros H. apply registryCenter_getComponents_loop_Ok in H.
  destruct H as [cs' [-> Hall]]. exact Hall.
Qed.

Lemma registryCenter_getComponents_missing r ids id :
  id ∈ ids -> components r !! id = None ->
  exists e, registryCenter_getComponents r ids = Err e.
Proof.
  intros Hin Hnone.
  destruct (registryCenter_getComponents r ids) as [cs | e] eqn:H; [| now exists e].
  apply registryCenter_getComponents_Ok in H.
  apply list_elem_of_lookup in Hin. destruct Hin as [i Hi].
  destruct (Forall2_lookup_l _ _ _ _ _ H Hi) as [c [_ Hc]]. congruence.
Qed.

(** What [getComponents] answers on a request set that is not valid. *)
Lemma getComponents_invalid t reqs :
  reqs = [] \/ ~ NoDup (map re_ComponentID reqs)
  \/ (exists req, req ∈ reqs /\ components (registry t) !! re_ComponentID req = None) ->
  exists err,
    getComponents t reqs = Ret (Err err) /\
    (reqs = [] -> err = "emtpy task") /\
    (reqs <> [] -> ~ NoDup (map re_ComponentID reqs) ->
     exists id, id ∈ map re_ComponentID reqs /\ err = "repeat component: " +:+ id) /\
    (reqs <> [] -> NoDup (map re_ComponentID reqs) ->
     exists id, id ∈ map re_ComponentID reqs
                /\ components (registry t) !! id = None
                /\ err = "component id: " +:+ id +:+ " not existed").
Proof.
  intros Hbad. unfold getComponents.
  destruct (decide (reqs = [])) as [-> | Hne].
  { exists "emtpy task". simpl. repeat split; congruence. }
  assert (Hlen : bool_decide (length reqs = 0%nat) = false).
  { apply bool_decide_eq_false_2. destruct reqs; [congruence | discriminate]. }
  rewrite Hlen.
  destruct (getComponents_dedup reqs ∅ []) as [[idToReq ids] | e] eqn:Hdedup.
  - apply getComponents_dedup_Ok in Hdedup.
    destruct Hdedup as (Hnodup & _ & Hids & _ & _). rewrite app_nil_l in Hids.
    subst ids.
    destruct Hbad as [Hnil | [Hdup | [req [Hin Hnone]]]];
      [contradiction | contradiction |].
    destruct (registryCenter_getComponents_missing (registry t)
                (map re_ComponentID reqs) (re_ComponentID req)) as [e He];
      [apply elem_of_map; now exists req | exact Hnone |].
    rewrite He. exists e. split; [reflexivity |].
    split; [contradiction |]. split; [contradiction |].
    intros _ _. now apply registryCenter_getComponents_loop_Err in He.
  - exists e. split; [reflexivity |].
    split; [contradiction |]. split.
    + intros _ _. now apply getComponents_dedup_Err in Hdedup.
    + intros _ Hnodup.
      destruct (getComponents_dedup_NoDup reqs ∅ [] Hnodup) as [m' Hm'].
      * intros req _. apply lookup_empty.
      * congruence.
Qed.

End Validation.

(** C4: when the request set is empty, names a participant twice, or names
    a participant that is not registered, Transaction returns false with
    the validation error of that case, and leaves the world and the list of
    calls as they were: no call to the store (no CreateTX) and no call to a
    participant is made. *)
Theorem Transaction_validates_first {World} (t : TXManager World)
    (sched : list nat) (reqs : list RequestEntity) (s : State World) :
  reqs = [] \/ ~ NoDup (map re_ComponentID reqs)
  \/ (exists req, req ∈ reqs /\ components (registry t) !! re_ComponentID req = None) ->
  exists err,
    TXManager_Transaction t sched reqs s = (Ret (false, Some err), s) /\
    (reqs = [] -> err = "emtpy task") /\
    (reqs <> [] -> ~ NoDup (map re_ComponentID reqs) ->
     exists id, id ∈ map re_ComponentID reqs /\ err = "repeat component: " +:+ id) /\
    (reqs <> [] -> NoDup (map re_ComponentID reqs) ->
     exists id, id ∈ map re_ComponentID reqs
                /\ components (registry t) !! id = None
                /\ err = "component id: " +:+ id +:+ " not existed").
Proof.
  intros Hbad. destruct (getComponents_invalid t reqs Hbad) as [err [Hget Hkind]].
  exists err. split; [| exact Hkind].
  unfold TXManager_Transaction. rewrite Hget. reflexivity.
Qed.

Lemma Transaction_validates_first_witness :
  (exists err,
      TXManager_Transaction scenario.manager [0%nat; 1%nat]
        [ {| re_ComponentID := "A"; Request := ∅ |};
          {| re_ComponentID := "A"; Request := ∅ |} ] scenario.start
      = (Ret (false, Some err), scenario.start)) /\
  (exists err,
      TXManager_Transaction scenario.manager [0%nat; 1%nat]
        [ {| re_ComponentID := "A"; Request := ∅ |};
          {| re_ComponentID := "C"; Request := ∅ |} ] scenario.start
      = (Ret (false, Some err), scenario.start)).
Proof.
  split.
  - destruct (Transaction_validates_first scenario.manager [0%nat; 1%nat]
                [ {| re_ComponentID := "A"; Request := ∅ |};
                  {| re_ComponentID := "A"; Request := ∅ |} ] scenario.start)
      as [err [Hrun _]].
    + right. left. intros Hnodup. simpl in Hnodup.
      apply NoDup_cons in Hnodup. destruct Hnodup as [Hfresh _].
      apply Hfresh. apply list_elem_of_here.
    + exists err. exact Hrun.
  - destruct (Transaction_validates_first scenario.manager [0%nat; 1%nat]
                [ {| re_ComponentID := "A"; Request := ∅ |};
                  {| re_ComponentID := "C"; Request := ∅ |} ] scenario.start)
      as [err [Hrun _]].
    + right. right. exists {| re_ComponentID := "C"; Request := ∅ |}. split.
      * apply list_elem_of_further, list_elem_of_here.
      * vm_compute. reflexivity.
    + exists err. exact Hrun.
Defined.

(** ** Phase 2 *)

Section Phase2.
Context {World : Type}.
Implicit Types (t : TXManager World) (s : State World).

Lemma call_trace {A} (f : World -> A * World) (ev : A -> Event) s :
  trace (snd (call f ev s)) = trace s ++ [ev (fst (call f ev s))].
Proof. unfold call. destruct (f (world s)). reflexivity. Qed.

Lemma confirmOrCancel_trace success txID id (c : TCCComponent World) s :
  trace (snd (confirmOrCancel success txID id c s))
  = trace s ++ [ (if success then CallConfirm id txID else CallCancel id txID)
                   (fst (confirmOrCancel success txID id c s)) ].
Proof.
  unfold confirmOrCancel, call_Confirm, call_Cancel.
  destruct success; apply call_trace.
Qed.

Lemma registryCenter_getComponents_one (r : registryCenter World) id :
  registryCenter_getComponents r [id] =
    match components r !! id with
    | Some c => Ok [c]
    | None => Err ("component id: " +:+ id +:+ " not existed")
    end.
Proof.
  unfold registryCenter_getComponents. simpl.
  now destruct (components r !! id).
Qed.

(** The calls of the loop, in the order of the record; when the loop runs
    to its end every participant was called and acknowledged. *)
Lemma advanceProgress_loop_trace t success txID cs s :
  exists rs : list (result TCCResp),
    trace (snd (advanceProgress_loop t success txID cs s))
    = trace s ++ zip_with (phase2_call success txID) cs rs /\
    (length rs <= length cs)%nat /\
    (fst (advanceProgress_loop t success txID cs s) = None ->
     length rs = length cs /\ Forall (fun r => acked r = true) rs).
Proof.
  revert s. induction cs as [| c cs IH]; intros s.
  - exists []. simpl. rewrite app_nil_r. repeat split; constructor.
  - simpl. rewrite registryCenter_getComponents_one.
    destruct (components (registry t) !! cte_ComponentID c) as [c0 |].
    + unfold bind.
      pose proof (confirmOrCancel_trace success txID (cte_ComponentID c) c0 s) as Hcall.
      destruct (confirmOrCancel success txID (cte_ComponentID c) c0 s) as [r s1].
      simpl in Hcall.
      assert (Hev : (if success then CallConfirm (cte_ComponentID c) txID
                     else CallCancel (cte_ComponentID c) txID) r
                    = phase2_call success txID c r).
      { unfold phase2_call. now destruct success. }
      rewrite Hev in Hcall.
      destruct r as [resp | e].
      * destruct (ACK resp) eqn:Hack; simpl.
        -- destruct (IH s1) as [rs (Htrace & Hlen & Hdone)].
           exists (Ok resp :: rs). simpl. rewrite Htrace, Hcall, <- app_assoc.
           split; [reflexivity |]. split; [lia |].
           intros Hnone. destruct (Hdone Hnone) as [Hall Hacked].
           split; [lia |]. constructor; [exact Hack | exact Hacked].
        -- exists [Ok resp]. simpl. rewrite Hcall.
           destruct cs; (split; [reflexivity |]); (split; [simpl; lia |]);
             discriminate.
      * exists [Err e]. simpl. rewrite Hcall.
        destruct cs; (split; [reflexivity |]); (split; [simpl; lia |]);
          discriminate.
    + exists []. simpl. rewrite app_nil_r.
      split; [reflexivity |]. split; [lia |]. discriminate.
Qed.

Lemma genuine_app t (w w1 w2 : World) (a b : list Event) :
  genuine t w a w1 -> genuine t w1 b w2 -> genuine t w (a ++ b) w2.
Proof.
  revert w. induction a as [| e a IH]; intros w; simpl.
  - now intros ->.
  - intros [w0 [He Ha]] Hb. exists w0. split; [exact He | now apply IH].
Qed.

Lemma confirmOrCancel_performs t success txID (c : ComponentTryEntity)
    (c0 : TCCComponent World) s :
  components (registry t) !! cte_ComponentID c = Some c0 ->
  trace (snd (confirmOrCancel success txID (cte_ComponentID c) c0 s))
  = trace s ++ [phase2_call success txID c
                  (fst (confirmOrCancel success txID (cte_ComponentID c) c0 s))] /\
  performs t (world s)
    (phase2_call success txID c
       (fst (confirmOrCancel success txID (cte_ComponentID c) c0 s)))
    (world (snd (confirmOrCancel success txID (cte_ComponentID c) c0 s))).
Proof.
  intros Hc0.
  unfold confirmOrCancel, call_Confirm, call_Cancel, call, phase2_call.
  destruct success.
  - destruct (Confirm c0 txID (world s)) as [r w1] eqn:Hcall. simpl.
    split; [reflexivity |]. now exists c0.
  - destruct (Cancel c0 txID (world s)) as [r w1] eqn:Hcall. simpl.
    split; [reflexivity |]. now exists c0.
Qed.

(** The loop of [advanceProgress], in full: the calls it makes are the
    calls of the chosen operation on the registered participants, in the
    stored order; it runs to the end when all of them acknowledge, and
    stops at the first answer that is not an acknowledgement, or before the
    first participant that is not registered. *)
Lemma advanceProgress_loop_complete t success txID cs s :
  let r := advanceProgress_loop t success txID cs s in
  exists rs : list (result TCCResp),
    trace (snd r) = trace s ++ zip_with (phase2_call success txID) cs rs /\
    genuine t (world s) (zip_with (phase2_call success txID) cs rs)
      (world (snd r)) /\
    (fst r = None /\ length rs = length cs
       /\ Forall (fun a => acked a = true) rs
     \/ (exists rs0 a c,
           rs = rs0 ++ [a] /\ Forall (fun a => acked a = true) rs0 /\
           acked a = false /\ cs !! length rs0 = Some c /\
           fst r = Some (phase2_error c a))
     \/ (Forall (fun a => acked a = true) rs /\
         fst r = Some "get tcc component failed" /\
         exists c, cs !! length rs = Some c /\
                   components (registry t) !! cte_ComponentID c = None)).
Proof.
  cbv zeta. revert s. induction cs as [| c cs IH]; intros s.
  - exists []. simpl. rewrite app_nil_r. split; [reflexivity |].
    split; [reflexivity |]. left. split; [reflexivity |].
    split; [reflexivity | constructor].
  - simpl. rewrite registryCenter_getComponents_one.
    destruct (components (registry t) !! cte_ComponentID c) as [c0 |] eqn:Hc0.
    + unfold bind.
      destruct (confirmOrCancel_performs t success txID c c0 s Hc0) as [Hcall Hperf].
      destruct (confirmOrCancel success txID (cte_ComponentID c) c0 s) as [a s1].
      cbn [fst snd] in Hcall, Hperf.
      destruct a as [resp | e].
      * destruct (ACK resp) eqn:Hack; simpl.
        -- destruct (IH s1) as [rs (Htrace & Hgen & Hend)].
           exists (Ok resp :: rs). simpl. rewrite Htrace, Hcall, <- app_assoc.
           split; [reflexivity |].
           split; [exists (world s1); split; [exact Hperf | exact Hgen] |].
           destruct Hend as [(Hnone & Hlen & Hacked)
                            | [(rs0 & a & c' & -> & Hacked & Ha & Hc' & Herr)
                              | (Hacked & Herr & c' & Hc' & Hmiss)]].
           ++ left. split; [exact Hnone |]. split; [now rewrite Hlen |].
              constructor; [exact Hack | exact Hacked].
           ++ right; left. exists (Ok resp :: rs0), a, c'.
              split; [reflexivity |].
              split; [constructor; [exact Hack | exact Hacked] |].
              split; [exact Ha |]. split; [exact Hc' | exact Herr].
           ++ right; right. split; [constructor; [exact Hack | exact Hacked] |].
              split; [exact Herr |]. exists c'. split; [exact Hc' | exact Hmiss].
        -- exists [Ok resp]. simpl. rewrite Hcall.
           replace (zip_with (phase2_call success txID) cs []) with (@nil Event)
             by (now destruct cs).
           split; [reflexivity |].
           split; [exists (world s1); split; [exact Hperf | reflexivity] |].
           right; left. exists [], (Ok resp), c.
           split; [reflexivity |]. split; [constructor |].
           split; [exact Hack |]. split; reflexivity.
      * exists [Err e]. simpl. rewrite Hcall.
        replace (zip_with (phase2_call success txID) cs []) with (@nil Event)
          by (now destruct cs).
        split; [reflexivity |].
        split; [exists (world s1); split; [exact Hperf | reflexivity] |].
        right; left. exists [], (Err e), c.
        split; [reflexivity |]. split; [constructor |].
        split; [reflexivity |]. split; reflexivity.
    + exists []. simpl. rewrite app_nil_r. split; [reflexivity |].
      split; [reflexivity |]. right; right. split; [constructor |].
      split; [reflexivity |]. exists c. split; [reflexivity | exact Hc0].
Qed.

End Phase2.

(** C2: advanceProgress calls the phase-2 operation chosen from the derived
    status, Confirm when it is SUCCESSFUL and Cancel when it is FAILURE, on
    the participants of the record in their stored order, each call being
    the call of that operation on the participant registered under the
    stored ID.  When every participant is called and answers ack = true
    without error, TXSubmit is called next, once, with
    success = (status is SUCCESSFUL), and its answer is returned.  The
    advance stops short of that only at the first call that answers an
    error or ack = false, or before the first participant that is not
    registered; it then returns an error and makes no TXSubmit.  A HANGING
    record is left alone.  And success = true only when every try status
    of the record is SUCCESSFUL. *)
Theorem advanceProgress_phase2 {World} (t : TXManager World) (now : Time)
    (tx : Transaction) (s : State World) :
  let status := getStatus tx (Add now (neg64 (Timeout (opts t)))) in
  let success := bool_decide (status = TXSuccessful) in
  let cs := Components tx in
  let err := fst (advanceProgress t now tx s) in
  let s' := snd (advanceProgress t now tx s) in
  (status = TXHanging -> err = None /\ s' = s) /\
  (success = true -> Forall (fun c => TryStatus c = TrySucceesful) cs) /\
  (status <> TXHanging ->
   (status = TXSuccessful \/ status = TXFailure) /\
   exists (rs : list (result TCCResp)) (submit : list Event),
     trace s' = trace s
                ++ zip_with (phase2_call success (tx_TXID tx)) cs rs
                ++ submit /\
     genuine t (world s)
       (zip_with (phase2_call success (tx_TXID tx)) cs rs ++ submit)
       (world s') /\
     (length rs = length cs
        /\ Forall (fun a => acked a = true) rs
        /\ submit = [CallTXSubmit (tx_TXID tx) success err]
      \/ (submit = [] /\
          exists rs0 a c,
            rs = rs0 ++ [a] /\ Forall (fun a => acked a = true) rs0 /\
            acked a = false /\ cs !! length rs0 = Some c /\
            err = Some (phase2_error c a))
      \/ (submit = [] /\
          Forall (fun a => acked a = true) rs /\
          err = Some "get tcc component failed" /\
          exists c, cs !! length rs = Some c /\
                    components (registry t) !! cte_ComponentID c = None))).
Proof.
  cbv zeta. unfold advanceProgress.
  set (status := getStatus tx (Add now (neg64 (Timeout (opts t))))).
  split; [| split].
  - intros Hhang. rewrite bool_decide_eq_true_2 by exact Hhang.
    split; reflexivity.
  - intros Hsuccess. apply bool_decide_eq_true_1 in Hsuccess.
    now apply (TxModel.getStatus_successful tx _ Hsuccess).
  - intros Hnot. rewrite bool_decide_eq_false_2 by exact Hnot.
    split.
    { destruct (TxModel.getStatus_cases tx (Add now (neg64 (Timeout (opts t)))))
        as [H | [H | H]]; fold status in H; [now right | contradiction | now left]. }
    unfold bind.
    destruct (advanceProgress_loop_complete t (bool_decide (status = TXSuccessful))
                (tx_TXID tx) (Components tx) s) as [rs (Htrace & Hgen & Hend)].
    destruct (advanceProgress_loop t (bool_decide (status = TXSuccessful))
                (tx_TXID tx) (Components tx) s) as [e s1]. cbn [fst snd] in *.
    destruct Hend as [(-> & Hlen & Hacked)
                     | [(rs0 & a & c & -> & Hacked & Ha & Hc & ->)
                       | (Hacked & -> & c & Hc & Hmiss)]].
    + unfold call_TXSubmit, call.
      destruct (TXSubmit (txStore t) (tx_TXID tx)
                  (bool_decide (status = TXSuccessful)) (world s1))
        as [r w2] eqn:Hsubmit. cbn [fst snd trace world].
      exists rs, [CallTXSubmit (tx_TXID tx) (bool_decide (status = TXSuccessful)) r].
      split; [now rewrite Htrace, <- app_assoc |].
      split.
      { apply (genuine_app t _ (world s1)); [exact Hgen |].
        exists w2. split; [exact Hsubmit | reflexivity]. }
      left. split; [exact Hlen |]. split; [exact Hacked | reflexivity].
    + exists (rs0 ++ [a]), []. rewrite app_nil_r. cbn [fst snd ret].
      split; [exact Htrace |]. split; [exact Hgen |].
      right; left. split; [reflexivity |]. exists rs0, a, c.
      split; [reflexivity |]. split; [exact Hacked |].
      split; [exact Ha |]. split; [exact Hc | reflexivity].
    + exists rs, []. rewrite app_nil_r. cbn [fst snd ret].
      split; [exact Htrace |]. split; [exact Hgen |].
      right; right. split; [reflexivity |]. split; [exact Hacked |].
      split; [reflexivity |]. exists c. split; [exact Hc | exact Hmiss].
Qed.

(** ** Phase 1 *)

Section Phase1.
Context {World : Type}.
Implicit Types (t : TXManager World) (s : State World) (w : worker World)
  (ws : list (worker World)) (evs : list Event).

Lemma accounted_app txID evs new w :
  accounted txID evs w -> accounted txID (evs ++ new) w.
Proof.
  unfold accounted, tried, logged.
  destruct (at_point w) as [| [|] | |]; try tauto.
  - intros (req & resp & H1 & H2 & H3). exists req, resp.
    rewrite elem_of_app. tauto.
  - intros [(req & resp & H1 & H2 & H3) H4]. split.
    + exists req, resp. rewrite elem_of_app. tauto.
    + rewrite elem_of_app. tauto.
Qed.

(** One step of a goroutine: the calls it adds, and what they mean for the
    point it reaches. *)
Lemma worker_step_spec t txID w s :
  exists new,
    trace (snd (worker_step t txID w s)) = trace s ++ new /\
    entity (fst (worker_step t txID w s)) = entity w /\
    (failed w = true -> failed (fst (worker_step t txID w s)) = true) /\
    (Forall (fun e => phase1_failure e = false) new
     \/ failed (fst (worker_step t txID w s)) = true) /\
    (forall evs, accounted txID evs w ->
                 accounted txID (evs ++ new) (fst (worker_step t txID w s))).
Proof.
  unfold worker_step, failed, accounted.
  destruct (at_point w) as [| [|] | e |] eqn:Hat.
  - (* Try *)
    unfold bind, call_Try.
    set (req := {| req_ComponentID := ID (Component (entity w));
                   req_TXID := txID; Data := ce_Request (entity w) |}).
    pose proof (call_trace (Try (Component (entity w)) req)
                  (CallTry (ID (Component (entity w))) req) s) as Hcall.
    destruct (call (Try (Component (entity w)) req)
                (CallTry (ID (Component (entity w))) req) s) as [r s1].
    simpl in Hcall. exists [CallTry (ID (Component (entity w))) req r].
    destruct r as [resp | err]; [destruct (ACK resp) eqn:Hack |]; simpl.
    + split; [exact Hcall |]. split; [reflexivity |]. split; [discriminate |].
      split.
      * left. constructor; [| constructor]. simpl. now rewrite Hack.
      * intros evs _. exists req, resp. split; [reflexivity |].
        split; [exact Hack |]. rewrite elem_of_app. right. apply list_elem_of_here.
    + split; [exact Hcall |]. repeat split; auto.
    + split; [exact Hcall |]. repeat split; auto.
  - (* TXUpdate, accepted *)
    unfold bind, call_TXUpdate.
    pose proof (call_trace (TXUpdate (txStore t) txID (ID (Component (entity w))) true)
                  (CallTXUpdate txID (ID (Component (entity w))) true) s) as Hcall.
    destruct (call (TXUpdate (txStore t) txID (ID (Component (entity w))) true)
                (CallTXUpdate txID (ID (Component (entity w))) true) s) as [r s1].
    simpl in Hcall.
    exists [CallTXUpdate txID (ID (Component (entity w))) true r].
    destruct r as [err |]; simpl.
    + split; [exact Hcall |]. repeat split; auto.
    + split; [exact Hcall |]. split; [reflexivity |]. split; [discriminate |].
      split.
      * left. constructor; [reflexivity | constructor].
      * intros evs Htried. split.
        -- destruct Htried as (req & resp & H1 & H2 & H3). exists req, resp.
           rewrite elem_of_app. tauto.
        -- unfold logged. simpl. rewrite elem_of_app. right. apply list_elem_of_here.
  - (* TXUpdate, refused *)
    unfold bind, call_TXUpdate.
    pose proof (call_trace (TXUpdate (txStore t) txID (ID (Component (entity w))) false)
                  (CallTXUpdate txID (ID (Component (entity w))) false) s) as Hcall.
    destruct (call (TXUpdate (txStore t) txID (ID (Component (entity w))) false)
                (CallTXUpdate txID (ID (Component (entity w))) false) s) as [r s1].
    simpl in Hcall.
    exists [CallTXUpdate txID (ID (Component (entity w))) false r]. simpl.
    split; [exact Hcall |]. repeat split; auto.
  - (* blocked in the send *)
    exists []. simpl. rewrite app_nil_r, Hat. repeat split; auto.
  - (* returned *)
    exists []. simpl. rewrite app_nil_r, Hat. split; [reflexivity |].
    split; [reflexivity |]. split; [discriminate |]. split; [left; constructor |].
    intros evs H. rewrite app_nil_r. exact H.
Qed.

Lemma worker_step_advances t txID w s :
  advances (at_point w) (at_point (fst (worker_step t txID w s))).
Proof.
  unfold worker_step, advances, bind, call_Try, call_TXUpdate, call.
  destruct (at_point w) as [| [|] | e |] eqn:Hat.
  - destruct (Try _ _ _) as [[resp | err] w1]; simpl.
    + destruct (ACK resp); simpl; eauto.
    + eauto.
  - destruct (TXUpdate _ _ _ _ _) as [[err |] w1]; simpl; eauto.
  - destruct (TXUpdate _ _ _ _ _) as [r w1]; simpl; eauto.
  - simpl. exact Hat.
  - simpl. exact Hat.
Qed.

Lemma worker_run_ends t txID w s :
  at_point (fst (worker_run t txID w s)) = Finished
  \/ exists e, at_point (fst (worker_run t txID w s)) = AtSend e.
Proof.
  unfold worker_run, bind.
  pose proof (worker_step_advances t txID w s) as H1.
  destruct (worker_step t txID w s) as [w1 s1]. simpl in H1.
  pose proof (worker_step_advances t txID w1 s1) as H2.
  destruct (worker_step t txID w1 s1) as [w2 s2]. simpl in *.
  unfold advances in *.
  destruct (at_point w) as [| b | e |].
  - destruct H1 as [b H1]. rewrite H1 in H2. exact H2.
  - destruct H1 as [H1 | [e H1]]; rewrite H1 in H2; eauto.
  - rewrite H1 in H2. eauto.
  - rewrite H1 in H2. eauto.
Qed.

Lemma step_at_inv t txID ws (i : nat) w s base evs :
  ws !! i = Some w ->
  trace s = base ++ evs ->
  phase1_inv txID evs ws ->
  exists evs',
    trace (snd (worker_step t txID w s)) = base ++ evs' /\
    phase1_inv txID evs' (<[i := fst (worker_step t txID w s)]> ws) /\
    map entity (<[i := fst (worker_step t txID w s)]> ws) = map entity ws.
Proof.
  intros Hi Htrace [Hfail Hacc].
  destruct (worker_step_spec t txID w s)
    as (new & Hnew & Hentity & Hstay & Hcalls & Hnext).
  set (w' := fst (worker_step t txID w s)) in *.
  pose proof (lookup_lt_Some _ _ _ Hi) as Hlt.
  exists (evs ++ new). split; [| split].
  - rewrite Hnew, Htrace. now rewrite app_assoc.
  - split.
    + intros Hnone. rewrite Forall_lookup in Hnone.
      assert (Hw' : failed w' = false).
      { apply (Hnone i). now apply list_lookup_insert_eq. }
      apply Forall_app. split.
      * apply Hfail. apply Forall_lookup. intros j x Hj.
        destruct (decide (i = j)) as [<- | Hne].
        -- rewrite Hi in Hj. injection Hj as <-.
           destruct (failed w) eqn:Hw; [| reflexivity].
           rewrite (Hstay eq_refl) in Hw'. discriminate.
        -- apply (Hnone j). now rewrite list_lookup_insert_ne.
      * destruct Hcalls as [Hcalls | Hcalls]; [exact Hcalls | congruence].
    + apply Forall_lookup. intros j x Hj.
      rewrite Forall_lookup in Hacc.
      destruct (decide (i = j)) as [<- | Hne].
      * rewrite list_lookup_insert_eq in Hj by exact Hlt. injection Hj as <-.
        apply Hnext. now apply (Hacc i).
      * rewrite list_lookup_insert_ne in Hj by exact Hne.
        apply accounted_app. now apply (Hacc j).
  - change (entity <$> <[i := w']> ws = entity <$> ws).
    rewrite list_fmap_insert, Hentity. apply list_insert_id.
    now rewrite list_lookup_fmap, Hi.
Qed.

Lemma run_at_inv t txID ws (i : nat) w s base evs :
  ws !! i = Some w ->
  trace s = base ++ evs ->
  phase1_inv txID evs ws ->
  exists evs',
    trace (snd (worker_run t txID w s)) = base ++ evs' /\
    phase1_inv txID evs' (<[i := fst (worker_run t txID w s)]> ws) /\
    map entity (<[i := fst (worker_run t txID w s)]> ws) = map entity ws.
Proof.
  intros Hi Htrace Hinv. unfold worker_run, bind.
  destruct (step_at_inv t txID ws i w s base evs Hi Htrace Hinv)
    as (evs1 & Htrace1 & Hinv1 & Hent1).
  destruct (worker_step t txID w s) as [w1 s1]. simpl in *.
  assert (Hi1 : <[i := w1]> ws !! i = Some w1).
  { apply list_lookup_insert_eq. now apply (lookup_lt_Some _ _ _ Hi). }
  destruct (step_at_inv t txID (<[i := w1]> ws) i w1 s1 base evs1 Hi1 Htrace1 Hinv1)
    as (evs2 & Htrace2 & Hinv2 & Hent2).
  rewrite list_insert_insert_eq in Hinv2, Hent2.
  exists evs2. split; [exact Htrace2 |]. split; [exact Hinv2 |].
  now rewrite Hent2.
Qed.

Lemma phase1_drain_end t txID pre ws s base evs :
  Forall (fun w => at_point w = Finished) pre ->
  trace s = base ++ evs ->
  phase1_inv txID evs (pre ++ ws) ->
  phase1_end txID base (pre ++ ws) (phase1_drain t txID ws s).
Proof.
  revert pre s evs. induction ws as [| w ws IH]; intros pre s evs Hpre Htrace Hinv.
  - exists (pre ++ []), evs. simpl. rewrite app_nil_r in *. auto.
  - simpl. unfold bind.
    assert (Hi : (pre ++ w :: ws) !! length pre = Some w)
      by now apply list_lookup_middle.
    destruct (run_at_inv t txID (pre ++ w :: ws) (length pre) w s base evs
                Hi Htrace Hinv) as (evs1 & Htrace1 & Hinv1 & Hent1).
    pose proof (worker_run_ends t txID w s) as Hends.
    destruct (worker_run t txID w s) as [w1 s1]. simpl in *.
    rewrite insert_app_r_alt in Hinv1, Hent1 by lia.
    rewrite Nat.sub_diag in Hinv1, Hent1. simpl in Hinv1, Hent1.
    destruct Hends as [Hfin | [e Hsend]].
    + rewrite Hfin.
      replace (pre ++ w1 :: ws) with ((pre ++ [w1]) ++ ws) in Hinv1, Hent1
        by now rewrite <- app_assoc.
      destruct (IH (pre ++ [w1]) s1 evs1) as (ws' & evs' & H1 & H2 & H3 & H4);
        [apply Forall_app; split; [exact Hpre | now constructor]
        | exact Htrace1 | exact Hinv1 |].
      exists ws', evs'. split; [exact H1 |]. split; [exact H2 |].
      split; [now rewrite H3, Hent1 | exact H4].
    + rewrite Hsend. exists (pre ++ w1 :: ws), evs1. simpl.
      split; [exact Htrace1 |]. split; [exact Hinv1 |].
      split; [exact Hent1 | discriminate].
Qed.

Lemma forallb_finished ws :
  forallb finished ws = true -> Forall (fun w => at_point w = Finished) ws.
Proof.
  intros H. apply Forall_forall. intros w Hw.
  rewrite forallb_forall in H. specialize (H w (proj1 (list_elem_of_In _ _) Hw)).
  unfold finished in H. now destruct (at_point w).
Qed.

Lemma phase1_phase1_end t txID sched ws s base evs :
  trace s = base ++ evs ->
  phase1_inv txID evs ws ->
  phase1_end txID base ws (phase1 t txID sched ws s).
Proof.
  revert ws s evs. induction sched as [| i sched IH]; intros ws s evs Htrace Hinv;
    simpl; destruct (forallb finished ws) eqn:Hall.
  - exists ws, evs. simpl. split; [exact Htrace |]. split; [exact Hinv |].
    split; [reflexivity |]. intros _. now apply forallb_finished.
  - apply (phase1_drain_end t txID [] ws s base evs); [constructor | exact Htrace |].
    exact Hinv.
  - exists ws, evs. simpl. split; [exact Htrace |]. split; [exact Hinv |].
    split; [reflexivity |]. intros _. now apply forallb_finished.
  - destruct (ws !! i) as [w |] eqn:Hi; [| now apply (IH ws s evs)].
    destruct (at_point w) as [| b | e |] eqn:Hat.
    + unfold bind.
      destruct (step_at_inv t txID ws i w s base evs Hi Htrace Hinv)
        as (evs1 & Htrace1 & Hinv1 & Hent1).
      destruct (worker_step t txID w s) as [w1 s1]. simpl in *.
      destruct (IH _ s1 evs1 Htrace1 Hinv1) as (ws' & evs' & H1 & H2 & H3 & H4).
      exists ws', evs'. split; [exact H1 |]. split; [exact H2 |].
      split; [now rewrite H3 | exact H4].
    + unfold bind.
      destruct (step_at_inv t txID ws i w s base evs Hi Htrace Hinv)
        as (evs1 & Htrace1 & Hinv1 & Hent1).
      destruct (worker_step t txID w s) as [w1 s1]. simpl in *.
      destruct (IH _ s1 evs1 Htrace1 Hinv1) as (ws' & evs' & H1 & H2 & H3 & H4).
      exists ws', evs'. split; [exact H1 |]. split; [exact H2 |].
      split; [now rewrite H3 | exact H4].
    + exists ws, evs. simpl. split; [exact Htrace |]. split; [exact Hinv |].
      split; [reflexivity | discriminate].
    + now apply (IH ws s evs).
Qed.

(** What [twoPhaseCommit] returns and the calls it makes. *)
Lemma twoPhaseCommit_outcome t sched txID (entities : list (ComponentEntity World)) s :
  exists evs,
    trace (snd (twoPhaseCommit t sched txID entities s))
    = trace s ++ evs ++ [GoAdvanceProgressByTXID txID] /\
    snd (fst (twoPhaseCommit t sched txID entities s)) = None /\
    (Exists (fun e => phase1_failure e = true) evs ->
     fst (fst (twoPhaseCommit t sched txID entities s)) = false) /\
    (fst (fst (twoPhaseCommit t sched txID entities s)) = true ->
     Forall (fun e => phase1_failure e = false) evs /\
     forall e, e ∈ entities ->
       exists req resp,
         req_TXID req = txID /\ ACK resp = true /\
         CallTry (ID (Component e)) req (Ok resp) ∈ evs /\
         CallTXUpdate txID (ID (Component e)) true None ∈ evs).
Proof.
  unfold twoPhaseCommit, bind, log, ret.
  set (ws := map (fun e => {| entity := e; at_point := AtTry |}) entities).
  assert (Hinit : phase1_inv txID [] ws).
  { split; [constructor |]. apply Forall_forall. intros w Hw.
    apply elem_of_map in Hw. destruct Hw as [e [-> _]]. exact I. }
  destruct (phase1_phase1_end t txID sched ws s (trace s) []
              (eq_sym (app_nil_r _)) Hinit)
    as (ws' & evs & Htrace & [Hfail Hacc] & Hent & Hnil).
  destruct (phase1 t txID sched ws s) as [err s1]. simpl in *.
  assert (Hdone : err = None ->
            Forall (fun e => phase1_failure e = false) evs /\
            forall e, e ∈ entities ->
              exists req resp,
                req_TXID req = txID /\ ACK resp = true /\
                CallTry (ID (Component e)) req (Ok resp) ∈ evs /\
                CallTXUpdate txID (ID (Component e)) true None ∈ evs).
  { intros Herr. specialize (Hnil Herr). split.
    - apply Hfail. apply Forall_forall. intros w Hw.
      rewrite Forall_forall in Hnil. unfold failed. now rewrite (Hnil w Hw).
    - intros e He.
      assert (Hin : e ∈ map entity ws').
      { rewrite Hent. unfold ws. rewrite map_map. simpl. now rewrite map_id. }
      apply elem_of_map in Hin. destruct Hin as [w [-> Hw]].
      rewrite Forall_forall in Hnil, Hacc.
      specialize (Hacc w Hw). unfold accounted in Hacc. rewrite (Hnil w Hw) in Hacc.
      destruct Hacc as [(req & resp & H1 & H2 & H3) H4].
      exists req, resp. auto. }
  exists evs. split; [now rewrite Htrace, app_assoc |]. split; [reflexivity |].
  destruct err as [e |].
  - split; [reflexivity | discriminate].
  - destruct (Hdone eq_refl) as [Hclean Hall]. split.
    + intros Hex. apply Exists_exists in Hex. destruct Hex as [e [Hin He]].
      rewrite Forall_forall in Hclean. rewrite (Hclean e Hin) in He. discriminate.
    + intros _. split; assumption.
Qed.

Lemma getComponents_entities_Ret (idToReq : gmap string RequestEntity)
    (cs : list (TCCComponent World)) (acc entities : list (ComponentEntity World)) :
  getComponents_entities idToReq cs acc = Ret entities ->
  map Component entities = map Component acc ++ cs.
Proof.
  revert acc. induction cs as [| c cs IH]; intros acc H; simpl in H.
  - injection H as <-. now rewrite app_nil_r.
  - destruct (idToReq !! ID c); [| discriminate].
    rewrite (IH _ H), map_app. simpl. now rewrite <- app_assoc.
Qed.

(** The entities of a valid request set: one per request, in order, each
    holding the participant registered under the request's identity. *)
Lemma getComponents_Ok t reqs (entities : list (ComponentEntity World)) :
  getComponents t reqs = Ret (Ok entities) ->
  Forall2 (fun req c => components (registry t) !! re_ComponentID req = Some c)
          reqs (map Component entities).
Proof.
  unfold getComponents. destruct (bool_decide (length reqs = 0%nat)); [discriminate |].
  destruct (getComponents_dedup reqs ∅ []) as [[idToReq ids] | e] eqn:Hdedup;
    [| discriminate].
  apply getComponents_dedup_Ok in Hdedup. destruct Hdedup as (_ & _ & Hids & _ & _).
  rewrite app_nil_l in Hids. subst ids.
  destruct (registryCenter_getComponents (registry t) (map re_ComponentID reqs))
    as [cs | e] eqn:Hreg; [| discriminate].
  apply registryCenter_getComponents_Ok in Hreg.
  destruct (bool_decide (length (map re_ComponentID reqs) ≠ length cs));
    [discriminate |].
  destruct (getComponents_entities idToReq cs []) as [ents |] eqn:Hents;
    [| discriminate].
  intros H. injection H as <-.
  rewrite (getComponents_entities_Ret _ _ _ _ Hents). simpl.
  change (map re_ComponentID reqs) with (re_ComponentID <$> reqs) in Hreg.
  now apply Forall2_fmap_l in Hreg.
Qed.

End Phase1.

(** C1, as the code has it.  Over the calls [evs] that a call of
    Transaction makes: when phase 1 fails (a Try answers an error or
    ack = false, or a TXUpdate answers an error), Transaction returns
    success = false with a nil error; it returns (true, nil) only when no
    call of phase 1 failed and every requested participant acknowledged its
    Try and had the acceptance written to the log; and an error is returned,
    with success = false, only when no participant was called (validation
    or CreateTX failed). *)
Theorem Transaction_phase1_outcome {World} (t : TXManager World)
    (sched : list nat) (reqs : list RequestEntity) (s : State World) :
  let out := fst (TXManager_Transaction t sched reqs s) in
  let s' := snd (TXManager_Transaction t sched reqs s) in
  exists evs,
    trace s' = trace s ++ evs /\
    (Exists (fun e => phase1_failure e = true) evs -> out = Ret (false, None)) /\
    (out = Ret (true, None) ->
     Forall (fun e => phase1_failure e = false) evs /\
     exists txID,
       forall req, req ∈ reqs ->
         exists c treq resp,
           components (registry t) !! re_ComponentID req = Some c /\
           req_TXID treq = txID /\ ACK resp = true /\
           CallTry (ID c) treq (Ok resp) ∈ evs /\
           CallTXUpdate txID (ID c) true None ∈ evs) /\
    (forall ok err, out = Ret (ok, Some err) ->
       ok = false /\ Forall (fun e => is_CreateTX e = true) evs).
Proof.
  cbv zeta. unfold TXManager_Transaction.
  destruct (getComponents t reqs) as [[entities | err] |] eqn:Hget.
  - unfold bind, call_CreateTX.
    pose proof (call_trace (CreateTX (txStore t) (ToComponents entities))
                  (CallCreateTX (map ID (ToComponents entities))) s) as Hcreate.
    destruct (call (CreateTX (txStore t) (ToComponents entities))
                (CallCreateTX (map ID (ToComponents entities))) s) as [r s1].
    simpl in Hcreate. destruct r as [txID | err].
    + destruct (twoPhaseCommit_outcome t sched txID entities s1)
        as (evs & Htrace & Herr & Hfailed & Hok).
      destruct (twoPhaseCommit t sched txID entities s1) as [[ok err] s2].
      simpl in *. subst err.
      exists (CallCreateTX (map ID (ToComponents entities)) (Ok txID)
              :: evs ++ [GoAdvanceProgressByTXID txID]).
      split; [rewrite Htrace, Hcreate, <- app_assoc; reflexivity |]. split; [| split].
      * intros Hex. apply Exists_cons in Hex. destruct Hex as [Hex | Hex];
          [discriminate |].
        apply Exists_app in Hex. destruct Hex as [Hex | Hex].
        -- now rewrite (Hfailed Hex).
        -- apply Exists_cons in Hex. destruct Hex as [Hex | Hex];
             [discriminate | inversion Hex].
      * intros Hout. injection Hout as ->. destruct (Hok eq_refl) as [Hclean Hall].
        split.
        -- constructor; [reflexivity |]. apply Forall_app. split; [exact Hclean |].
           constructor; [reflexivity | constructor].
        -- exists txID. intros req Hreq.
           pose proof (getComponents_Ok t reqs entities Hget) as Hreg.
           apply list_elem_of_lookup in Hreq. destruct Hreq as [i Hi].
           destruct (Forall2_lookup_l _ _ _ _ _ Hreg Hi) as [c [Hc Hfound]].
           change (map Component entities) with (Component <$> entities) in Hc.
           rewrite list_lookup_fmap in Hc.
           destruct (entities !! i) as [e |] eqn:He; [| discriminate].
           simpl in Hc. injection Hc as <-.
           destruct (Hall e (list_elem_of_lookup_2 _ _ _ He))
             as (treq & resp & H1 & H2 & H3 & H4).
           exists (Component e), treq, resp.
           split; [exact Hfound |]. split; [exact H1 |]. split; [exact H2 |].
           split.
           ++ apply elem_of_cons. right. apply elem_of_app. now left.
           ++ apply elem_of_cons. right. apply elem_of_app. now left.
      * intros ok' err Hout. discriminate.
    + exists [CallCreateTX (map ID (ToComponents entities)) (Err err)]. simpl.
      split; [exact Hcreate |]. split; [| split].
      * intros Hex. apply Exists_cons in Hex. destruct Hex as [Hex | Hex];
          [discriminate | inversion Hex].
      * discriminate.
      * intros ok' err' Hout. injection Hout as <- _.
        split; [reflexivity |]. constructor; [reflexivity | constructor].
  - exists []. simpl. rewrite app_nil_r. split; [reflexivity |]. split; [| split].
    + intros Hex. inversion Hex.
    + discriminate.
    + intros ok' err' Hout. injection Hout as <- _. split; [reflexivity | constructor].
  - exists []. simpl. rewrite app_nil_r. split; [reflexivity |]. split; [| split].
    + intros Hex. inversion Hex.
    + discriminate.
    + discriminate.
Qed.

(** C1 as stated fails: participant B refuses its Try (ack = false), so
    phase 1 fails, and Transaction returns false with a nil error. *)
Lemma Transaction_try_refused_nil_error :
  TXManager_Transaction scenario.manager [1%nat; 1%nat; 1%nat]
    [ {| re_ComponentID := "A"; Request := ∅ |};
      {| re_ComponentID := "B"; Request := ∅ |} ] scenario.start
  = (Ret (false, None),
     {| world := 3%nat;
        trace :=
          [ CallCreateTX ["A"; "B"] (Ok "tx-1");
            CallTry "B" {| req_ComponentID := "B"; req_TXID := "tx-1"; Data := ∅ |}
              (Ok {| ComponentID := "B"; ACK := false; TXID := "tx-1" |});
            CallTXUpdate "tx-1" "B" false None;
            GoAdvanceProgressByTXID "tx-1" ] |}).
Proof. vm_compute. reflexivity. Qed.

(** The happy path: both requested participants accept, whatever the
    interleaving of the two goroutines. *)
Example Transaction_all_accept :
  let A' := scenario.participant "A'" true in
  let t := snd (Register scenario.manager A') in
  let reqs := [ {| re_ComponentID := "A"; Request := ∅ |};
                {| re_ComponentID := "A'"; Request := ∅ |} ] in
  fst (TXManager_Transaction t [] reqs scenario.start) = Ret (true, None) /\
  fst (TXManager_Transaction t [1%nat; 0%nat; 0%nat; 1%nat] reqs scenario.start)
  = Ret (true, None) /\
  trace (snd (TXManager_Transaction t [1%nat; 0%nat; 0%nat; 1%nat] reqs
                scenario.start))
  = [ CallCreateTX ["A"; "A'"] (Ok "tx-1");
      CallTry "A'" {| req_ComponentID := "A'"; req_TXID := "tx-1"; Data := ∅ |}
        (Ok {| ComponentID := "A'"; ACK := true; TXID := "tx-1" |});
      CallTry "A" {| req_ComponentID := "A"; req_TXID := "tx-1"; Data := ∅ |}
        (Ok {| ComponentID := "A"; ACK := true; TXID := "tx-1" |});
      CallTXUpdate "tx-1" "A" true None;
      CallTXUpdate "tx-1" "A'" true None;
      GoAdvanceProgressByTXID "tx-1" ].
Proof. vm_compute. repeat split. Qed.

(** ** Transaction returns *)

Section Returns.
Context {World : Type}.
Implicit Types (t : TXManager World) (r : registryCenter World).

Lemma newRegistryCenter_wf : registry_wf (newRegistryCenter (World := World)).
Proof. intros k c H. simpl in H. rewrite lookup_empty in H. discriminate. Qed.

Lemma registryCenter_register_wf r (c : TCCComponent World) :
  registry_wf r -> registry_wf (snd (registryCenter_register r c)).
Proof.
  intros Hwf. unfold registryCenter_register.
  destruct (components r !! ID c) eqn:Hc; simpl; [exact Hwf |].
  intros k c' Hk. simpl in Hk.
  destruct (decide (ID c = k)) as [<- | Hne].
  - rewrite lookup_insert_eq in Hk. now injection Hk as <-.
  - rewrite lookup_insert_ne in Hk by exact Hne. now apply Hwf.
Qed.



End Returns.

Lemma Register_wf {World} (t : TXManager World) (c : TCCComponent World) :
  registry_wf (registry t) -> registry_wf (registry (snd (Register t c))).
Proof.
  intros Hwf. unfold Register.
  pose proof (registryCenter_register_wf (registry t) c Hwf) as Hreg.
  destruct (registryCenter_register (registry t) c) as [err r]. exact Hreg.
Qed.

Lemma scenario_manager_wf : registry_wf (registry scenario.manager).
Proof.
  unfold scenario.manager. apply Register_wf, Register_wf.
  apply newRegistryCenter_wf.
Qed.

(** ** Phase 2 on examples *)

(** Both participants accepted their Try: Confirm on A, then on B, then
    TXSubmit with success = true. *)
Example advanceProgress_confirms :
  advanceProgress scenario.manager (1 * Second)
    {| tx_TXID := "tx-1";
       Components := [ {| cte_ComponentID := "A"; TryStatus := TrySucceesful |};
                       {| cte_ComponentID := "B"; TryStatus := TrySucceesful |} ];
       Status := TXHanging;
       CreatedAt := 0 |} scenario.start
  = (None,
     {| world := 3%nat;
        trace := [ CallConfirm "A" "tx-1"
                     (Ok {| ComponentID := "A"; ACK := true; TXID := "tx-1" |});
                   CallConfirm "B" "tx-1"
                     (Ok {| ComponentID := "B"; ACK := true; TXID := "tx-1" |});
                   CallTXSubmit "tx-1" true None ] |}).
Proof. vm_compute. reflexivity. Qed.

(** B refused its Try: Cancel on A, then on B, then TXSubmit with
    success = false.  A participant that is not registered stops the
    advance before any TXSubmit. *)
Example advanceProgress_cancels :
  advanceProgress scenario.manager (1 * Second)
    {| tx_TXID := "tx-1";
       Components := [ {| cte_ComponentID := "A"; TryStatus := TrySucceesful |};
                       {| cte_ComponentID := "B"; TryStatus := TryFailure |} ];
       Status := TXHanging;
       CreatedAt := 0 |} scenario.start
  = (None,
     {| world := 3%nat;
        trace := [ CallCancel "A" "tx-1"
                     (Ok {| ComponentID := "A"; ACK := true; TXID := "tx-1" |});
                   CallCancel "B" "tx-1"
                     (Ok {| ComponentID := "B"; ACK := true; TXID := "tx-1" |});
                   CallTXSubmit "tx-1" false None ] |}) /\
  advanceProgress scenario.manager (1 * Second)
    {| tx_TXID := "tx-1";
       Components := [ {| cte_ComponentID := "A"; TryStatus := TryFailure |};
                       {| cte_ComponentID := "C"; TryStatus := TryFailure |} ];
       Status := TXHanging;
       CreatedAt := 0 |} scenario.start
  = (Some "get tcc component failed",
     {| world := 1%nat;
        trace := [ CallCancel "A" "tx-1"
                     (Ok {| ComponentID := "A"; ACK := true; TXID := "tx-1" |}) ] |}).
Proof. split; vm_compute; reflexivity. Qed.

End Coordinator.

(** * Options and registry *)

Module Setup.
Import component txmanager Notions.

(** ** Options *)

Lemma repair_positive (o : Options) :
  0 < Timeout (repair o) /\ 0 < MonitorTick (repair o).
Proof.
  unfold repair.
  destruct (Z.leb_spec (MonitorTick o) 0) as [Hm | Hm]; simpl;
    destruct (Z.leb_spec (Timeout o) 0) as [Ht | Ht]; simpl;
    repeat split; try lia; reflexivity.
Qed.

Lemma repair_eq (o : Options) :
  repair o
  = {| Timeout := (if Timeout o <=? 0 then 5 * Second else Timeout o);
       MonitorTick := (if MonitorTick o <=? 0 then 10 * Second
                       else MonitorTick o) |}.
Proof.
  destruct o as [t m]. unfold repair. cbn [Timeout MonitorTick].
  destruct (m <=? 0); destruct (t <=? 0) eqn:Ht; cbn [Timeout MonitorTick];
    rewrite ?Ht; reflexivity.
Qed.

(** X5. Whatever options are given, even options that write zero or
    negative durations, the coordinator that NewTXManager builds has a
    positive Timeout and a positive MonitorTick; a positive value written by
    an option is kept as it is. *)
Theorem NewTXManager_options_positive {World} (store : TXStore World)
    (os : list Option) :
  let given := fold_left (fun o opt => opt o) os {| Timeout := 0; MonitorTick := 0 |} in
  let o := opts (NewTXManager store os) in
  0 < Timeout o /\ 0 < MonitorTick o /\
  Timeout o = (if Timeout given <=? 0 then 5 * Second else Timeout given) /\
  MonitorTick o = (if MonitorTick given <=? 0 then 10 * Second
                   else MonitorTick given).
Proof.
  cbv zeta. unfold NewTXManager. cbn [opts].
  set (given := fold_left (fun o opt => opt o) os {| Timeout := 0; MonitorTick := 0 |}).
  destruct (repair_positive given) as [Ht Hm].
  split; [exact Ht |]. split; [exact Hm |]. unfold repair.
  destruct (Z.leb_spec (MonitorTick given) 0);
    destruct (Z.leb_spec (Timeout given) 0); simpl;
    repeat match goal with |- context [?x <=? 0] =>
      destruct (Z.leb_spec x 0); try lia end; split; reflexivity.
Qed.

(** X6. Options compose: given WithTimeout d and WithMonitorTick m in
    either order, NewTXManager has Timeout d and MonitorTick m, each
    replaced by its default (5 s, 10 s) when zero or negative; of two
    WithTimeout options the later one decides. *)
Theorem NewTXManager_With {World} (store : TXStore World) (d d' m : Duration) :
  let expected := {| Timeout := (if d <=? 0 then 5 * Second else d);
                     MonitorTick := (if m <=? 0 then 10 * Second else m) |} in
  opts (NewTXManager store [WithTimeout d; WithMonitorTick m]) = expected /\
  opts (NewTXManager store [WithMonitorTick m; WithTimeout d]) = expected /\
  Timeout (opts (NewTXManager store [WithTimeout d'; WithTimeout d]))
  = Timeout expected.
Proof.
  cbv zeta. unfold NewTXManager. cbn [opts]. rewrite !repair_eq.
  unfold WithTimeout, WithMonitorTick. cbn [fold_left Timeout MonitorTick].
  assert (H5 : (wrap64 (5 * Second) <=? 0) = false) by reflexivity.
  assert (H10 : (wrap64 (10 * Second) <=? 0) = false) by reflexivity.
  destruct (d <=? 0) eqn:Hd; destruct (m <=? 0) eqn:Hm;
    destruct (d' <=? 0) eqn:Hd'; rewrite ?H5, ?H10, ?Hd, ?Hm;
    (split; [reflexivity |]); split; reflexivity.
Qed.

(** ** Registry *)

Section Registry.
Context {World : Type}.
Implicit Types (r : registryCenter World) (c : TCCComponent World).

(** X7. Register and lookup: registering a participant whose ID is taken
    fails and leaves the registry as it was; otherwise it succeeds, the
    participant is then found under its ID, every other ID is as before,
    and registering the same participant again fails. *)
Theorem registryCenter_register_lookup r c :
  (is_Some (components r !! ID c) ->
   registryCenter_register r c = (Some "repeat component id", r)) /\
  (components r !! ID c = None ->
   fst (registryCenter_register r c) = None /\
   registryCenter_getComponents (snd (registryCenter_register r c)) [ID c]
   = Ok [c] /\
   forall k, k <> ID c ->
     components (snd (registryCenter_register r c)) !! k = components r !! k) /\
  fst (registryCenter_register (snd (registryCenter_register r c)) c)
  = Some "repeat component id".
Proof.
  unfold registryCenter_register, registryCenter_getComponents.
  destruct (components r !! ID c) as [c' |] eqn:Hc.
  - split; [reflexivity |]. split; [discriminate |]. cbn [snd]. now rewrite Hc.
  - split; [intros [c' Hc']; discriminate |]. split.
    + intros _. cbn. rewrite lookup_insert_eq. split; [reflexivity |].
      split; [reflexivity |]. intros k Hk. now rewrite lookup_insert_ne.
    + cbn. now rewrite lookup_insert_eq.
Qed.

Lemma registryCenter_getComponents_loop_first r (ids : list string)
    (acc : list (TCCComponent World)) e :
  registryCenter_getComponents_loop r ids acc = Err e ->
  exists pre id post,
    ids = pre ++ id :: post /\
    Forall (fun k => is_Some (components r !! k)) pre /\
    components r !! id = None /\
    e = "component id: " +:+ id +:+ " not existed".
Proof.
  revert acc. induction ids as [| k ids IH]; intros acc H; simpl in H.
  - discriminate.
  - destruct (components r !! k) as [c |] eqn:Hk.
    + destruct (IH _ H) as (pre & id & post & -> & Hpre & Hid & ->).
      exists (k :: pre), id, post. split; [reflexivity |].
      split; [constructor; [now exists c | exact Hpre] |]. now split.
    + injection H as <-. exists [], k, ids. split; [reflexivity |].
      split; [constructor |]. now split.
Qed.

Lemma registryCenter_getComponents_loop_fails r (pre post : list string)
    (id : string) (acc : list (TCCComponent World)) :
  Forall (fun k => is_Some (components r !! k)) pre ->
  components r !! id = None ->
  registryCenter_getComponents_loop r (pre ++ id :: post) acc
  = Err ("component id: " +:+ id +:+ " not existed").
Proof.
  intros Hpre Hid. revert acc.
  induction Hpre as [| k pre [c Hc] _ IH]; intros acc; simpl.
  - now rewrite Hid.
  - rewrite Hc. apply IH.
Qed.

(** X8. Lookup of a list of IDs: when every ID is registered the lookup
    succeeds and lists the participants registered under the IDs, in the
    order of the IDs; when some ID is not registered the lookup fails, with
    the error that names the first ID that is not registered; and these are
    the only errors. *)
Theorem registryCenter_getComponents_ordered r (ids : list string) :
  (Forall (fun k => is_Some (components r !! k)) ids ->
   exists cs, registryCenter_getComponents r ids = Ok cs /\
              Forall2 (fun k c => components r !! k = Some c) ids cs) /\
  (forall pre id post,
     ids = pre ++ id :: post ->
     Forall (fun k => is_Some (components r !! k)) pre ->
     components r !! id = None ->
     registryCenter_getComponents r ids
     = Err ("component id: " +:+ id +:+ " not existed")) /\
  (forall e, registryCenter_getComponents r ids = Err e ->
   exists pre id post,
     ids = pre ++ id :: post /\
     Forall (fun k => is_Some (components r !! k)) pre /\
     components r !! id = None /\
     e = "component id: " +:+ id +:+ " not existed").
Proof.
  split; [| split].
  - intros Hall.
    destruct (registryCenter_getComponents r ids) as [cs | e] eqn:H.
    + exists cs. split; [reflexivity |].
      now apply Coordinator.registryCenter_getComponents_Ok.
    + apply registryCenter_getComponents_loop_first in H.
      destruct H as (pre & id & post & -> & _ & Hid & _).
      apply Forall_app in Hall. destruct Hall as [_ Hall].
      apply Forall_cons in Hall. destruct Hall as [[c Hc] _]. congruence.
  - intros pre id post -> Hpre Hid.
    now apply registryCenter_getComponents_loop_fails.
  - intros e H. now apply registryCenter_getComponents_loop_first in H.
Qed.

End Registry.

Lemma registryCenter_getComponents_ordered_witness :
  (exists cs,
     registryCenter_getComponents (registry scenario.manager) ["B"; "A"] = Ok cs /\
     Forall2 (fun k c => components (registry scenario.manager) !! k = Some c)
             ["B"; "A"] cs) /\
  registryCenter_getComponents (registry scenario.manager) ["A"; "C"; "B"; "D"]
  = Err "component id: C not existed".
Proof.
  split.
  - apply (registryCenter_getComponents_ordered (registry scenario.manager)
             ["B"; "A"]).
    repeat constructor; eexists; vm_compute; reflexivity.
  - apply (proj1 (proj2 (registryCenter_getComponents_ordered
                           (registry scenario.manager) ["A"; "C"; "B"; "D"]))
             ["A"] "C" ["B"; "D"]).
    + reflexivity.
    + repeat constructor; eexists; vm_compute; reflexivity.
    + vm_compute. reflexivity.
Defined.

End Setup.

(** * The coordinator on valid requests *)

Module Requests.
Import component txmanager Notions MoreNotions.

Section Valid.
Context {World : Type}.
Implicit Types (t : TXManager World) (reqs : list RequestEntity)
  (s : State World).

Lemma getComponents_entities_zip (idToReq : gmap string RequestEntity)
    reqs (cs : list (TCCComponent World)) (acc : list (ComponentEntity World)) :
  Forall2 (fun req c => idToReq !! ID c = Some req) reqs cs ->
  getComponents_entities idToReq cs acc
  = Ret (acc ++ zip_with (fun req c => {| ce_Request := Request req;
                                          Component := c |}) reqs cs).
Proof.
  intros Hall. revert acc. induction Hall as [| req c reqs cs Hc Hall IH];
    intros acc; simpl.
  - now rewrite app_nil_r.
  - rewrite Hc, IH, <- app_assoc. reflexivity.
Qed.

Lemma zip_entity_of (r : registryCenter World) reqs
    (cs : list (TCCComponent World)) :
  Forall2 (fun req c => components r !! re_ComponentID req = Some c) reqs cs ->
  Forall2 (entity_of r) reqs
    (zip_with (fun req c => {| ce_Request := Request req; Component := c |})
              reqs cs).
Proof.
  induction 1 as [| req c reqs' cs' Hc Hrest IH]; simpl; constructor.
  - split; [reflexivity | exact Hc].
  - exact IH.
Qed.

(** A valid request set resolves to one entity per request, in the order
    of the requests. *)
Lemma getComponents_resolves t reqs :
  registry_wf (registry t) ->
  reqs <> [] ->
  NoDup (map re_ComponentID reqs) ->
  Forall (fun req => is_Some (components (registry t) !! re_ComponentID req)) reqs ->
  exists entities,
    getComponents t reqs = Ret (Ok entities) /\
    Forall2 (entity_of (registry t)) reqs entities.
Proof.
  intros Hwf Hne Hnodup Hreg. unfold getComponents.
  rewrite bool_decide_eq_false_2 by (destruct reqs; [congruence | discriminate]).
  destruct (getComponents_dedup reqs ∅ []) as [[idToReq ids] | e] eqn:Hdedup.
  2:{ destruct (Coordinator.getComponents_dedup_NoDup reqs ∅ [] Hnodup) as [m Hm];
        [intros req _; apply lookup_empty | congruence]. }
  apply Coordinator.getComponents_dedup_Ok in Hdedup.
  destruct Hdedup as (_ & _ & Hids & Hfound & _). rewrite app_nil_l in Hids.
  subst ids.
  destruct (registryCenter_getComponents (registry t) (map re_ComponentID reqs))
    as [cs | e] eqn:Hlookup.
  2:{ apply Coordinator.registryCenter_getComponents_loop_Err in Hlookup.
      destruct Hlookup as (id & Hin & Hnone & _).
      apply Coordinator.elem_of_map in Hin. destruct Hin as [req [-> Hin]].
      rewrite Forall_forall in Hreg. destruct (Hreg req Hin) as [c Hc]. congruence. }
  apply Coordinator.registryCenter_getComponents_Ok in Hlookup.
  change (map re_ComponentID reqs) with (re_ComponentID <$> reqs) in Hlookup.
  apply Forall2_fmap_l in Hlookup.
  rewrite bool_decide_eq_false_2.
  2:{ intros Hlen. apply Hlen. rewrite length_map.
      now apply Forall2_length in Hlookup. }
  assert (Hreqs : Forall2 (fun req c => idToReq !! ID c = Some req) reqs cs).
  { assert (Hall : Forall (fun req => idToReq !! re_ComponentID req = Some req) reqs)
      by (apply Forall_forall; exact Hfound).
    clear - Hwf Hlookup Hall.
    induction Hlookup as [| req c reqs' cs' Hc Hrest IH]; [constructor |].
    apply Forall_cons in Hall. destruct Hall as [Hreq Hall].
    constructor; [| now apply IH].
    simpl in Hc. now rewrite (Hwf _ _ Hc). }
  rewrite (getComponents_entities_zip idToReq reqs cs [] Hreqs), app_nil_l.
  eexists. split; [reflexivity |]. now apply zip_entity_of.
Qed.

(** ** Phase 1 when nobody refuses *)

Lemma worker_step_on_course t txID (w : worker World) s :
  records (txStore t) ->
  accepts (Component (entity w)) ->
  on_course w = true ->
  on_course (fst (worker_step t txID w s)) = true /\
  entity (fst (worker_step t txID w s)) = entity w.
Proof.
  intros Hrec Hacc Hon. unfold on_course in *. unfold worker_step.
  destruct (at_point w) as [| [|] | e |] eqn:Hat; try discriminate.
  - unfold bind, call_Try, call.
    destruct (Hacc {| req_ComponentID := ID (Component (entity w));
                      req_TXID := txID; Data := ce_Request (entity w) |}
                (world s)) as [resp [Htry Hack]].
    destruct (Try _ _ _) as [r w1]. simpl in Htry. subst r.
    rewrite Hack. simpl. split; reflexivity.
  - unfold bind, call_TXUpdate, call.
    pose proof (Hrec txID (ID (Component (entity w))) true (world s)) as Hup.
    destruct (TXUpdate _ _ _ _ _) as [r w1]. simpl in Hup. subst r.
    simpl. split; reflexivity.
  - simpl. rewrite Hat. split; reflexivity.
Qed.

Lemma worker_step_cooperative t txID (w : worker World) s :
  records (txStore t) -> cooperative w ->
  cooperative (fst (worker_step t txID w s)).
Proof.
  intros Hrec [Hon Hacc].
  destruct (worker_step_on_course t txID w s Hrec Hacc Hon) as [Hon' Hent].
  split; [exact Hon' | now rewrite Hent].
Qed.

Lemma phase1_drain_cooperative t txID (ws : list (worker World)) s :
  records (txStore t) -> Forall cooperative ws ->
  fst (phase1_drain t txID ws s) = None.
Proof.
  intros Hrec. revert s. induction ws as [| w ws IH]; intros s Hall; simpl.
  - reflexivity.
  - apply Forall_cons in Hall. destruct Hall as [Hw Hall].
    unfold bind, worker_run, bind.
    pose proof (worker_step_cooperative t txID w s Hrec Hw) as H1.
    destruct (worker_step t txID w s) as [w1 s1]. simpl in H1.
    pose proof (worker_step_cooperative t txID w1 s1 Hrec H1) as H2.
    destruct (worker_step t txID w1 s1) as [w2 s2]. simpl in H2.
    destruct H2 as [Hon _]. unfold on_course in Hon.
    destruct (at_point w2) as [| [|] | e |]; try discriminate; now apply IH.
Qed.

Lemma phase1_cooperative t txID sched (ws : list (worker World)) s :
  records (txStore t) -> Forall cooperative ws ->
  fst (phase1 t txID sched ws s) = None.
Proof.
  intros Hrec. revert ws s. induction sched as [| i sched IH]; intros ws s Hall;
    simpl; destruct (forallb finished ws); try reflexivity.
  - now apply phase1_drain_cooperative.
  - destruct (ws !! i) as [w |] eqn:Hi; [| now apply IH].
    pose proof (proj1 (Forall_lookup _ _) Hall i w Hi) as Hw.
    pose proof (worker_step_cooperative t txID w s Hrec Hw) as Hstep.
    destruct Hw as [Hon _]. unfold on_course in Hon.
    destruct (at_point w) as [| [|] | e |]; try discriminate.
    + unfold bind. destruct (worker_step t txID w s) as [w1 s1].
      apply IH. now apply Forall_insert.
    + unfold bind. destruct (worker_step t txID w s) as [w1 s1].
      apply IH. now apply Forall_insert.
    + now apply IH.
Qed.

(** X10. The happy path, whatever the interleaving of the Try goroutines:
    on a valid request set (not empty, no participant twice, every
    participant registered, in a registry where each sits under its own ID),
    when every requested participant acknowledges its Try and the store
    accepts CreateTX and every TXUpdate, Transaction returns (true, nil). *)
Theorem Transaction_all_accept_true t (sched : list nat) reqs s :
  registry_wf (registry t) ->
  reqs <> [] ->
  NoDup (map re_ComponentID reqs) ->
  Forall (fun req => exists c, components (registry t) !! re_ComponentID req = Some c
                               /\ accepts c) reqs ->
  creates (txStore t) ->
  records (txStore t) ->
  fst (TXManager_Transaction t sched reqs s) = Ret (true, None).
Proof.
  intros Hwf Hne Hnodup Hacc Hcreate Hrec.
  destruct (getComponents_resolves t reqs Hwf Hne Hnodup) as [entities [Hget Hent]].
  { eapply Forall_impl; [exact Hacc |]. intros req [c [Hc _]]. now exists c. }
  unfold TXManager_Transaction. rewrite Hget. unfold bind, call_CreateTX, call.
  destruct (Hcreate (ToComponents entities) (world s)) as [txID Hok].
  destruct (CreateTX _ _ _) as [r w1]. simpl in Hok. subst r.
  unfold twoPhaseCommit, bind.
  match goal with |- context [phase1 t txID sched ?ws ?s1] =>
    pose proof (phase1_cooperative t txID sched ws s1 Hrec) as Hnone;
    destruct (phase1 t txID sched ws s1) as [err s2] end.
  simpl in Hnone. rewrite Hnone; [reflexivity |].
  apply Forall_forall. intros w Hw.
  apply Coordinator.elem_of_map in Hw. destruct Hw as [e [-> He]].
  split; [reflexivity |]. simpl.
  apply list_elem_of_lookup in He. destruct He as [i Hi].
  destruct (Forall2_lookup_r _ _ _ _ _ Hent Hi) as [req [Hreq [_ Hfound]]].
  rewrite Forall_forall in Hacc.
  destruct (Hacc req (list_elem_of_lookup_2 _ _ _ Hreq)) as [c [Hc Hc_acc]].
  rewrite Hfound in Hc. injection Hc as <-. exact Hc_acc.
Qed.

Lemma entity_of_IDs (r : registryCenter World) reqs
    (entities : list (ComponentEntity World)) :
  registry_wf r -> Forall2 (entity_of r) reqs entities ->
  map ID (ToComponents entities) = map re_ComponentID reqs.
Proof.
  intros Hwf Hent. unfold ToComponents.
  rewrite (TxModel.fold_left_snoc Component entities []), app_nil_l.
  induction Hent as [| req e reqs' es [_ Hfound] Hrest IH]; simpl; [reflexivity |].
  now rewrite (Hwf _ _ Hfound), IH.
Qed.

(** X9. On a request set that is not empty, names no participant twice and
    names registered participants only, in a registry where every
    participant sits under its own ID, getComponents returns one entity per
    request, in the order of the requests, each holding the request's
    payload and the participant registered under the request's ID; the
    participants that ToComponents extracts from them carry the requested
    IDs, in the order of the requests. *)
Theorem getComponents_valid t reqs :
  registry_wf (registry t) ->
  reqs <> [] ->
  NoDup (map re_ComponentID reqs) ->
  Forall (fun req => is_Some (components (registry t) !! re_ComponentID req)) reqs ->
  exists entities,
    getComponents t reqs = Ret (Ok entities) /\
    Forall2 (entity_of (registry t)) reqs entities /\
    map ID (ToComponents entities) = map re_ComponentID reqs.
Proof.
  intros Hwf Hne Hnodup Hreg.
  destruct (getComponents_resolves t reqs Hwf Hne Hnodup Hreg)
    as [entities [Hget Hent]].
  exists entities. split; [exact Hget |]. split; [exact Hent |].
  now apply (entity_of_IDs (registry t)).
Qed.

(** X11. When the log cannot be created: on a valid request set, if CreateTX
    answers an error, Transaction returns (false, that error); its only
    call is that CreateTX, made with the requested participants in the
    order of the requests, and no participant is called. *)
Theorem Transaction_CreateTX_fails t (sched : list nat) reqs s (e : error) :
  registry_wf (registry t) ->
  reqs <> [] ->
  NoDup (map re_ComponentID reqs) ->
  Forall (fun req => is_Some (components (registry t) !! re_ComponentID req)) reqs ->
  (forall cs, fst (CreateTX (txStore t) cs (world s)) = Err e) ->
  fst (TXManager_Transaction t sched reqs s) = Ret (false, Some e) /\
  trace (snd (TXManager_Transaction t sched reqs s))
  = trace s ++ [CallCreateTX (map re_ComponentID reqs) (Err e)].
Proof.
  intros Hwf Hne Hnodup Hreg Hfail.
  destruct (getComponents_resolves t reqs Hwf Hne Hnodup Hreg) as [entities [Hget Hent]].
  unfold TXManager_Transaction. rewrite Hget. unfold bind, call_CreateTX, call.
  specialize (Hfail (ToComponents entities)).
  rewrite (entity_of_IDs _ _ _ Hwf Hent).
  destruct (CreateTX _ _ _) as [r w1]. simpl in Hfail. subst r. simpl.
  split; reflexivity.
Qed.

End Valid.

Lemma scenario_A_accepts : accepts scenario.A.
Proof. intros req w. eexists. split; reflexivity. Qed.

Lemma getComponents_valid_witness :
  exists entities,
    getComponents scenario.manager
      [ {| re_ComponentID := "B"; Request := {[ "biz_id" := "order-7" ]} |};
        {| re_ComponentID := "A"; Request := ∅ |} ] = Ret (Ok entities) /\
    Forall2 (entity_of (registry scenario.manager))
      [ {| re_ComponentID := "B"; Request := {[ "biz_id" := "order-7" ]} |};
        {| re_ComponentID := "A"; Request := ∅ |} ] entities /\
    map ID (ToComponents entities)
    = map re_ComponentID
        [ {| re_ComponentID := "B"; Request := {[ "biz_id" := "order-7" ]} |};
          {| re_ComponentID := "A"; Request := ∅ |} ].
Proof.
  apply (getComponents_valid scenario.manager
           [ {| re_ComponentID := "B"; Request := {[ "biz_id" := "order-7" ]} |};
             {| re_ComponentID := "A"; Request := ∅ |} ]).
  - exact Coordinator.scenario_manager_wf.
  - discriminate.
  - apply (bool_decide_unpack _). vm_compute. exact I.
  - repeat constructor; eexists; vm_compute; reflexivity.
Defined.

Lemma Transaction_all_accept_true_witness :
  fst (TXManager_Transaction scenario.manager [0%nat; 0%nat]
         [ {| re_ComponentID := "A"; Request := ∅ |} ] scenario.start)
  = Ret (true, None).
Proof.
  apply (Transaction_all_accept_true scenario.manager [0%nat; 0%nat]
           [ {| re_ComponentID := "A"; Request := ∅ |} ] scenario.start).
  - exact Coordinator.scenario_manager_wf.
  - discriminate.
  - apply (bool_decide_unpack _). vm_compute. exact I.
  - repeat constructor. exists scenario.A.
    split; [vm_compute; reflexivity | exact scenario_A_accepts].
  - intros cs w. eexists. reflexivity.
  - intros txID id accept w. reflexivity.
Defined.

(** A store like [scenario.store] whose CreateTX is out of order. *)
Lemma Transaction_CreateTX_fails_witness :
  let t := {| opts := opts scenario.manager;
              txStore := {| CreateTX := fun _ n => (Err "log unavailable", n);
                            TXUpdate := TXUpdate scenario.store;
                            TXSubmit := TXSubmit scenario.store;
                            GetHangingTXs := GetHangingTXs scenario.store;
                            GetTX := GetTX scenario.store;
                            Lock := Lock scenario.store;
                            Unlock := Unlock scenario.store |};
              registry := registry scenario.manager |} in
  let reqs := [ {| re_ComponentID := "A"; Request := ∅ |};
                {| re_ComponentID := "B"; Request := ∅ |} ] in
  fst (TXManager_Transaction t [] reqs scenario.start)
  = Ret (false, Some "log unavailable") /\
  trace (snd (TXManager_Transaction t [] reqs scenario.start))
  = trace scenario.start ++ [CallCreateTX ["A"; "B"] (Err "log unavailable")].
Proof.
  cbv zeta.
  apply (Transaction_CreateTX_fails
           {| opts := opts scenario.manager;
              txStore := {| CreateTX := fun _ n => (Err "log unavailable", n);
                            TXUpdate := TXUpdate scenario.store;
                            TXSubmit := TXSubmit scenario.store;
                            GetHangingTXs := GetHangingTXs scenario.store;
                            GetTX := GetTX scenario.store;
                            Lock := Lock scenario.store;
                            Unlock := Unlock scenario.store |};
              registry := registry scenario.manager |} []
           [ {| re_ComponentID := "A"; Request := ∅ |};
             {| re_ComponentID := "B"; Request := ∅ |} ] scenario.start
           "log unavailable").
  - exact Coordinator.scenario_manager_wf.
  - discriminate.
  - apply (bool_decide_unpack _). vm_compute. exact I.
  - repeat constructor; eexists; vm_compute; reflexivity.
  - intros cs. reflexivity.
Defined.

End Requests.

(** * Phase 2: what an advance does and never does *)

Module Advance.
Import component txmanager Notions MoreNotions scenario.

Section Advance.
Context {World : Type}.
Implicit Types (t : TXManager World) (s : State World) (tx : Transaction).

(** The calls of an advance: the phase-2 calls on a prefix of the stored
    participants, then at most one TXSubmit. *)
Lemma advanceProgress_trace t now tx s :
  let status := getStatus tx (Add now (neg64 (Timeout (opts t)))) in
  let success := bool_decide (status = TXSuccessful) in
  exists (rs : list (result TCCResp)) (submit : list Event),
    trace (snd (advanceProgress t now tx s))
    = trace s ++ zip_with (phase2_call success (tx_TXID tx)) (Components tx) rs
              ++ submit /\
    (status = TXHanging -> rs = [] /\ submit = []) /\
    (submit = [] \/
     submit = [CallTXSubmit (tx_TXID tx) success (fst (advanceProgress t now tx s))]).
Proof.
  cbv zeta. unfold advanceProgress.
  set (status := getStatus tx (Add now (neg64 (Timeout (opts t))))).
  destruct (decide (status = TXHanging)) as [Hhang | Hnot].
  { rewrite bool_decide_eq_true_2 by exact Hhang. exists [], []. simpl.
    rewrite zip_with_nil_r, !app_nil_r. split; [reflexivity |].
    split; [now split | now left]. }
  rewrite bool_decide_eq_false_2 by exact Hnot. unfold bind.
  destruct (Coordinator.advanceProgress_loop_trace t
              (bool_decide (status = TXSuccessful)) (tx_TXID tx) (Components tx) s)
    as [rs (Htrace & _ & _)].
  destruct (advanceProgress_loop t (bool_decide (status = TXSuccessful))
              (tx_TXID tx) (Components tx) s) as [[e |] s1]; simpl in *.
  - exists rs, []. rewrite app_nil_r. split; [exact Htrace |].
    split; [contradiction | now left].
  - unfold call_TXSubmit.
    pose proof (Coordinator.call_trace
                  (TXSubmit (txStore t) (tx_TXID tx)
                     (bool_decide (status = TXSuccessful)))
                  (CallTXSubmit (tx_TXID tx) (bool_decide (status = TXSuccessful)))
                  s1) as Hsubmit.
    eexists rs, [_]. rewrite Hsubmit, Htrace, <- app_assoc.
    split; [reflexivity |]. split; [contradiction | now right].
Qed.

(** X12. An advance never commits a transaction that is timed out or has a
    participant whose try status is not SUCCESSFUL: among the calls it makes
    there is no Confirm and no TXSubmit with success = true. *)
Theorem advanceProgress_never_commits t now tx s :
  Before (CreatedAt tx) (Add now (neg64 (Timeout (opts t)))) = true
  \/ Exists (fun c => TryStatus c <> TrySucceesful) (Components tx) ->
  exists evs,
    trace (snd (advanceProgress t now tx s)) = trace s ++ evs /\
    Forall (fun e => commits e = false) evs.
Proof.
  intros Hbad.
  destruct (advanceProgress_trace t now tx s) as (rs & submit & Htrace & _ & Hsubmit).
  cbv zeta in *.
  set (status := getStatus tx (Add now (neg64 (Timeout (opts t))))) in *.
  assert (Hstatus : bool_decide (status = TXSuccessful) = false).
  { apply bool_decide_eq_false_2. intros Hok.
    apply TxModel.getStatus_successful in Hok. destruct Hok as [Hnot Hall].
    destruct Hbad as [Hbefore | Hex]; [congruence |].
    apply Exists_exists in Hex. destruct Hex as [c [Hc Hne]].
    rewrite Forall_forall in Hall. now apply Hne, Hall. }
  rewrite Hstatus in *. eexists. split; [exact Htrace |].
  apply Forall_app. split.
  - generalize (Components tx). clear. intros cs. revert rs.
    induction cs as [| c cs IH]; intros [| r rs]; simpl; constructor; auto.
  - destruct Hsubmit as [-> | ->]; repeat constructor.
Qed.

Lemma advanceProgress_loop_unregistered t success txID
    (cs : list ComponentTryEntity) s :
  Exists (fun c => components (registry t) !! cte_ComponentID c = None) cs ->
  is_Some (fst (advanceProgress_loop t success txID cs s)).
Proof.
  revert s. induction cs as [| c cs IH]; intros s Hex; [inversion Hex |].
  simpl. rewrite Coordinator.registryCenter_getComponents_one.
  destruct (components (registry t) !! cte_ComponentID c) as [c0 |] eqn:Hc.
  - apply Exists_cons in Hex. destruct Hex as [Hex | Hex]; [congruence |].
    unfold bind. destruct (confirmOrCancel _ _ _ _ _) as [[resp | e] s1].
    + destruct (ACK resp); simpl; [now apply IH | now eexists].
    + now eexists.
  - now eexists.
Qed.

(** X13. A coordinator in whose registry a participant of the record is
    missing cannot finish the transaction: when the derived status is not
    HANGING, the advance returns an error and makes no TXSubmit. *)
Theorem advanceProgress_unregistered t now tx s :
  getStatus tx (Add now (neg64 (Timeout (opts t)))) <> TXHanging ->
  Exists (fun c => components (registry t) !! cte_ComponentID c = None)
         (Components tx) ->
  exists evs,
    is_Some (fst (advanceProgress t now tx s)) /\
    trace (snd (advanceProgress t now tx s)) = trace s ++ evs /\
    Forall (fun e => is_TXSubmit e = false) evs.
Proof.
  intros Hnot Hex. unfold advanceProgress.
  rewrite bool_decide_eq_false_2 by exact Hnot. unfold bind.
  set (success := bool_decide (_ = TXSuccessful)).
  pose proof (advanceProgress_loop_unregistered t success (tx_TXID tx)
                (Components tx) s Hex) as Herr.
  destruct (Coordinator.advanceProgress_loop_trace t success (tx_TXID tx)
              (Components tx) s) as [rs (Htrace & _ & _)].
  destruct (advanceProgress_loop t success (tx_TXID tx) (Components tx) s)
    as [[e |] s1]; simpl in *; [| destruct Herr; discriminate].
  eexists. split; [now eexists |]. split; [exact Htrace |].
  generalize (Components tx). clear. intros cs. revert rs.
  induction cs as [| c cs IH]; intros [| r rs]; simpl; constructor; auto.
  unfold phase2_call. now destruct success.
Qed.

Lemma advanceProgress_loop_settles t success txID
    (cs : list ComponentTryEntity) s :
  Forall (fun c => exists c0, components (registry t) !! cte_ComponentID c = Some c0
                              /\ settles c0) cs ->
  fst (advanceProgress_loop t success txID cs s) = None /\
  exists rs,
    length rs = length cs /\
    Forall (fun r => acked r = true) rs /\
    trace (snd (advanceProgress_loop t success txID cs s))
    = trace s ++ zip_with (phase2_call success txID) cs rs.
Proof.
  intros Hall.
  assert (Hnone : forall s, fst (advanceProgress_loop t success txID cs s) = None).
  { clear s. induction Hall as [| c cs [c0 [Hc Hsettle]] Hrest IH]; intros s;
      [reflexivity |].
    simpl. rewrite Coordinator.registryCenter_getComponents_one, Hc.
    unfold bind, confirmOrCancel, call_Confirm, call_Cancel, call.
    destruct (Hsettle txID (world s)) as [[r1 [H1 A1]] [r2 [H2 A2]]].
    destruct success.
    - destruct (Confirm c0 txID (world s)) as [r w1]. simpl in H1. subst r.
      rewrite A1. simpl. apply IH.
    - destruct (Cancel c0 txID (world s)) as [r w1]. simpl in H2. subst r.
      rewrite A2. simpl. apply IH. }
  split; [apply Hnone |].
  destruct (Coordinator.advanceProgress_loop_trace t success txID cs s)
    as [rs (Htrace & _ & Hdone)].
  destruct (Hdone (Hnone s)) as [Hlen Hacked]. now exists rs.
Qed.

(** X14. An advance that goes through: when the derived status is not
    HANGING, every participant of the record is registered and its Confirm
    and Cancel acknowledge, the advance calls every participant once, in
    the stored order, then calls TXSubmit once, and returns what TXSubmit
    returned. *)
Theorem advanceProgress_settles t now tx s :
  getStatus tx (Add now (neg64 (Timeout (opts t)))) <> TXHanging ->
  Forall (fun c => exists c0, components (registry t) !! cte_ComponentID c = Some c0
                              /\ settles c0) (Components tx) ->
  let success :=
    bool_decide (getStatus tx (Add now (neg64 (Timeout (opts t)))) = TXSuccessful) in
  exists rs,
    length rs = length (Components tx) /\
    Forall (fun r => acked r = true) rs /\
    trace (snd (advanceProgress t now tx s))
    = trace s ++ zip_with (phase2_call success (tx_TXID tx)) (Components tx) rs
              ++ [CallTXSubmit (tx_TXID tx) success
                    (fst (advanceProgress t now tx s))].
Proof.
  intros Hnot Hall. cbv zeta. unfold advanceProgress.
  rewrite bool_decide_eq_false_2 by exact Hnot. unfold bind.
  set (success := bool_decide (_ = TXSuccessful)).
  destruct (advanceProgress_loop_settles t success (tx_TXID tx) (Components tx) s Hall)
    as [Hnone (rs & Hlen & Hacked & Htrace)].
  destruct (advanceProgress_loop t success (tx_TXID tx) (Components tx) s)
    as [err s1]. simpl in *. subst err. unfold call_TXSubmit.
  exists rs. split; [exact Hlen |]. split; [exact Hacked |].
  rewrite Coordinator.call_trace, Htrace, <- app_assoc. reflexivity.
Qed.

End Advance.

Lemma advanceProgress_never_commits_witness :
  exists evs,
    trace (snd (advanceProgress scenario.manager (1 * Second) failed_tx
                  scenario.start)) = trace scenario.start ++ evs /\
    Forall (fun e => commits e = false) evs.
Proof.
  apply (advanceProgress_never_commits scenario.manager (1 * Second) failed_tx
           scenario.start).
  right. apply Exists_cons_tl, Exists_cons_hd. discriminate.
Defined.

Lemma advanceProgress_unregistered_witness :
  exists evs,
    is_Some (fst (advanceProgress scenario.manager (1 * Second)
                    {| tx_TXID := "tx-1";
                       Components := [ {| cte_ComponentID := "A";
                                          TryStatus := TrySucceesful |};
                                       {| cte_ComponentID := "C";
                                          TryStatus := TrySucceesful |} ];
                       Status := TXHanging; CreatedAt := 0 |} scenario.start)) /\
    trace (snd (advanceProgress scenario.manager (1 * Second)
                  {| tx_TXID := "tx-1";
                     Components := [ {| cte_ComponentID := "A";
                                        TryStatus := TrySucceesful |};
                                     {| cte_ComponentID := "C";
                                        TryStatus := TrySucceesful |} ];
                     Status := TXHanging; CreatedAt := 0 |} scenario.start))
    = trace scenario.start ++ evs /\
    Forall (fun e => is_TXSubmit e = false) evs.
Proof.
  apply (advanceProgress_unregistered scenario.manager (1 * Second)
           {| tx_TXID := "tx-1";
              Components := [ {| cte_ComponentID := "A"; TryStatus := TrySucceesful |};
                              {| cte_ComponentID := "C"; TryStatus := TrySucceesful |} ];
              Status := TXHanging; CreatedAt := 0 |} scenario.start).
  - vm_compute. discriminate.
  - apply Exists_cons_tl, Exists_cons_hd. vm_compute. reflexivity.
Defined.

Lemma scenario_settles id ack : settles (scenario.participant id ack).
Proof. intros txID w. split; eexists; split; reflexivity. Qed.

Lemma advanceProgress_settles_witness :
  exists rs,
    length rs = 2%nat /\
    Forall (fun r => acked r = true) rs /\
    trace (snd (advanceProgress scenario.manager (1 * Second) failed_tx
                  scenario.start))
    = zip_with (phase2_call false "tx-1") (Components failed_tx) rs
      ++ [CallTXSubmit "tx-1" false
            (fst (advanceProgress scenario.manager (1 * Second) failed_tx
                    scenario.start))].
Proof.
  apply (advanceProgress_settles scenario.manager (1 * Second) failed_tx
           scenario.start).
  - vm_compute. discriminate.
  - repeat constructor.
    + exists scenario.A. split; [vm_compute; reflexivity | apply scenario_settles].
    + exists scenario.B. split; [vm_compute; reflexivity | apply scenario_settles].
Defined.

End Advance.

(** * The sample participant through the life of a transaction *)

Module MockLife.
Import component redis_lock pkg example MockNotions MockProps.
Abbreviation order7 := scenario.order7.

(** ** The keys *)

Lemma string_app_length (s1 s2 : string) :
  String.length (s1 +:+ s2) = (String.length s1 + String.length s2)%nat.
Proof. induction s1 as [| a s1 IH]; simpl; [reflexivity | now rewrite IH]. Qed.

Lemma string_app_proper (s suffix : string) :
  suffix <> "" -> s <> s +:+ suffix.
Proof.
  intros Hne Heq. apply (f_equal String.length) in Heq.
  rewrite string_app_length in Heq.
  destruct suffix; [congruence | simpl in Heq; lia].
Qed.

Lemma TXKey_ne_DetailKey c tx c' tx' :
  BuildTXKey c tx <> BuildTXDetailKey c' tx'.
Proof.
  unfold BuildTXKey, BuildTXDetailKey. intros H.
  apply (f_equal (String.get 2)) in H. vm_compute in H. discriminate.
Qed.

Lemma DataKey_ne_DetailKey c tx biz c' tx' :
  BuildDataKey c tx biz <> BuildTXDetailKey c' tx'.
Proof.
  unfold BuildDataKey, BuildTXDetailKey. intros H.
  apply (f_equal (String.get 2)) in H. vm_compute in H. discriminate.
Qed.

Lemma TXKey_ne_DataKey c tx biz : BuildTXKey c tx <> BuildDataKey c tx biz.
Proof.
  unfold BuildTXKey, BuildDataKey. intros H.
  do 3 apply String.app_inj in H.
  now apply (string_app_proper tx (":" +:+ biz)) in H.
Qed.

(** The key of a transaction's business data is also the status key of
    another transaction identity, txID:bizID, of the same participant.  The
    status key and the detail key of a transaction never coincide with each
    other, nor with the data key of that transaction. *)
Lemma key_collision (c tx biz : string) :
  BuildDataKey c tx biz = BuildTXKey c (tx +:+ ":" +:+ biz) /\
  BuildTXKey c tx <> BuildDataKey c tx biz /\
  BuildTXKey c tx <> BuildTXDetailKey c tx /\
  BuildDataKey c tx biz <> BuildTXDetailKey c tx.
Proof.
  split; [reflexivity |]. split; [apply TXKey_ne_DataKey |].
  split; [apply TXKey_ne_DetailKey | apply DataKey_ne_DetailKey].
Qed.

(** ** Try *)

Lemma not_decided_empty :
  bool_decide ("" = TXTried) || bool_decide ("" = TXConfirmed) = false /\
  bool_decide ("" = TXCanceled) = false.
Proof. split; reflexivity. Qed.

(** The client's tests of an empty key or value: the keys and the status
    values are never empty, which conversion shows; the biz_id is not by
    hypothesis [Hbiz]. *)
Ltac pass_guards Hbiz :=
  repeat (match goal with
          | |- context [@bool_decide (?k = "") ?d] =>
              first [ change (@bool_decide (k = "") d) with false
                    | rewrite (bool_decide_eq_false_2 (k = "") Hbiz) ]
          end; cbn [orb faults held kv]).

Lemma Try_of_new (m : MockComponent) (req : TCCReq) (c : Client) :
  undisturbed m (req_TXID req) c ->
  biz_id_of req <> "" ->
  recorded m (req_TXID req) c = None ->
  kv c !! BuildDataKey (id m) (req_TXID req) (biz_id_of req) = None ->
  MockComponent_Try m req c
  = (Ok (response m (req_TXID req) true),
     {| kv := tried_kv m req (kv c); held := held c; faults := [] |}).
Proof.
  intros [Hfaults Hfree] Hbiz Hrec Hdata. unfold recorded in Hrec.
  unfold MockComponent_Try.
  apply (locked_undisturbed _ _ c _ (tried_kv m req (kv c)) Hfaults Hfree).
  intros h. run_client. rewrite Hrec. cbn [faults held kv].
  rewrite is_ErrNil_ErrNil. cbn [negb].
  destruct not_decided_empty as [H1 H2]. rewrite H1, H2. cbn [faults held kv].
  pass_guards Hbiz.
  rewrite lookup_insert_ne by (apply not_eq_sym, DataKey_ne_DetailKey).
  rewrite Hdata. reflexivity.
Qed.


Lemma Try_of_decided (m : MockComponent) (req : TCCReq) (c : Client) :
  undisturbed m (req_TXID req) c ->
  recorded m (req_TXID req) c = Some TXTried
  \/ recorded m (req_TXID req) c = Some TXConfirmed ->
  MockComponent_Try m req c = (Ok (response m (req_TXID req) true), c).
Proof.
  intros [Hfaults Hfree] Hrec. unfold recorded in Hrec.
  unfold MockComponent_Try.
  rewrite (locked_undisturbed _ _ c (Ok (response m (req_TXID req) true))
             (kv c) Hfaults Hfree).
  - rewrite <- Hfaults. f_equal. now apply client_eq.
  - intros h. run_client. destruct Hrec as [-> | ->]; reflexivity.
Qed.

(** Try of a transaction with no status on record whose business data is
    present: the SET NX of the data gets a nil reply, and Try returns the
    error [ErrNil]; the detail written before it stays. *)
Lemma Try_stuck (m : MockComponent) (req : TCCReq) (c : Client) (v : string) :
  undisturbed m (req_TXID req) c ->
  biz_id_of req <> "" ->
  recorded m (req_TXID req) c = None ->
  kv c !! BuildDataKey (id m) (req_TXID req) (biz_id_of req) = Some v ->
  MockComponent_Try m req c
  = (Err ErrNil,
     {| kv := <[BuildTXDetailKey (id m) (req_TXID req) := biz_id_of req]> (kv c);
        held := held c; faults := [] |}).
Proof.
  intros [Hfaults Hfree] Hbiz Hrec Hdata. unfold recorded in Hrec.
  unfold MockComponent_Try.
  apply (locked_undisturbed _ _ c _ _ Hfaults Hfree).
  intros h. run_client. rewrite Hrec. cbn [faults held kv].
  rewrite is_ErrNil_ErrNil. cbn [negb].
  destruct not_decided_empty as [H1 H2]. rewrite H1, H2. cbn [faults held kv].
  pass_guards Hbiz.
  rewrite lookup_insert_ne by (apply not_eq_sym, DataKey_ne_DetailKey).
  rewrite Hdata. reflexivity.
Qed.

(** ** Confirm *)

Lemma Confirm_of_tried (m : MockComponent) (txID bizID : string) (c : Client) :
  undisturbed m txID c ->
  recorded m txID c = Some TXTried ->
  kv c !! BuildTXDetailKey (id m) txID = Some bizID ->
  kv c !! BuildDataKey (id m) txID bizID = Some DataFrozen ->
  MockComponent_Confirm m txID c
  = (Ok (response m txID true),
     {| kv := confirmed_kv m txID bizID (kv c); held := held c; faults := [] |}).
Proof.
  intros [Hfaults Hfree] Hrec Hdetail Hdata. unfold recorded in Hrec.
  unfold MockComponent_Confirm.
  apply (locked_undisturbed _ _ c _ (confirmed_kv m txID bizID (kv c)) Hfaults Hfree).
  intros h. run_client. rewrite Hrec. cbn [faults held kv].
  change (bool_decide (TXTried = TXConfirmed)) with false.
  change (negb (bool_decide (TXTried = TXTried))) with false.
  cbn [faults held kv]. rewrite Hdetail. cbn [faults held kv].
  change (kv c !! BuildDataKey (id m) txID bizID = Some "frozen") in Hdata.
  rewrite Hdata. reflexivity.
Qed.

Lemma Confirm_of_confirmed (m : MockComponent) (txID : string) (c : Client) :
  undisturbed m txID c ->
  recorded m txID c = Some TXConfirmed ->
  MockComponent_Confirm m txID c = (Ok (response m txID true), c).
Proof.
  intros [Hfaults Hfree] Hrec. unfold recorded in Hrec.
  unfold MockComponent_Confirm.
  rewrite (locked_undisturbed _ _ c (Ok (response m txID true)) (kv c) Hfaults Hfree).
  - rewrite <- Hfaults. f_equal. now apply client_eq.
  - intros h. run_client. rewrite Hrec. reflexivity.
Qed.

(** X18. Confirm of a transaction of which the participant has no status on
    record (no Try was served) is answered with the error of the read of the
    absent status key, and changes nothing. *)
Theorem Confirm_before_Try_errors (m : MockComponent) (txID : string) (c : Client) :
  undisturbed m txID c ->
  recorded m txID c = None ->
  MockComponent_Confirm m txID c = (Err ErrNil, c).
Proof.
  intros [Hfaults Hfree] Hrec. unfold recorded in Hrec.
  unfold MockComponent_Confirm.
  rewrite (locked_undisturbed _ _ c (Err ErrNil) (kv c) Hfaults Hfree).
  - rewrite <- Hfaults. f_equal. now apply client_eq.
  - intros h. run_client. rewrite Hrec. reflexivity.
Qed.

Lemma Confirm_before_Try_errors_witness :
  MockComponent_Confirm (NewMockComponent "A") "tx-1" fresh_client
  = (Err ErrNil, fresh_client).
Proof.
  apply (Confirm_before_Try_errors (NewMockComponent "A") "tx-1" fresh_client).
  - split; [reflexivity |]. apply not_elem_of_empty.
  - reflexivity.
Defined.

(** ** The lock *)

Lemma locked_busy {A} (key : string) (body : stateM Client (result A)) (c : Client) :
  faults c = [] -> key ∈ held c ->
  locked key body c = (Err ErrNil, c).
Proof.
  intros Hfaults Hheld. destruct c as [k h f]. simpl in *. subst f.
  cbv [locked bind Lock roundtrip ret]; cbn [faults held kv].
  now rewrite bool_decide_eq_true_2.
Qed.

(** X19. While the lock of the transaction is held by somebody else, Try,
    Confirm and Cancel each return the error with which the lock answers,
    the nil reply of its SET NX (ErrNil), and leave the participant's data
    as it is. *)
Theorem operations_when_locked (m : MockComponent) (req : TCCReq) (c : Client) :
  faults c = [] ->
  BuildTXLockKey (id m) (req_TXID req) ∈ held c ->
  MockComponent_Try m req c = (Err ErrNil, c) /\
  MockComponent_Confirm m (req_TXID req) c = (Err ErrNil, c) /\
  MockComponent_Cancel m (req_TXID req) c = (Err ErrNil, c).
Proof.
  intros Hfaults Hheld.
  unfold MockComponent_Try, MockComponent_Confirm, MockComponent_Cancel.
  split; [| split]; now apply locked_busy.
Qed.

Lemma operations_when_locked_witness :
  let m := NewMockComponent "A" in
  let req := {| req_ComponentID := "A"; req_TXID := "tx-1"; Data := ∅ |} in
  let c := {| kv := ∅; held := {[ BuildTXLockKey "A" "tx-1" ]}; faults := [] |} in
  MockComponent_Try m req c = (Err ErrNil, c) /\
  MockComponent_Confirm m "tx-1" c = (Err ErrNil, c) /\
  MockComponent_Cancel m "tx-1" c = (Err ErrNil, c).
Proof.
  cbv zeta.
  apply (operations_when_locked (NewMockComponent "A")
           {| req_ComponentID := "A"; req_TXID := "tx-1"; Data := ∅ |}
           {| kv := ∅; held := {[ BuildTXLockKey "A" "tx-1" ]}; faults := [] |}).
  - reflexivity.
  - vm_compute. reflexivity.
Defined.

(** ** Sequences of operations *)

Lemma tried_kv_lookups (m : MockComponent) (req : TCCReq) (k : gmap string string) :
  tried_kv m req k !! BuildTXKey (id m) (req_TXID req) = Some "tried" /\
  tried_kv m req k !! BuildDataKey (id m) (req_TXID req) (biz_id_of req)
  = Some "frozen" /\
  tried_kv m req k !! BuildTXDetailKey (id m) (req_TXID req)
  = Some (biz_id_of req).
Proof.
  unfold tried_kv. split; [apply lookup_insert_eq |]. split.
  - rewrite lookup_insert_ne by apply TXKey_ne_DataKey. apply lookup_insert_eq.
  - rewrite lookup_insert_ne by apply TXKey_ne_DetailKey.
    rewrite lookup_insert_ne by apply DataKey_ne_DetailKey.
    apply lookup_insert_eq.
Qed.

(** X15. Try of a transaction the participant holds nothing of, on a
    request whose biz_id is not empty: it acknowledges, records the status
    tried, freezes the business data and keeps the biz_id as the detail of
    the transaction, with the lock released; the same Try repeated
    acknowledges again and changes nothing. *)
Theorem Try_accepts_then_repeats (m : MockComponent) (req : TCCReq) (c : Client) :
  undisturbed m (req_TXID req) c ->
  biz_id_of req <> "" ->
  unseen m req c ->
  let c1 := snd (MockComponent_Try m req c) in
  fst (MockComponent_Try m req c) = Ok (response m (req_TXID req) true) /\
  recorded m (req_TXID req) c1 = Some TXTried /\
  data_of m req c1 = Some DataFrozen /\
  kv c1 !! BuildTXDetailKey (id m) (req_TXID req) = Some (biz_id_of req) /\
  held c1 = held c /\
  MockComponent_Try m req c1 = (Ok (response m (req_TXID req) true), c1).
Proof.
  intros Hclean Hbiz [Hrec Hdata]. cbv zeta.
  rewrite (Try_of_new m req c Hclean Hbiz Hrec Hdata). cbn [fst snd].
  destruct (tried_kv_lookups m req (kv c)) as (H1 & H2 & H3).
  split; [reflexivity |]. split; [exact H1 |]. split; [exact H2 |].
  split; [exact H3 |]. split; [reflexivity |].
  apply Try_of_decided.
  - destruct Hclean as [_ Hfree]. split; [reflexivity | exact Hfree].
  - left. exact H1.
Qed.

(** X16. Try then Confirm: after the Try of a transaction the participant
    held nothing of, on a request whose biz_id is not empty, Confirm
    acknowledges, records the status confirmed and turns the business data
    to successful; Confirm repeated acknowledges and changes nothing, a
    late Try is acknowledged, and Cancel is an error that changes
    nothing. *)
Theorem Try_then_Confirm (m : MockComponent) (req : TCCReq) (c : Client) :
  undisturbed m (req_TXID req) c ->
  biz_id_of req <> "" ->
  unseen m req c ->
  let txID := req_TXID req in
  let c1 := snd (MockComponent_Try m req c) in
  let c2 := snd (MockComponent_Confirm m txID c1) in
  fst (MockComponent_Confirm m txID c1) = Ok (response m txID true) /\
  recorded m txID c2 = Some TXConfirmed /\
  data_of m req c2 = Some DataSuccessful /\
  MockComponent_Confirm m txID c2 = (Ok (response m txID true), c2) /\
  MockComponent_Try m req c2 = (Ok (response m txID true), c2) /\
  MockComponent_Cancel m txID c2
  = (Err ("invalid tx status: confirmed, txid: " +:+ txID), c2).
Proof.
  intros Hclean Hbiz [Hrec Hdata]. cbv zeta.
  rewrite (Try_of_new m req c Hclean Hbiz Hrec Hdata). cbn [fst snd].
  destruct (tried_kv_lookups m req (kv c)) as (H1 & H2 & H3).
  destruct Hclean as [_ Hfree].
  rewrite (Confirm_of_tried m (req_TXID req) (biz_id_of req)
             {| kv := tried_kv m req (kv c); held := held c; faults := [] |});
    [| split; [reflexivity | exact Hfree] | exact H1 | exact H3 | exact H2].
  cbn [fst snd kv].
  assert (Hconf : confirmed_kv m (req_TXID req) (biz_id_of req)
                    (tried_kv m req (kv c)) !! BuildTXKey (id m) (req_TXID req)
                  = Some "confirmed") by apply lookup_insert_eq.
  assert (Hclean2 : undisturbed m (req_TXID req)
            {| kv := confirmed_kv m (req_TXID req) (biz_id_of req)
                       (tried_kv m req (kv c));
               held := held c; faults := [] |})
    by (split; [reflexivity | exact Hfree]).
  split; [reflexivity |]. split; [exact Hconf |]. split.
  { unfold data_of, confirmed_kv. cbn [kv].
    rewrite lookup_insert_ne by apply TXKey_ne_DataKey. apply lookup_insert_eq. }
  split; [now apply Confirm_of_confirmed |].
  split; [apply Try_of_decided; [exact Hclean2 | now right] |].
  now apply Cancel_of_confirmed_errors.
Qed.

Lemma canceled_kv_idem (m : MockComponent) (txID bizID : string)
    (k : gmap string string) :
  canceled_kv m txID bizID (canceled_kv m txID bizID k) = canceled_kv m txID bizID k.
Proof.
  unfold canceled_kv. destruct (bool_decide (bizID = "")).
  - apply insert_insert_eq.
  - rewrite delete_insert_ne by apply not_eq_sym, TXKey_ne_DataKey.
    rewrite delete_delete_eq. apply insert_insert_eq.
Qed.

(** X17. Try then Cancel: after the Try of a transaction the participant
    held nothing of, on a request whose biz_id is not empty, Cancel
    acknowledges, records the status canceled and deletes the frozen
    business data; Cancel repeated acknowledges and changes nothing, and
    Confirm is refused with ack = false. *)
Theorem Try_then_Cancel (m : MockComponent) (req : TCCReq) (c : Client) :
  undisturbed m (req_TXID req) c ->
  biz_id_of req <> "" ->
  unseen m req c ->
  let txID := req_TXID req in
  let c1 := snd (MockComponent_Try m req c) in
  let c3 := snd (MockComponent_Cancel m txID c1) in
  fst (MockComponent_Cancel m txID c1) = Ok (response m txID true) /\
  recorded m txID c3 = Some TXCanceled /\
  data_of m req c3 = None /\
  MockComponent_Cancel m txID c3 = (Ok (response m txID true), c3) /\
  MockComponent_Confirm m txID c3 = (Ok (response m txID false), c3).
Proof.
  intros Hclean Hbiz [Hrec Hdata]. cbv zeta.
  rewrite (Try_of_new m req c Hclean Hbiz Hrec Hdata). cbn [fst snd].
  destruct (tried_kv_lookups m req (kv c)) as (H1 & H2 & H3).
  destruct Hclean as [_ Hfree].
  rewrite (Cancel_with_detail_acks m (req_TXID req) (biz_id_of req)
             {| kv := tried_kv m req (kv c); held := held c; faults := [] |});
    [| unfold recorded; cbn [kv]; rewrite H1; discriminate | exact H3
     | split; [reflexivity | exact Hfree]].
  cbn [fst snd kv held faults].
  set (k3 := canceled_kv m (req_TXID req) (biz_id_of req) (tried_kv m req (kv c))).
  assert (Hk3 : k3 = <[BuildTXKey (id m) (req_TXID req) := TXCanceled]>
                       (delete (BuildDataKey (id m) (req_TXID req) (biz_id_of req))
                          (tried_kv m req (kv c)))).
  { unfold k3, canceled_kv. now rewrite (bool_decide_eq_false_2 _ Hbiz). }
  assert (Hcanceled : k3 !! BuildTXKey (id m) (req_TXID req) = Some "canceled")
    by apply lookup_insert_eq.
  assert (Hdetail : k3 !! BuildTXDetailKey (id m) (req_TXID req)
                    = Some (biz_id_of req)).
  { rewrite Hk3. rewrite lookup_insert_ne by apply TXKey_ne_DetailKey.
    rewrite lookup_delete_ne by apply DataKey_ne_DetailKey. exact H3. }
  assert (Hclean3 : undisturbed m (req_TXID req)
                      {| kv := k3; held := held c; faults := [] |})
    by (split; [reflexivity | exact Hfree]).
  split; [reflexivity |]. split; [exact Hcanceled |]. split.
  { unfold data_of. cbn [kv]. rewrite Hk3.
    rewrite lookup_insert_ne by apply TXKey_ne_DataKey.
    apply lookup_delete_eq. }
  split.
  - rewrite (Cancel_with_detail_acks m (req_TXID req) (biz_id_of req)
               {| kv := k3; held := held c; faults := [] |});
      [| unfold recorded; cbn [kv]; rewrite Hcanceled; discriminate
       | exact Hdetail | exact Hclean3].
    cbn [kv held]. unfold k3. now rewrite canceled_kv_idem.
  - now apply Confirm_of_canceled_nacks.
Qed.

(** ** A Try cut short *)

(** X20. A Try whose last write fails is not repaired by a retry: on a
    transaction the participant holds nothing of and a request whose biz_id
    is not empty, when the four round trips up to the freezing of the data
    go through and the write of the status fails, Try returns that error,
    with the data frozen and no status on record; the same Try sent again,
    undisturbed, then meets the frozen data: its SET NX gets a nil reply,
    and Try returns the error ErrNil and changes nothing. *)
Theorem Try_after_failed_status_write (m : MockComponent) (req : TCCReq)
    (c : Client) (e : error) :
  BuildTXLockKey (id m) (req_TXID req) ∉ held c ->
  biz_id_of req <> "" ->
  unseen m req c ->
  faults c = [None; None; None; None; Some e] ->
  let c1 := snd (MockComponent_Try m req c) in
  fst (MockComponent_Try m req c) = Err e /\
  recorded m (req_TXID req) c1 = None /\
  data_of m req c1 = Some DataFrozen /\
  undisturbed m (req_TXID req) c1 /\
  MockComponent_Try m req c1 = (Err ErrNil, c1).
Proof.
  intros Hfree Hbiz [Hrec Hdata] Hfaults. cbv zeta.
  destruct c as [k h f]. unfold recorded in Hrec. cbn [kv held faults] in *.
  subst f.
  assert (Hrun : MockComponent_Try m req
                   {| kv := k; held := h;
                      faults := [None; None; None; None; Some e] |}
                 = (Err e,
                    {| kv := <[BuildDataKey (id m) (req_TXID req) (biz_id_of req)
                                 := "frozen"]>
                               (<[BuildTXDetailKey (id m) (req_TXID req)
                                    := biz_id_of req]> k);
                       held := h; faults := [] |})).
  { cbv [MockComponent_Try locked bind ret Lock Unlock Get Set_ SetNX roundtrip
           check check_unless_ErrNil]; cbn [faults held kv].
    rewrite bool_decide_eq_false_2 by exact Hfree. cbn [faults held kv].
    rewrite Hrec. rewrite is_ErrNil_ErrNil. cbn [negb].
    destruct not_decided_empty as [H1 H2]. rewrite H1, H2. cbn [faults held kv].
    pass_guards Hbiz.
    rewrite lookup_insert_ne by (apply not_eq_sym, DataKey_ne_DetailKey).
    rewrite Hdata. cbn [faults held kv Z.eqb Pos.eqb negb].
    pass_guards Hbiz.
    now rewrite release_acquire. }
  rewrite Hrun. cbn [fst snd].
  assert (Hrec1 : (<[BuildDataKey (id m) (req_TXID req) (biz_id_of req) := "frozen"]>
                     (<[BuildTXDetailKey (id m) (req_TXID req) := biz_id_of req]> k))
                  !! BuildTXKey (id m) (req_TXID req) = None).
  { rewrite lookup_insert_ne by apply not_eq_sym, TXKey_ne_DataKey.
    rewrite lookup_insert_ne by apply not_eq_sym, TXKey_ne_DetailKey. exact Hrec. }
  assert (Hclean1 : undisturbed m (req_TXID req)
            {| kv := <[BuildDataKey (id m) (req_TXID req) (biz_id_of req) := "frozen"]>
                       (<[BuildTXDetailKey (id m) (req_TXID req) := biz_id_of req]> k);
               held := h; faults := [] |})
    by (split; [reflexivity | exact Hfree]).
  split; [reflexivity |]. split; [exact Hrec1 |].
  split; [apply lookup_insert_eq |]. split; [exact Hclean1 |].
  rewrite (Try_stuck m req _ "frozen" Hclean1 Hbiz Hrec1);
    [| apply lookup_insert_eq].
  cbn [kv held]. f_equal. f_equal. apply insert_id.
  rewrite lookup_insert_ne by apply DataKey_ne_DetailKey.
  apply lookup_insert_eq.
Qed.

(** ** One participant, two transaction identities *)

Lemma Confirm_of_undecided (m : MockComponent) (txID v : string) (c : Client) :
  undisturbed m txID c ->
  recorded m txID c = Some v ->
  v <> TXConfirmed -> v <> TXTried ->
  MockComponent_Confirm m txID c = (Ok (response m txID false), c).
Proof.
  intros [Hfaults Hfree] Hrec Hv1 Hv2. unfold recorded in Hrec.
  unfold MockComponent_Confirm.
  rewrite (locked_undisturbed _ _ c (Ok (response m txID false)) (kv c) Hfaults Hfree).
  - rewrite <- Hfaults. f_equal. now apply client_eq.
  - intros h. run_client. rewrite Hrec. cbn [faults held kv].
    rewrite (bool_decide_eq_false_2 (v = TXConfirmed)) by exact Hv1.
    rewrite (bool_decide_eq_false_2 (v = TXTried)) by exact Hv2. reflexivity.
Qed.

(** X21. The data key of a transaction is the status key of another
    identity: after the Try of transaction txID with a biz_id b that is not
    empty, the participant reads "frozen" as the status of the identity
    txID:b, and a Confirm for that identity, of which no Try was ever
    served, is answered with ack = false and no error. *)
Theorem Try_marks_another_identity (m : MockComponent) (req : TCCReq) (c : Client) :
  undisturbed m (req_TXID req) c ->
  biz_id_of req <> "" ->
  unseen m req c ->
  let other := req_TXID req +:+ ":" +:+ biz_id_of req in
  let c1 := snd (MockComponent_Try m req c) in
  BuildTXLockKey (id m) other ∉ held c ->
  recorded m other c1 = Some DataFrozen /\
  MockComponent_Confirm m other c1 = (Ok (response m other false), c1).
Proof.
  intros Hclean Hbiz [Hrec Hdata]. cbv zeta. intros Hfree.
  rewrite (Try_of_new m req c Hclean Hbiz Hrec Hdata). cbn [fst snd].
  destruct (tried_kv_lookups m req (kv c)) as (_ & H2 & _).
  assert (Hother : recorded m (req_TXID req +:+ ":" +:+ biz_id_of req)
                     {| kv := tried_kv m req (kv c); held := held c; faults := [] |}
                   = Some "frozen") by exact H2.
  split; [exact Hother |].
  apply (Confirm_of_undecided m _ "frozen");
    [split; [reflexivity | exact Hfree] | exact Hother | discriminate | discriminate].
Qed.

(** ** The sequences on an example *)

Lemma fresh_undisturbed txID : undisturbed (NewMockComponent "A") txID fresh_client.
Proof. split; [reflexivity | apply not_elem_of_empty]. Qed.

Lemma fresh_unseen : unseen (NewMockComponent "A") order7 fresh_client.
Proof. split; reflexivity. Qed.


Lemma order7_biz_id : biz_id_of order7 <> "".
Proof. vm_compute. discriminate. Qed.

Lemma Try_accepts_then_repeats_witness :
  let m := NewMockComponent "A" in
  let c1 := snd (MockComponent_Try m order7 fresh_client) in
  fst (MockComponent_Try m order7 fresh_client) = Ok (response m "tx-1" true) /\
  recorded m "tx-1" c1 = Some TXTried /\
  data_of m order7 c1 = Some DataFrozen /\
  kv c1 !! BuildTXDetailKey "A" "tx-1" = Some "order-7" /\
  held c1 = held fresh_client /\
  MockComponent_Try m order7 c1 = (Ok (response m "tx-1" true), c1).
Proof.
  exact (Try_accepts_then_repeats (NewMockComponent "A") order7 fresh_client
           (fresh_undisturbed "tx-1") order7_biz_id fresh_unseen).
Defined.

Lemma Try_then_Confirm_witness :
  let m := NewMockComponent "A" in
  let c1 := snd (MockComponent_Try m order7 fresh_client) in
  let c2 := snd (MockComponent_Confirm m "tx-1" c1) in
  fst (MockComponent_Confirm m "tx-1" c1) = Ok (response m "tx-1" true) /\
  recorded m "tx-1" c2 = Some TXConfirmed /\
  data_of m order7 c2 = Some DataSuccessful /\
  MockComponent_Confirm m "tx-1" c2 = (Ok (response m "tx-1" true), c2) /\
  MockComponent_Try m order7 c2 = (Ok (response m "tx-1" true), c2) /\
  MockComponent_Cancel m "tx-1" c2
  = (Err "invalid tx status: confirmed, txid: tx-1", c2).
Proof.
  exact (Try_then_Confirm (NewMockComponent "A") order7 fresh_client
           (fresh_undisturbed "tx-1") order7_biz_id fresh_unseen).
Defined.

Lemma Try_then_Cancel_witness :
  let m := NewMockComponent "A" in
  let c1 := snd (MockComponent_Try m order7 fresh_client) in
  let c3 := snd (MockComponent_Cancel m "tx-1" c1) in
  fst (MockComponent_Cancel m "tx-1" c1) = Ok (response m "tx-1" true) /\
  recorded m "tx-1" c3 = Some TXCanceled /\
  data_of m order7 c3 = None /\
  MockComponent_Cancel m "tx-1" c3 = (Ok (response m "tx-1" true), c3) /\
  MockComponent_Confirm m "tx-1" c3 = (Ok (response m "tx-1" false), c3).
Proof.
  exact (Try_then_Cancel (NewMockComponent "A") order7 fresh_client
           (fresh_undisturbed "tx-1") order7_biz_id fresh_unseen).
Defined.

Lemma Try_after_failed_status_write_witness :
  let m := NewMockComponent "A" in
  let c := {| kv := ∅; held := ∅;
              faults := [None; None; None; None; Some "i/o timeout"] |} in
  let c1 := snd (MockComponent_Try m order7 c) in
  fst (MockComponent_Try m order7 c) = Err "i/o timeout" /\
  recorded m "tx-1" c1 = None /\
  data_of m order7 c1 = Some DataFrozen /\
  undisturbed m "tx-1" c1 /\
  MockComponent_Try m order7 c1 = (Err ErrNil, c1).
Proof.
  apply (Try_after_failed_status_write (NewMockComponent "A") order7
           {| kv := ∅; held := ∅;
              faults := [None; None; None; None; Some "i/o timeout"] |}
           "i/o timeout").
  - apply not_elem_of_empty.
  - exact order7_biz_id.
  - split; reflexivity.
  - reflexivity.
Defined.

Lemma Try_marks_another_identity_witness :
  let m := NewMockComponent "A" in
  let c1 := snd (MockComponent_Try m order7 fresh_client) in
  recorded m "tx-1:order-7" c1 = Some DataFrozen /\
  MockComponent_Confirm m "tx-1:order-7" c1
  = (Ok (response m "tx-1:order-7" false), c1).
Proof.
  apply (Try_marks_another_identity (NewMockComponent "A") order7 fresh_client
           (fresh_undisturbed "tx-1") order7_biz_id fresh_unseen).
  apply not_elem_of_empty.
Defined.

End MockLife.

(** * The recovery loop *)

Module Recovery.
Import component txmanager recovery Notions MoreNotions.

Section Batch.
Context {World : Type}.
Implicit Types (t : TXManager World) (s : State World) (a : advancer)
  (ws : list advancer).

(** A step of a goroutine followed by the rest of its run is its run. *)
Lemma advancer_step_finish t a s :
  bind (advancer_step t a) (advancer_finish t) s = advancer_finish t a s.
Proof.
  unfold bind, advancer_step, advancer_finish.
  destruct (adv_at a) as [| success [| c rest] | e |] eqn:Hat.
  - unfold advanceProgress.
    destruct (bool_decide (getStatus (adv_tx a)
                (Add (adv_now a) (neg64 (Timeout (opts t)))) = TXHanging));
      reflexivity.
  - simpl. unfold bind, ret.
    destruct (call_TXSubmit t (tx_TXID (adv_tx a)) success s) as [[e |] s1];
      reflexivity.
  - simpl.
    destruct (registryCenter_getComponents (registry t) [cte_ComponentID c])
      as [[| c0 cs] | e]; try reflexivity.
    unfold bind.
    destruct (confirmOrCancel success (tx_TXID (adv_tx a)) (cte_ComponentID c) c0 s)
      as [[resp | e] s1]; [| reflexivity].
    destruct (ACK resp); reflexivity.
  - simpl. now rewrite Hat.
  - simpl. now rewrite Hat.
Qed.

Lemma batch_all_done t sched ws firstErr s :
  forallb done ws = true -> batch t sched ws firstErr s = (firstErr, s).
Proof. intros H. destruct sched; simpl; now rewrite H. Qed.

Lemma batch_single t sched a s :
  batch t sched [a] None s = advancer_finish t a s.
Proof.
  revert a s. induction sched as [| i sched IH]; intros a s.
  - simpl. unfold done, advancer_finish.
    destruct (adv_at a) eqn:Hat; simpl; unfold bind, advancer_finish;
      rewrite ?Hat; try reflexivity;
      match goal with |- (let '(_, _) := ?m in _) = _ =>
        destruct m as [[e |] s1]; reflexivity end.
  - simpl. unfold done at 1.
    destruct (adv_at a) as [| success rest | e |] eqn:Hat.
    + destruct i as [| i]; simpl; rewrite ?Hat.
      * unfold bind. rewrite <- (advancer_step_finish t a s). unfold bind.
        destruct (advancer_step t a s) as [a' s1]. apply IH.
      * rewrite IH. reflexivity.
    + destruct i as [| i]; simpl; rewrite ?Hat.
      * unfold bind. rewrite <- (advancer_step_finish t a s). unfold bind.
        destruct (advancer_step t a s) as [a' s1]. apply IH.
      * rewrite IH. reflexivity.
    + destruct i as [| i]; simpl; rewrite ?Hat.
      * rewrite batch_all_done by reflexivity.
        unfold advancer_finish. now rewrite Hat.
      * rewrite IH. reflexivity.
    + simpl. unfold advancer_finish. now rewrite Hat.
Qed.

(** X22. A batch of one transaction is one advance: for every schedule,
    batchAdvanceProgress of a single transaction returns what
    advanceProgress returns on it and makes the same calls. *)
Theorem batchAdvanceProgress_single t (sched : list nat) (clock : nat -> Time)
    (tx : Transaction) s :
  batchAdvanceProgress t sched clock [tx] s = advanceProgress t (clock 0%nat) tx s.
Proof.
  unfold batchAdvanceProgress. simpl. now rewrite batch_single.
Qed.

(** An empty batch returns nil and calls nothing. *)
Lemma batchAdvanceProgress_nil t (sched : list nat) (clock : nat -> Time) s :
  batchAdvanceProgress t sched clock [] s = (None, s).
Proof. unfold batchAdvanceProgress. now destruct sched. Qed.

(** ** What a batch commits *)

Lemma own_phase2_calls txID success (cs : list ComponentTryEntity)
    (rs : list (result TCCResp)) :
  Forall (own txID success) (zip_with (phase2_call success txID) cs rs).
Proof.
  revert rs. induction cs as [| c cs IH]; intros [| r rs]; simpl; constructor; auto.
  unfold own, phase2_call. destruct success; simpl; intros x Hx;
    [injection Hx as <-; auto | discriminate].
Qed.

Lemma own_TXSubmit txID success r : own txID success (CallTXSubmit txID success r).
Proof.
  unfold own. destruct success; simpl; intros x Hx;
    [injection Hx as <-; auto | discriminate].
Qed.

Lemma own_warranted t clock (txs : list Transaction) a e :
  (exists i, txs !! i = Some (adv_tx a) /\ adv_now a = clock i) ->
  own (tx_TXID (adv_tx a))
      (bool_decide (getStatus (adv_tx a)
                      (Add (adv_now a) (neg64 (Timeout (opts t)))) = TXSuccessful)) e ->
  warranted t clock txs e.
Proof.
  intros [i [Hi Hnow]] Hown txID He. destruct (Hown txID He) as [-> Hok].
  apply bool_decide_eq_true_1 in Hok. exists i, (adv_tx a).
  rewrite <- Hnow. auto.
Qed.

(** The calls of the rest of an advance, from the loop on. *)
Lemma advance_tail_own t success txID (cs : list ComponentTryEntity) s :
  exists evs,
    trace (snd (bind (advanceProgress_loop t success txID cs)
                  (fun err => match err with
                              | Some e => ret (Some e)
                              | None => call_TXSubmit t txID success
                              end) s))
    = trace s ++ evs /\
    Forall (own txID success) evs.
Proof.
  unfold bind.
  destruct (Coordinator.advanceProgress_loop_trace t success txID cs s)
    as [rs (Htrace & _ & _)].
  destruct (advanceProgress_loop t success txID cs s) as [[e |] s1]; simpl in *.
  - eexists. split; [exact Htrace | apply own_phase2_calls].
  - unfold call_TXSubmit. rewrite Coordinator.call_trace, Htrace, <- app_assoc.
    eexists. split; [reflexivity |]. apply Forall_app. split.
    + apply own_phase2_calls.
    + constructor; [apply own_TXSubmit | constructor].
Qed.

Lemma advancer_finish_warranted t clock (txs : list Transaction) a s :
  sound t clock txs a ->
  exists evs,
    trace (snd (advancer_finish t a s)) = trace s ++ evs /\
    Forall (warranted t clock txs) evs.
Proof.
  intros [Hidx Hat]. unfold advancer_finish.
  destruct (adv_at a) as [| success rest | e |].
  - unfold advanceProgress.
    destruct (bool_decide (_ = TXHanging)).
    + exists []. simpl. now rewrite app_nil_r.
    + destruct (advance_tail_own t
                  (bool_decide (getStatus (adv_tx a)
                     (Add (adv_now a) (neg64 (Timeout (opts t)))) = TXSuccessful))
                  (tx_TXID (adv_tx a)) (Components (adv_tx a)) s) as [evs [Htrace Hown]].
      exists evs. split; [exact Htrace |].
      eapply Forall_impl; [exact Hown |]. intros e. now apply own_warranted.
  - subst success.
    destruct (advance_tail_own t
                (bool_decide (getStatus (adv_tx a)
                   (Add (adv_now a) (neg64 (Timeout (opts t)))) = TXSuccessful))
                (tx_TXID (adv_tx a)) rest s) as [evs [Htrace Hown]].
    exists evs. split; [exact Htrace |].
    eapply Forall_impl; [exact Hown |]. intros e. now apply own_warranted.
  - exists []. simpl. now rewrite app_nil_r.
  - exists []. simpl. now rewrite app_nil_r.
Qed.

Lemma advancer_step_warranted t clock (txs : list Transaction) a s :
  sound t clock txs a ->
  sound t clock txs (fst (advancer_step t a s)) /\
  exists evs,
    trace (snd (advancer_step t a s)) = trace s ++ evs /\
    Forall (warranted t clock txs) evs.
Proof.
  intros [Hidx Hat]. unfold advancer_step.
  destruct (adv_at a) as [| success [| c rest] | e |] eqn:Hpoint.
  - destruct (bool_decide (_ = TXHanging)); simpl.
    + split; [split; [exact Hidx | exact I] |]. exists []. now rewrite app_nil_r.
    + split; [split; [exact Hidx | reflexivity] |]. exists []. now rewrite app_nil_r.
  - unfold bind, call_TXSubmit.
    pose proof (Coordinator.call_trace
                  (TXSubmit (txStore t) (tx_TXID (adv_tx a)) success)
                  (CallTXSubmit (tx_TXID (adv_tx a)) success) s) as Hcall.
    destruct (call _ _ s) as [r s1]. simpl in Hcall.
    assert (Hev : Forall (warranted t clock txs)
                    [CallTXSubmit (tx_TXID (adv_tx a)) success r]).
    { constructor; [| constructor]. apply (own_warranted t clock txs a); [exact Hidx |].
      rewrite <- Hat. apply own_TXSubmit. }
    destruct r as [e |]; simpl; (split; [split; [exact Hidx | exact I] |]);
      eexists; (split; [exact Hcall | exact Hev]).
  - destruct (registryCenter_getComponents (registry t) [cte_ComponentID c])
      as [[| c0 cs] | e]; simpl;
      try (split; [split; [exact Hidx | exact I] |]; exists [];
           now rewrite app_nil_r).
    unfold bind.
    pose proof (Coordinator.confirmOrCancel_trace success (tx_TXID (adv_tx a))
                  (cte_ComponentID c) c0 s) as Hcall.
    destruct (confirmOrCancel success (tx_TXID (adv_tx a)) (cte_ComponentID c) c0 s)
      as [r s1]. simpl in Hcall.
    assert (Hev : Forall (warranted t clock txs)
                    [(if success then CallConfirm (cte_ComponentID c) (tx_TXID (adv_tx a))
                      else CallCancel (cte_ComponentID c) (tx_TXID (adv_tx a))) r]).
    { constructor; [| constructor]. apply (own_warranted t clock txs a); [exact Hidx |].
      rewrite <- Hat. unfold own. destruct success; simpl; intros x Hx;
        [injection Hx as <-; auto | discriminate]. }
    destruct r as [resp | e]; [destruct (ACK resp) |]; simpl;
      (split; [split; [exact Hidx | simpl; try exact I; exact Hat] |]);
      eexists; (split; [exact Hcall | exact Hev]).
  - simpl. split; [split; [exact Hidx | now rewrite Hpoint] |].
    exists []. now rewrite app_nil_r.
  - simpl. split; [split; [exact Hidx | now rewrite Hpoint] |].
    exists []. now rewrite app_nil_r.
Qed.

Lemma batch_drain_warranted t clock (txs : list Transaction) ws firstErr s :
  Forall (sound t clock txs) ws ->
  exists evs,
    trace (snd (batch_drain t ws firstErr s)) = trace s ++ evs /\
    Forall (warranted t clock txs) evs.
Proof.
  revert firstErr s. induction ws as [| a ws IH]; intros firstErr s Hall; simpl.
  - exists []. now rewrite app_nil_r.
  - apply Forall_cons in Hall. destruct Hall as [Ha Hall]. unfold bind.
    destruct (advancer_finish_warranted t clock txs a s Ha) as [evs1 [H1 W1]].
    destruct (advancer_finish t a s) as [r s1]. simpl in H1.
    destruct (IH (match r with Some e => keep_first firstErr e | None => firstErr end)
                s1 Hall) as [evs2 [H2 W2]].
    exists (evs1 ++ evs2). rewrite H2, H1, <- app_assoc. split; [reflexivity |].
    apply Forall_app. now split.
Qed.

Lemma batch_warranted t clock (txs : list Transaction) sched ws firstErr s :
  Forall (sound t clock txs) ws ->
  exists evs,
    trace (snd (batch t sched ws firstErr s)) = trace s ++ evs /\
    Forall (warranted t clock txs) evs.
Proof.
  revert ws firstErr s. induction sched as [| i sched IH]; intros ws firstErr s Hall;
    simpl; destruct (forallb done ws).
  - exists []. simpl. now rewrite app_nil_r.
  - now apply batch_drain_warranted.
  - exists []. simpl. now rewrite app_nil_r.
  - destruct (ws !! i) as [a |] eqn:Hi; [| now apply IH].
    pose proof (proj1 (Forall_lookup _ _) Hall i a Hi) as Ha.
    destruct (adv_at a) as [| success rest | e |] eqn:Hat.
    + unfold bind.
      destruct (advancer_step_warranted t clock txs a s Ha) as [Ha' [evs1 [H1 W1]]].
      destruct (advancer_step t a s) as [a' s1]. simpl in *.
      destruct (IH (<[i := a']> ws) firstErr s1) as [evs2 [H2 W2]];
        [now apply Forall_insert |].
      exists (evs1 ++ evs2). rewrite H2, H1, <- app_assoc. split; [reflexivity |].
      apply Forall_app. now split.
    + unfold bind.
      destruct (advancer_step_warranted t clock txs a s Ha) as [Ha' [evs1 [H1 W1]]].
      destruct (advancer_step t a s) as [a' s1]. simpl in *.
      destruct (IH (<[i := a']> ws) firstErr s1) as [evs2 [H2 W2]];
        [now apply Forall_insert |].
      exists (evs1 ++ evs2). rewrite H2, H1, <- app_assoc. split; [reflexivity |].
      apply Forall_app. now split.
    + apply IH. apply Forall_insert; [exact Hall |].
      destruct Ha as [Hidx _]. split; [exact Hidx | exact I].
    + now apply IH.
Qed.

(** X23. Whatever the interleaving of the goroutines of a batch, every
    Confirm and every TXSubmit with success = true that the batch makes is
    for a transaction of the batch that its goroutine derived SUCCESSFUL:
    no transaction that is hanging, failed or timed out is committed. *)
Theorem batchAdvanceProgress_commits_successful t (sched : list nat)
    (clock : nat -> Time) (txs : list Transaction) s :
  exists evs,
    trace (snd (batchAdvanceProgress t sched clock txs s)) = trace s ++ evs /\
    Forall (warranted t clock txs) evs.
Proof.
  unfold batchAdvanceProgress. apply batch_warranted.
  apply Forall_lookup. intros i a Hi.
  rewrite list_lookup_imap in Hi.
  destruct (txs !! i) as [tx |] eqn:Htx; [| discriminate].
  simpl in Hi. injection Hi as <-. split; [| exact I]. simpl. now exists i.
Qed.

End Batch.

(** ** The loop *)

Section Loop.
Context {World : Type}.
Implicit Types (t : TXManager World) (rs : RState World) (st : loop_state).

Lemma waits_app (a b : list REvent) : waits (a ++ b) = waits a ++ waits b.
Proof. unfold waits. apply flat_map_app. Qed.

Lemma waits_Advance (l : list Event) : waits (map Advance l) = [].
Proof. induction l as [| e l IH]; [reflexivity | exact IH]. Qed.

Lemma disciplined_Advance (l : list Event) (rest : list REvent) :
  disciplined true (map Advance l ++ rest) = disciplined true rest.
Proof. induction l as [| e l IH]; [reflexivity | exact IH]. Qed.

(** One round of the loop: what it adds to the trace. *)
Lemma run_body_trace t sched clock rs :
  exists evs,
    rtrace (snd (run_body t sched clock rs)) = rtrace rs ++ evs /\
    waits evs = [] /\
    forall rest, disciplined false (evs ++ rest) = disciplined false rest.
Proof.
  unfold run_body, bind, rcall, lift, ret.
  destruct (Lock (txStore t) (MonitorTick (opts t)) (rworld rs)) as [[e |] w1];
    cbn [rworld rtrace fst snd].
  - exists [StoreLock (MonitorTick (opts t)) (Some e)]. auto.
  - destruct (GetHangingTXs (txStore t) w1) as [[txs | e] w2];
      cbn [rworld rtrace fst snd].
    + destruct (batchAdvanceProgress t sched clock txs {| world := w2; trace := [] |})
        as [r s1]. cbn [rworld rtrace fst snd].
      destruct (Unlock (txStore t) (world s1)) as [u w3]. cbn [rworld rtrace fst snd].
      exists ([StoreLock (MonitorTick (opts t)) None; StoreGetHangingTXs (Ok txs)]
              ++ map Advance (trace s1) ++ [StoreUnlock u]).
      split; [now rewrite <- !app_assoc |]. split.
      * rewrite !waits_app, waits_Advance. reflexivity.
      * intros rest. rewrite <- !app_assoc. simpl.
        now rewrite disciplined_Advance.
    + destruct (Unlock (txStore t) w2) as [u w3]. cbn [rworld rtrace fst snd].
      exists [StoreLock (MonitorTick (opts t)) None; StoreGetHangingTXs (Err e);
              StoreUnlock u].
      split; [now rewrite <- !app_assoc |]. auto.
Qed.

(** X24. The recovery loop keeps to the lock of the store: in every run,
    whatever wakes it and however the goroutines of its batches interleave,
    it reads the hanging transactions and advances them only between a Lock
    that succeeded and the Unlock that follows, it never waits or takes the
    lock while holding it, and it holds no lock when it returns or waits. *)
Theorem run_keeps_to_the_lock t (wakes : list wake) (w : World) :
  disciplined false
    (rtrace (snd (run t wakes {| rworld := w; rtrace := [] |}))) = true.
Proof.
  unfold run.
  enough (H : forall st rs, exists evs,
             rtrace (snd (run_from t wakes st rs)) = rtrace rs ++ evs /\
             disciplined false evs = true).
  { destruct (H {| tick := 0; err := None |} {| rworld := w; rtrace := [] |})
      as [evs [-> Hevs]]. exact Hevs. }
  induction wakes as [| wk wakes IH]; intros st rs; simpl.
  - exists []. now rewrite app_nil_r.
  - unfold bind, rlog. destruct wk as [| sched clock]; cbn [fst snd].
    + exists [Wait (run_tick t st)]. auto.
    + destruct (run_body_trace t sched clock
                  {| rworld := rworld rs; rtrace := rtrace rs ++ [Wait (run_tick t st)] |})
        as [evs1 [H1 [_ D1]]].
      destruct (run_body t sched clock _) as [e rs1]. cbn [fst snd rtrace] in H1.
      destruct (IH {| tick := run_tick t st; err := e |} rs1) as [evs2 [H2 D2]].
      exists (Wait (run_tick t st) :: evs1 ++ evs2).
      split; [rewrite H2, H1, <- !app_assoc; reflexivity |].
      simpl. now rewrite D1.
Qed.

(** The tick after a back-off, for a tick within the bounds. *)
Lemma backOffTick_bounds t (d : Duration) :
  0 < MonitorTick (opts t) ->
  16 * MonitorTick (opts t) <= maxInt64 ->
  MonitorTick (opts t) <= d <= 8 * MonitorTick (opts t) ->
  backOffTick t d = Z.min (2 * d) (8 * MonitorTick (opts t)).
Proof.
  intros Hpos Hmax Hd. unfold backOffTick.
  rewrite !TxModel.shl64_small;
    try (unfold inInt64, minInt64, maxInt64 in *; lia).
  change (2 ^ 1) with 2. change (2 ^ 3) with 8.
  destruct (Z.gtb_spec (d * 2) (MonitorTick (opts t) * 8)); lia.
Qed.

(** X25. With a positive tick whose sixteenfold fits an int64, every wait
    of the recovery loop lasts at least the tick and at most eight times the
    tick, whatever errors its rounds meet. *)
Theorem run_waits_bounded t (wakes : list wake) rs :
  0 < MonitorTick (opts t) ->
  16 * MonitorTick (opts t) <= maxInt64 ->
  exists evs,
    rtrace (snd (run t wakes rs)) = rtrace rs ++ evs /\
    Forall (fun d => MonitorTick (opts t) <= d <= 8 * MonitorTick (opts t))
           (waits evs).
Proof.
  intros Hpos Hmax. unfold run.
  enough (H : forall st rs,
             err st = None \/
             MonitorTick (opts t) <= tick st <= 8 * MonitorTick (opts t) ->
             exists evs,
               rtrace (snd (run_from t wakes st rs)) = rtrace rs ++ evs /\
               Forall (fun d => MonitorTick (opts t) <= d <= 8 * MonitorTick (opts t))
                      (waits evs)).
  { apply H. now left. }
  induction wakes as [| wk wakes IH]; intros st rs0 Hst; simpl.
  - exists []. rewrite app_nil_r. split; [reflexivity | constructor].
  - assert (Htick : MonitorTick (opts t) <= run_tick t st <= 8 * MonitorTick (opts t)).
    { unfold run_tick. destruct (err st) as [e |]; [| lia].
      destruct Hst as [Hst | Hst]; [discriminate |].
      rewrite (backOffTick_bounds t (tick st) Hpos Hmax Hst). lia. }
    unfold bind, rlog. destruct wk as [| sched clock]; cbn [fst snd].
    + exists [Wait (run_tick t st)]. split; [reflexivity |].
      simpl. constructor; [exact Htick | constructor].
    + destruct (run_body_trace t sched clock
                  {| rworld := rworld rs0; rtrace := rtrace rs0 ++ [Wait (run_tick t st)] |})
        as [evs1 [H1 [W1 _]]].
      destruct (run_body t sched clock _) as [e rs1]. cbn [fst snd rtrace] in H1.
      destruct (IH {| tick := run_tick t st; err := e |} rs1) as [evs2 [H2 W2]];
        [right; exact Htick |].
      exists (Wait (run_tick t st) :: evs1 ++ evs2).
      split; [rewrite H2, H1, <- !app_assoc; reflexivity |].
      change (Wait (run_tick t st) :: evs1 ++ evs2)
        with ([Wait (run_tick t st)] ++ evs1 ++ evs2).
      rewrite !waits_app, W1. simpl. constructor; [exact Htick | exact W2].
Qed.

Lemma backOffTick_backed_off t (k : nat) :
  0 < MonitorTick (opts t) ->
  16 * MonitorTick (opts t) <= maxInt64 ->
  backOffTick t (backed_off (MonitorTick (opts t)) k)
  = backed_off (MonitorTick (opts t)) (S k).
Proof.
  intros Hpos Hmax.
  assert (Hk : backed_off (MonitorTick (opts t)) k = MonitorTick (opts t) * 1 /\ k = 0%nat \/
               backed_off (MonitorTick (opts t)) k = MonitorTick (opts t) * 2 /\ k = 1%nat \/
               backed_off (MonitorTick (opts t)) k = MonitorTick (opts t) * 4 /\ k = 2%nat \/
               backed_off (MonitorTick (opts t)) k = MonitorTick (opts t) * 8 /\ (3 <= k)%nat).
  { unfold backed_off. destruct k as [| [| [| k]]]; [auto | auto | auto |].
    right; right; right. split; [| lia].
    replace (Nat.min (S (S (S k))) 3) with 3%nat by lia. reflexivity. }
  rewrite backOffTick_bounds; try assumption; [| lia].
  unfold backed_off at 2.
  destruct Hk as [[-> ->] | [[-> ->] | [[-> ->] | [-> Hge]]]].
  - change (2 ^ Z.of_nat (Nat.min 1 3)) with 2. lia.
  - change (2 ^ Z.of_nat (Nat.min 2 3)) with 4. lia.
  - change (2 ^ Z.of_nat (Nat.min 3 3)) with 8. lia.
  - replace (Nat.min (S k) 3) with 3%nat by lia.
    change (2 ^ Z.of_nat 3) with 8. lia.
Qed.

(** A round over a store that cannot list the hanging transactions ends in
    an error. *)
Lemma run_body_unreadable t sched clock rs :
  unreadable (txStore t) (MonitorTick (opts t)) ->
  exists e, fst (run_body t sched clock rs) = Some e.
Proof.
  intros [Hlock Hget]. unfold run_body, bind, rcall, ret.
  specialize (Hlock (rworld rs)).
  destruct (Lock (txStore t) (MonitorTick (opts t)) (rworld rs)) as [l w1].
  simpl in Hlock. subst l. cbn [rworld rtrace fst snd].
  specialize (Hget w1). destruct Hget as [e Hget].
  destruct (GetHangingTXs (txStore t) w1) as [r w2]. simpl in Hget. subst r.
  cbn [rworld rtrace fst snd].
  destruct (Unlock (txStore t) w2) as [u w3]. now exists e.
Qed.

(** X26. Over a store that grants its lock but cannot list the hanging
    transactions, the recovery loop backs off: with a positive tick whose
    sixteenfold fits an int64, its waits are the tick, twice the tick, four
    times, eight times, and eight times the tick from then on. *)
Theorem run_backs_off t (wakes : list wake) rs :
  0 < MonitorTick (opts t) ->
  16 * MonitorTick (opts t) <= maxInt64 ->
  unreadable (txStore t) (MonitorTick (opts t)) ->
  forallb ticked wakes = true ->
  waits (rtrace (snd (run t wakes rs)))
  = waits (rtrace rs)
    ++ map (backed_off (MonitorTick (opts t))) (seq 0 (length wakes)).
Proof.
  intros Hpos Hmax Hstore. unfold run.
  enough (H : forall (k : nat) st rs,
             run_tick t st = backed_off (MonitorTick (opts t)) k ->
             forallb ticked wakes = true ->
             waits (rtrace (snd (run_from t wakes st rs)))
             = waits (rtrace rs)
               ++ map (backed_off (MonitorTick (opts t))) (seq k (length wakes))).
  { apply H. unfold run_tick, backed_off. simpl. lia. }
  induction wakes as [| wk wakes IH]; intros k st rs0 Hk Hwakes; simpl.
  - now rewrite app_nil_r.
  - simpl in Hwakes. apply andb_prop in Hwakes. destruct Hwakes as [Hwk Hwakes].
    destruct wk as [| sched clock]; [discriminate |].
    unfold bind, rlog. cbn [fst snd].
    destruct (run_body_trace t sched clock
                {| rworld := rworld rs0; rtrace := rtrace rs0 ++ [Wait (run_tick t st)] |})
      as [evs1 [H1 [W1 _]]].
    destruct (run_body_unreadable t sched clock
                {| rworld := rworld rs0; rtrace := rtrace rs0 ++ [Wait (run_tick t st)] |}
                Hstore) as [e He].
    destruct (run_body t sched clock _) as [r rs1]. cbn [fst snd rtrace] in H1, He.
    subst r.
    rewrite (IH (S k) {| tick := run_tick t st; err := Some e |} rs1); [| | exact Hwakes].
    + rewrite H1, !waits_app, W1, app_nil_r, <- app_assoc, Hk. reflexivity.
    + unfold run_tick at 1. cbn [err tick]. rewrite Hk.
      now apply backOffTick_backed_off.
Qed.

End Loop.

Lemma run_waits_bounded_witness :
  let t := scenario.manager in
  exists evs,
    rtrace (snd (run t [Ticked [] (fun _ => 0); Stopped]
                   {| rworld := 0%nat; rtrace := [] |})) = [] ++ evs /\
    Forall (fun d => MonitorTick (opts t) <= d <= 8 * MonitorTick (opts t))
           (waits evs).
Proof.
  apply (run_waits_bounded scenario.manager [Ticked [] (fun _ => 0); Stopped]
           {| rworld := 0%nat; rtrace := [] |}).
  - vm_compute. reflexivity.
  - vm_compute. discriminate.
Defined.

Lemma run_backs_off_witness :
  let t := scenario.unreadable_manager in
  let wakes := [Ticked [] (fun _ => 0); Ticked [] (fun _ => 0);
                Ticked [] (fun _ => 0); Ticked [] (fun _ => 0);
                Ticked [] (fun _ => 0)] in
  waits (rtrace (snd (run t wakes {| rworld := 0%nat; rtrace := [] |})))
  = waits [] ++ map (backed_off (MonitorTick (opts t))) (seq 0 (length wakes)).
Proof.
  apply (run_backs_off scenario.unreadable_manager
           [Ticked [] (fun _ => 0); Ticked [] (fun _ => 0);
            Ticked [] (fun _ => 0); Ticked [] (fun _ => 0);
            Ticked [] (fun _ => 0)]
           {| rworld := 0%nat; rtrace := [] |}).
  - vm_compute. reflexivity.
  - vm_compute. discriminate.
  - split; [intros w; reflexivity | intros w; now exists "store unreachable"].
  - reflexivity.
Defined.

End Recovery.
